(** * Chips_Prod: the per-room turn / round / vote state machine

    A shallow embedding of the word-game server (src/config/timers.js,
    src/config/bot.js, src/utils/wordUtils.js, src/game/roomManager.js,
    src/game/gameLogic.js, src/socket/handlers.js) and the properties of
    its turn engine.

    Conventions of the embedding:
    - a JS [Map] is an association list in insertion order, because the
      code iterates maps and the iteration order is observable (winner
      tie-break, elimination lists); [Map.prototype.set] on a present key
      keeps the key's position, on a fresh key appends;
    - a JS [Set] of strings is a duplicate-free list in insertion order;
    - a JS string is the Rocq string of its UTF-8 bytes; what JS counts in
      UTF-16 code units ([length], [slice]) or reads from the Unicode tables
      (trimming, lower-casing, diacritics) is a built-in of the interface
      [StringBuiltins], and what the code does with ASCII characters only
      is done on the bytes;
    - an exception that nothing catches is the effect [Throw], the last
      effect of the handler it ends; what Node does with it afterwards is
      not part of the room;
    - player objects are mutated in place in the source; they are reachable
      only through [room.players], so an in-place write is an update of the
      roster entry;
    - JS numbers that hold counters, scores and millisecond instants are
      [Z]; the turn duration in seconds and the elapsed fraction are exact
      rationals [Q] (the doubles of the source carry a relative error of
      about 1e-16, far below the 1e-4 resolution of the values involved);
    - [Date.now()], [Math.random()] and the word bank are inputs of the
      transitions;
    - a handler returns the new room together with the effects it performs
      (messages emitted, timers armed or cancelled), in program order. *)

From Stdlib Require Import List String Ascii ZArith QArith Qround Lia Bool DecimalString.
From Stdlib Require Import Permutation.
Import ListNotations.

Local Open Scope string_scope.
Local Open Scope Z_scope.
Local Open Scope list_scope.

(** ** JS containers *)

(** Keys are compared with a boolean equality (JS [SameValueZero] on the
    values that occur here: strings and [null]). *)
Class Eqb (K : Type) : Type := eqb : K -> K -> bool.

#[global] Instance string_Eqb : Eqb string := String.eqb.

(** A player id as the code holds it: a socket id (a string), or [null]
    ([room.hostId], [room.botId] and the keys the code reads from them). *)
Abbreviation Id := (option string).

Definition Id_eqb (a b : Id) : bool :=
  match a, b with
  | Some x, Some y => String.eqb x y
  | None, None => true
  | _, _ => false
  end.

#[global] Instance Id_Eqb : Eqb Id := Id_eqb.

(** The boolean equality decides equality. *)
Class EqbSpec (K : Type) `{Eqb K} : Prop :=
  eqb_iff : forall a b : K, eqb a b = true <-> a = b.

Module JsMap.
Section Ops.
Context {K V : Type} `{Eqb K}.

Fixpoint get (k : K) (m : list (K * V)) : option V :=
  match m with
  | [] => None
  | (k', v) :: m' => if eqb k' k then Some v else get k m'
  end.

Definition has (k : K) (m : list (K * V)) : bool :=
  match get k m with Some _ => true | None => false end.

Fixpoint set (k : K) (v : V) (m : list (K * V)) : list (K * V) :=
  match m with
  | [] => [(k, v)]
  | (k', v') :: m' =>
      if eqb k' k then (k', v) :: m' else (k', v') :: set k v m'
  end.

Fixpoint delete (k : K) (m : list (K * V)) : list (K * V) :=
  match m with
  | [] => []
  | (k', v') :: m' =>
      if eqb k' k then m' else (k', v') :: delete k m'
  end.

(** In-place mutation of the object stored under [k] (no-op when absent). *)
Fixpoint update (k : K) (f : V -> V) (m : list (K * V)) : list (K * V) :=
  match m with
  | [] => []
  | (k', v') :: m' =>
      if eqb k' k then (k', f v') :: m' else (k', v') :: update k f m'
  end.

Definition keys (m : list (K * V)) : list K := map fst m.

Definition size (m : list (K * V)) : Z := Z.of_nat (List.length m).

(** The well-formedness every JS Map has: one entry per key. *)
Definition wf (m : list (K * V)) : Prop := NoDup (keys m).

Definition count_key (k : K) (m : list (K * V)) : nat :=
  List.length (filter (fun e => eqb (fst e) k) m).
End Ops.
End JsMap.

Module JsSet.
Section Ops.
Context {K : Type} `{Eqb K}.

Definition has (x : K) (s : list K) : bool :=
  existsb (eqb x) s.

Definition add (x : K) (s : list K) : list K :=
  if has x s then s else s ++ [x].

Definition delete (x : K) (s : list K) : list K :=
  filter (fun y => negb (eqb x y)) s.

Definition size (s : list K) : Z := Z.of_nat (List.length s).
End Ops.
End JsSet.

(** ** JS values received from a socket, and string built-ins *)

(** A payload is a string, one of the falsy atoms, or some other truthy
    value, of which only its [String(w)] conversion matters. *)
Inductive JsValue : Type :=
| JsUndefined
| JsNull
| JsFalse
| JsZero
| JsNaN
| JsString (s : string)
| JsTruthy (repr : string).

Definition truthy (w : JsValue) : bool :=
  match w with
  | JsString s => negb (String.eqb s "")
  | JsTruthy _ => true
  | _ => false
  end.

Definition js_String (w : JsValue) : string :=
  match w with
  | JsUndefined => "undefined"
  | JsNull => "null"
  | JsFalse => "false"
  | JsZero => "0"
  | JsNaN => "NaN"
  | JsString s => s
  | JsTruthy repr => repr
  end.

Definition is_ascii_space (c : ascii) : bool :=
  match nat_of_ascii c with
  | 9%nat | 10%nat | 11%nat | 12%nat | 13%nat | 32%nat => true
  | _ => false
  end.

Fixpoint all_space (s : string) : bool :=
  match s with
  | EmptyString => true
  | String c s' => is_ascii_space c && all_space s'
  end.



(** The Unicode-aware built-ins of the JS runtime used by [normalizeWord]
    and by the name cut of [handlePlayerJoin]; they are not code of the
    repository, so they are an interface. *)
Class StringBuiltins : Type := {
  js_trim : string -> string;
  js_toLowerCase : string -> string;
  (** [s.normalize("NFD").replace(/\p{Diacritic}/gu, "")] *)
  js_stripDiacritics : string -> string;
  (** [s.slice(0, n)] and [s.length], both in UTF-16 code units *)
  js_slice_to : nat -> string -> string;
  js_length : string -> nat;
}.

(** What the development uses of them: trimming removes white space, and
    the empty string is a fixed point of the two others. *)
Record StringBuiltinsSpec `{StringBuiltins} : Prop := {
  js_trim_space : forall s, all_space s = true -> js_trim s = "";
  js_toLowerCase_empty : js_toLowerCase "" = "";
  js_stripDiacritics_empty : js_stripDiacritics "" = "";
}.


(** [String.prototype.includes] *)
Definition includes (s sub : string) : bool :=
  match String.index 0 sub s with Some _ => true | None => false end.

(** ** wordUtils.js *)

Section WordUtils.
Context `{StringBuiltins}.

Definition normalizeWord (w : JsValue) : string :=
  if negb (truthy w) then ""
  else
    let s := js_toLowerCase (js_trim (js_String w)) in
    js_stripDiacritics s.
End WordUtils.

(** [generatePunishedLetters]: [draws] are the successive values of
    [Math.floor(Math.random() * 26)]; the loop stops when [count] distinct
    letters are drawn ([None]: the draws ran out first). *)
Definition punishedCount (level : Z) : nat :=
  if 16 <=? level then 3%nat
  else if 13 <=? level then 2%nat
  else if 10 <=? level then 1%nat
  else 0%nat.

Definition letterOfDraw (d : nat) : string :=
  String (ascii_of_nat (97 + d)) EmptyString.

Fixpoint drawLetters (count : nat) (letters : list string) (draws : list nat)
  : option (list string) :=
  if (count <=? List.length letters)%nat then Some letters
  else
    match draws with
    | [] => None
    | d :: draws' =>
        let letter := letterOfDraw d in
        if JsSet.has letter letters then drawLetters count letters draws'
        else drawLetters count (letters ++ [letter]) draws'
    end.

Definition generatePunishedLetters (level : Z) (draws : list nat) : option (list string) :=
  drawLetters (punishedCount level) [] draws.

(** [pickRandom]: [rnd] is [Math.floor(Math.random() * arr.length)]. *)
Definition pickRandom {A : Type} (arr : list A) (rnd : nat) : option A :=
  nth_error arr rnd.

(** ** roomManager.js: the room state *)

Record Player : Type := mkPlayer {
  name : string;
  score : Z;
  alive : bool;
  online : bool;
}.

(** The callbacks the engine hands to [setTimeout]; a closure carries the
    values it captured. *)
Inductive Callback : Type :=
| CbStartNextTurn
| CbEndTurn
| CbFinalizeTurn (eliminated : list Id)
| CbFinalizeVote
| CbProceedAfterPopup (eliminatedByVote : list Id)
| CbGameOver
| CbBotSubmit.

(** [room.timers]: for each name the callback of the handle stored there. *)
Record Timers : Type := mkTimers {
  nextTurn : option Callback;
  endTurn_t : option Callback;
  newRound : option Callback;
  voteEnd : option Callback;
  botSubmit : option Callback;
}.

Definition noTimers : Timers := mkTimers None None None None None.

(** The fields [baseTurnMs], [minTurnMs] and [turnDecayMs] of the source
    are constants no function reads; they are left out. *)
Record Room : Type := mkRoom {
  players : list (Id * Player);
  hostId : Id;
  round : Z;
  theme : option string;
  turn : Z;
  accepting : bool;
  submissions : list (Id * string);
  usedWords : list string;
  wordSet : list string;
  createdAt : Z;
  lastActivity : Z;
  timers : Timers;
  votes : list (Id * list Id);
  votingActive : bool;
  themes : list string;
  gameActive : bool;
  level : Z;
  punishedLetters : list string;
  botId : Id;
  turnStartedAt : option Z;
  currentTurnDuration : option Z;
  submissionTimes : list (Id * Z);
}.

Definition set_players (x : list (Id * Player)) (r : Room) : Room :=
  {| players := x;
     hostId := hostId r;
     round := round r;
     theme := theme r;
     turn := turn r;
     accepting := accepting r;
     submissions := submissions r;
     usedWords := usedWords r;
     wordSet := wordSet r;
     createdAt := createdAt r;
     lastActivity := lastActivity r;
     timers := timers r;
     votes := votes r;
     votingActive := votingActive r;
     themes := themes r;
     gameActive := gameActive r;
     level := level r;
     punishedLetters := punishedLetters r;
     botId := botId r;
     turnStartedAt := turnStartedAt r;
     currentTurnDuration := currentTurnDuration r;
     submissionTimes := submissionTimes r |}.

Definition set_hostId (x : Id) (r : Room) : Room :=
  {| players := players r;
     hostId := x;
     round := round r;
     theme := theme r;
     turn := turn r;
     accepting := accepting r;
     submissions := submissions r;
     usedWords := usedWords r;
     wordSet := wordSet r;
     createdAt := createdAt r;
     lastActivity := lastActivity r;
     timers := timers r;
     votes := votes r;
     votingActive := votingActive r;
     themes := themes r;
     gameActive := gameActive r;
     level := level r;
     punishedLetters := punishedLetters r;
     botId := botId r;
     turnStartedAt := turnStartedAt r;
     currentTurnDuration := currentTurnDuration r;
     submissionTimes := submissionTimes r |}.

Definition set_round (x : Z) (r : Room) : Room :=
  {| players := players r;
     hostId := hostId r;
     round := x;
     theme := theme r;
     turn := turn r;
     accepting := accepting r;
     submissions := submissions r;
     usedWords := usedWords r;
     wordSet := wordSet r;
     createdAt := createdAt r;
     lastActivity := lastActivity r;
     timers := timers r;
     votes := votes r;
     votingActive := votingActive r;
     themes := themes r;
     gameActive := gameActive r;
     level := level r;
     punishedLetters := punishedLetters r;
     botId := botId r;
     turnStartedAt := turnStartedAt r;
     currentTurnDuration := currentTurnDuration r;
     submissionTimes := submissionTimes r |}.

Definition set_theme (x : option string) (r : Room) : Room :=
  {| players := players r;
     hostId := hostId r;
     round := round r;
     theme := x;
     turn := turn r;
     accepting := accepting r;
     submissions := submissions r;
     usedWords := usedWords r;
     wordSet := wordSet r;
     createdAt := createdAt r;
     lastActivity := lastActivity r;
     timers := timers r;
     votes := votes r;
     votingActive := votingActive r;
     themes := themes r;
     gameActive := gameActive r;
     level := level r;
     punishedLetters := punishedLetters r;
     botId := botId r;
     turnStartedAt := turnStartedAt r;
     currentTurnDuration := currentTurnDuration r;
     submissionTimes := submissionTimes r |}.

Definition set_turn (x : Z) (r : Room) : Room :=
  {| players := players r;
     hostId := hostId r;
     round := round r;
     theme := theme r;
     turn := x;
     accepting := accepting r;
     submissions := submissions r;
     usedWords := usedWords r;
     wordSet := wordSet r;
     createdAt := createdAt r;
     lastActivity := lastActivity r;
     timers := timers r;
     votes := votes r;
     votingActive := votingActive r;
     themes := themes r;
     gameActive := gameActive r;
     level := level r;
     punishedLetters := punishedLetters r;
     botId := botId r;
     turnStartedAt := turnStartedAt r;
     currentTurnDuration := currentTurnDuration r;
     submissionTimes := submissionTimes r |}.

Definition set_accepting (x : bool) (r : Room) : Room :=
  {| players := players r;
     hostId := hostId r;
     round := round r;
     theme := theme r;
     turn := turn r;
     accepting := x;
     submissions := submissions r;
     usedWords := usedWords r;
     wordSet := wordSet r;
     createdAt := createdAt r;
     lastActivity := lastActivity r;
     timers := timers r;
     votes := votes r;
     votingActive := votingActive r;
     themes := themes r;
     gameActive := gameActive r;
     level := level r;
     punishedLetters := punishedLetters r;
     botId := botId r;
     turnStartedAt := turnStartedAt r;
     currentTurnDuration := currentTurnDuration r;
     submissionTimes := submissionTimes r |}.

Definition set_submissions (x : list (Id * string)) (r : Room) : Room :=
  {| players := players r;
     hostId := hostId r;
     round := round r;
     theme := theme r;
     turn := turn r;
     accepting := accepting r;
     submissions := x;
     usedWords := usedWords r;
     wordSet := wordSet r;
     createdAt := createdAt r;
     lastActivity := lastActivity r;
     timers := timers r;
     votes := votes r;
     votingActive := votingActive r;
     themes := themes r;
     gameActive := gameActive r;
     level := level r;
     punishedLetters := punishedLetters r;
     botId := botId r;
     turnStartedAt := turnStartedAt r;
     currentTurnDuration := currentTurnDuration r;
     submissionTimes := submissionTimes r |}.

Definition set_usedWords (x : list string) (r : Room) : Room :=
  {| players := players r;
     hostId := hostId r;
     round := round r;
     theme := theme r;
     turn := turn r;
     accepting := accepting r;
     submissions := submissions r;
     usedWords := x;
     wordSet := wordSet r;
     createdAt := createdAt r;
     lastActivity := lastActivity r;
     timers := timers r;
     votes := votes r;
     votingActive := votingActive r;
     themes := themes r;
     gameActive := gameActive r;
     level := level r;
     punishedLetters := punishedLetters r;
     botId := botId r;
     turnStartedAt := turnStartedAt r;
     currentTurnDuration := currentTurnDuration r;
     submissionTimes := submissionTimes r |}.

Definition set_wordSet (x : list string) (r : Room) : Room :=
  {| players := players r;
     hostId := hostId r;
     round := round r;
     theme := theme r;
     turn := turn r;
     accepting := accepting r;
     submissions := submissions r;
     usedWords := usedWords r;
     wordSet := x;
     createdAt := createdAt r;
     lastActivity := lastActivity r;
     timers := timers r;
     votes := votes r;
     votingActive := votingActive r;
     themes := themes r;
     gameActive := gameActive r;
     level := level r;
     punishedLetters := punishedLetters r;
     botId := botId r;
     turnStartedAt := turnStartedAt r;
     currentTurnDuration := currentTurnDuration r;
     submissionTimes := submissionTimes r |}.

Definition set_createdAt (x : Z) (r : Room) : Room :=
  {| players := players r;
     hostId := hostId r;
     round := round r;
     theme := theme r;
     turn := turn r;
     accepting := accepting r;
     submissions := submissions r;
     usedWords := usedWords r;
     wordSet := wordSet r;
     createdAt := x;
     lastActivity := lastActivity r;
     timers := timers r;
     votes := votes r;
     votingActive := votingActive r;
     themes := themes r;
     gameActive := gameActive r;
     level := level r;
     punishedLetters := punishedLetters r;
     botId := botId r;
     turnStartedAt := turnStartedAt r;
     currentTurnDuration := currentTurnDuration r;
     submissionTimes := submissionTimes r |}.

Definition set_lastActivity (x : Z) (r : Room) : Room :=
  {| players := players r;
     hostId := hostId r;
     round := round r;
     theme := theme r;
     turn := turn r;
     accepting := accepting r;
     submissions := submissions r;
     usedWords := usedWords r;
     wordSet := wordSet r;
     createdAt := createdAt r;
     lastActivity := x;
     timers := timers r;
     votes := votes r;
     votingActive := votingActive r;
     themes := themes r;
     gameActive := gameActive r;
     level := level r;
     punishedLetters := punishedLetters r;
     botId := botId r;
     turnStartedAt := turnStartedAt r;
     currentTurnDuration := currentTurnDuration r;
     submissionTimes := submissionTimes r |}.

Definition set_timers (x : Timers) (r : Room) : Room :=
  {| players := players r;
     hostId := hostId r;
     round := round r;
     theme := theme r;
     turn := turn r;
     accepting := accepting r;
     submissions := submissions r;
     usedWords := usedWords r;
     wordSet := wordSet r;
     createdAt := createdAt r;
     lastActivity := lastActivity r;
     timers := x;
     votes := votes r;
     votingActive := votingActive r;
     themes := themes r;
     gameActive := gameActive r;
     level := level r;
     punishedLetters := punishedLetters r;
     botId := botId r;
     turnStartedAt := turnStartedAt r;
     currentTurnDuration := currentTurnDuration r;
     submissionTimes := submissionTimes r |}.

Definition set_votes (x : list (Id * list Id)) (r : Room) : Room :=
  {| players := players r;
     hostId := hostId r;
     round := round r;
     theme := theme r;
     turn := turn r;
     accepting := accepting r;
     submissions := submissions r;
     usedWords := usedWords r;
     wordSet := wordSet r;
     createdAt := createdAt r;
     lastActivity := lastActivity r;
     timers := timers r;
     votes := x;
     votingActive := votingActive r;
     themes := themes r;
     gameActive := gameActive r;
     level := level r;
     punishedLetters := punishedLetters r;
     botId := botId r;
     turnStartedAt := turnStartedAt r;
     currentTurnDuration := currentTurnDuration r;
     submissionTimes := submissionTimes r |}.

Definition set_votingActive (x : bool) (r : Room) : Room :=
  {| players := players r;
     hostId := hostId r;
     round := round r;
     theme := theme r;
     turn := turn r;
     accepting := accepting r;
     submissions := submissions r;
     usedWords := usedWords r;
     wordSet := wordSet r;
     createdAt := createdAt r;
     lastActivity := lastActivity r;
     timers := timers r;
     votes := votes r;
     votingActive := x;
     themes := themes r;
     gameActive := gameActive r;
     level := level r;
     punishedLetters := punishedLetters r;
     botId := botId r;
     turnStartedAt := turnStartedAt r;
     currentTurnDuration := currentTurnDuration r;
     submissionTimes := submissionTimes r |}.

Definition set_themes (x : list string) (r : Room) : Room :=
  {| players := players r;
     hostId := hostId r;
     round := round r;
     theme := theme r;
     turn := turn r;
     accepting := accepting r;
     submissions := submissions r;
     usedWords := usedWords r;
     wordSet := wordSet r;
     createdAt := createdAt r;
     lastActivity := lastActivity r;
     timers := timers r;
     votes := votes r;
     votingActive := votingActive r;
     themes := x;
     gameActive := gameActive r;
     level := level r;
     punishedLetters := punishedLetters r;
     botId := botId r;
     turnStartedAt := turnStartedAt r;
     currentTurnDuration := currentTurnDuration r;
     submissionTimes := submissionTimes r |}.

Definition set_gameActive (x : bool) (r : Room) : Room :=
  {| players := players r;
     hostId := hostId r;
     round := round r;
     theme := theme r;
     turn := turn r;
     accepting := accepting r;
     submissions := submissions r;
     usedWords := usedWords r;
     wordSet := wordSet r;
     createdAt := createdAt r;
     lastActivity := lastActivity r;
     timers := timers r;
     votes := votes r;
     votingActive := votingActive r;
     themes := themes r;
     gameActive := x;
     level := level r;
     punishedLetters := punishedLetters r;
     botId := botId r;
     turnStartedAt := turnStartedAt r;
     currentTurnDuration := currentTurnDuration r;
     submissionTimes := submissionTimes r |}.

Definition set_level (x : Z) (r : Room) : Room :=
  {| players := players r;
     hostId := hostId r;
     round := round r;
     theme := theme r;
     turn := turn r;
     accepting := accepting r;
     submissions := submissions r;
     usedWords := usedWords r;
     wordSet := wordSet r;
     createdAt := createdAt r;
     lastActivity := lastActivity r;
     timers := timers r;
     votes := votes r;
     votingActive := votingActive r;
     themes := themes r;
     gameActive := gameActive r;
     level := x;
     punishedLetters := punishedLetters r;
     botId := botId r;
     turnStartedAt := turnStartedAt r;
     currentTurnDuration := currentTurnDuration r;
     submissionTimes := submissionTimes r |}.

Definition set_punishedLetters (x : list string) (r : Room) : Room :=
  {| players := players r;
     hostId := hostId r;
     round := round r;
     theme := theme r;
     turn := turn r;
     accepting := accepting r;
     submissions := submissions r;
     usedWords := usedWords r;
     wordSet := wordSet r;
     createdAt := createdAt r;
     lastActivity := lastActivity r;
     timers := timers r;
     votes := votes r;
     votingActive := votingActive r;
     themes := themes r;
     gameActive := gameActive r;
     level := level r;
     punishedLetters := x;
     botId := botId r;
     turnStartedAt := turnStartedAt r;
     currentTurnDuration := currentTurnDuration r;
     submissionTimes := submissionTimes r |}.

Definition set_botId (x : Id) (r : Room) : Room :=
  {| players := players r;
     hostId := hostId r;
     round := round r;
     theme := theme r;
     turn := turn r;
     accepting := accepting r;
     submissions := submissions r;
     usedWords := usedWords r;
     wordSet := wordSet r;
     createdAt := createdAt r;
     lastActivity := lastActivity r;
     timers := timers r;
     votes := votes r;
     votingActive := votingActive r;
     themes := themes r;
     gameActive := gameActive r;
     level := level r;
     punishedLetters := punishedLetters r;
     botId := x;
     turnStartedAt := turnStartedAt r;
     currentTurnDuration := currentTurnDuration r;
     submissionTimes := submissionTimes r |}.

Definition set_turnStartedAt (x : option Z) (r : Room) : Room :=
  {| players := players r;
     hostId := hostId r;
     round := round r;
     theme := theme r;
     turn := turn r;
     accepting := accepting r;
     submissions := submissions r;
     usedWords := usedWords r;
     wordSet := wordSet r;
     createdAt := createdAt r;
     lastActivity := lastActivity r;
     timers := timers r;
     votes := votes r;
     votingActive := votingActive r;
     themes := themes r;
     gameActive := gameActive r;
     level := level r;
     punishedLetters := punishedLetters r;
     botId := botId r;
     turnStartedAt := x;
     currentTurnDuration := currentTurnDuration r;
     submissionTimes := submissionTimes r |}.

Definition set_currentTurnDuration (x : option Z) (r : Room) : Room :=
  {| players := players r;
     hostId := hostId r;
     round := round r;
     theme := theme r;
     turn := turn r;
     accepting := accepting r;
     submissions := submissions r;
     usedWords := usedWords r;
     wordSet := wordSet r;
     createdAt := createdAt r;
     lastActivity := lastActivity r;
     timers := timers r;
     votes := votes r;
     votingActive := votingActive r;
     themes := themes r;
     gameActive := gameActive r;
     level := level r;
     punishedLetters := punishedLetters r;
     botId := botId r;
     turnStartedAt := turnStartedAt r;
     currentTurnDuration := x;
     submissionTimes := submissionTimes r |}.

Definition set_submissionTimes (x : list (Id * Z)) (r : Room) : Room :=
  {| players := players r;
     hostId := hostId r;
     round := round r;
     theme := theme r;
     turn := turn r;
     accepting := accepting r;
     submissions := submissions r;
     usedWords := usedWords r;
     wordSet := wordSet r;
     createdAt := createdAt r;
     lastActivity := lastActivity r;
     timers := timers r;
     votes := votes r;
     votingActive := votingActive r;
     themes := themes r;
     gameActive := gameActive r;
     level := level r;
     punishedLetters := punishedLetters r;
     botId := botId r;
     turnStartedAt := turnStartedAt r;
     currentTurnDuration := currentTurnDuration r;
     submissionTimes := x |}.

(** ** Messages going out, and effects *)

Record LobbySnapshot : Type := mkLobbySnapshot {
  snap_players : list (Id * Player);
  snap_hostId : Id;
  snap_round : Z;
  snap_turn : Z;
  snap_theme : option string;
  snap_accepting : bool;
  snap_gameActive : bool;
  snap_level : Z;
}.

Inductive Reason : Type := ReasonDuplicate | ReasonNoSubmission.

Inductive Event : Type :=
| EvLobbyUpdate (snapshot : LobbySnapshot)
| EvGameError (message : string)
| EvGameMenu
| EvRoundStart (round_no : Z) (theme_name : option string)
| EvTurnStart (turn_no : Z) (turnMs : Z) (letters : list string)
| EvTurnAck (lockedWord : string)
| EvTurnProgress (submitted : Z)
| EvTurnError (message : string)
| EvLogMessage (message : string)
| EvElimPopup (eliminations : list (Id * string * Reason))
| EvOffTopicPopup (events : list (Id * string * string))
| EvTurnEnd (revealed : list (Id * string * string))
            (eliminated : list Id) (used : list string) (voteDurationMs : Z)
| EvVoteEliminated (ids : list Id)
| EvRoundEnd (winner : option (Id * string)) (round_no : Z)
| EvGameEnd (winner : option (Id * string)) (round_no : Z)
            (scores : list (Id * string * Z * bool))
| EvRoomClosed (reason : string).

Inductive Dest : Type :=
| ToSocket (id : string)
| ToRoom.

Inductive Effect : Type :=
| Emit (dest : Dest) (ev : Event)
| SetTimeout (cb : Callback) (ms : Z)
| ClearTimeout (cb : Callback)
| LoadWordSet (theme_name : option string)
| SocketJoin (id : string)
| Ack (ok : bool) (host : bool)
| KillRoom (reason : string)
| Throw (error : string).

Definition TypeError : string := "TypeError".

(** JS truthiness of a [string | null] field and of a [number | null] field. *)
Definition truthy_str (o : Id) : bool :=
  match o with
  | Some s => negb (String.eqb s "")
  | None => false
  end.

Definition truthy_num (o : option Z) : bool :=
  match o with
  | Some z => negb (z =? 0)
  | None => false
  end.

Definition createRoom (now : Z) : Room :=
  {| players := [];
     hostId := None;
     round := 0;
     theme := None;
     turn := 0;
     accepting := false;
     submissions := [];
     usedWords := [];
     wordSet := [];
     createdAt := now;
     lastActivity := now;
     timers := noTimers;
     votes := [];
     votingActive := false;
     themes := ["Jeux Vidéos (Nom Exact)"; "Personnage de LoL"; "Pokémons";
                "Couleurs"; "Métiers"; "Pays"; "Prénoms"; "Marques"; "Anime"];
     gameActive := false;
     level := 0;
     punishedLetters := [];
     botId := None;
     turnStartedAt := None;
     currentTurnDuration := None;
     submissionTimes := [] |}.

Definition touchRoom (now : Z) (room : Room) : Room :=
  set_lastActivity now room.

Definition timerEffects (t : Timers) : list Effect :=
  let clear o := match o with Some cb => [ClearTimeout cb] | None => [] end in
  clear (nextTurn t) ++ clear (endTurn_t t) ++ clear (newRound t)
    ++ clear (voteEnd t) ++ clear (botSubmit t).

Definition clearRoomTimers (room : Room) : Room * list Effect :=
  (set_timers noTimers room, timerEffects (timers room)).

Definition onlineCount (room : Room) : Z :=
  Z.of_nat (List.length (filter (fun e => online (snd e)) (players room))).

Definition aliveIds (room : Room) : list Id :=
  map fst (filter (fun e => alive (snd e)) (players room)).

Definition serializeRoom (room : Room) : LobbySnapshot :=
  {| snap_players := players room;
     snap_hostId := hostId room;
     snap_round := round room;
     snap_turn := turn room;
     snap_theme := theme room;
     snap_accepting := accepting room;
     snap_gameActive := gameActive room;
     snap_level := level room |}.

(** [killRoom] on the room of the registry: timers cancelled, members
    notified, entry deleted ([KillRoom]). *)
Definition killRoom (reason : string) (room : Room) : Room * list Effect :=
  let '(room1, cleared) := clearRoomTimers room in
  (room1, cleared ++ [Emit ToRoom (EvRoomClosed reason); KillRoom reason]).

(** Player field writes, [p.alive = b] and the like. *)
Definition set_alive (b : bool) (p : Player) : Player :=
  {| name := name p; score := score p; alive := b; online := online p |}.

Definition set_online (b : bool) (p : Player) : Player :=
  {| name := name p; score := score p; alive := alive p; online := b |}.

Definition add_score (d : Z) (p : Player) : Player :=
  {| name := name p; score := score p + d; alive := alive p; online := online p |}.

(** ** timers.js *)

Record LevelRange : Type := mkLevelRange {
  start : Z;
  end_ : Z;
  startSec : Q;
  endSec : Q;
}.

Definition levelRanges : list LevelRange :=
  [ mkLevelRange 1 10 10 8;
    mkLevelRange 10 15 8 6;
    mkLevelRange 15 20 6 4 ].

Definition voteDurationMs_cfg : Z := 2000.

(** The [for] loop of [getTurnDuration]; [None] when it falls through. *)
Fixpoint getTurnDuration_loop (ranges : list LevelRange) (level : Z) : option Q :=
  match ranges with
  | [] => None
  | r :: rest =>
      if level <? start r then Some (startSec r)
      else if (start r <=? level) && (level <=? end_ r) then
        let steps := end_ r - start r in
        if steps =? 0 then Some (endSec r)
        else
          let stepSize := ((startSec r - endSec r) / inject_Z steps)%Q in
          Some (startSec r - inject_Z (level - start r) * stepSize)%Q
      else getTurnDuration_loop rest level
  end.

Definition getTurnDuration_of (ranges : list LevelRange) (level : Z) : Q :=
  match ranges with
  | [] => 4%Q
  | r0 :: _ =>
      match getTurnDuration_loop ranges level with
      | Some sec => sec
      | None => endSec (last ranges r0)
      end
  end.

Definition getTurnDuration (level : Z) : Q :=
  getTurnDuration_of levelRanges level.

(** [Math.round] *)
Definition Math_round (q : Q) : Z := Qfloor (q + (1 # 2))%Q.

Definition turnMs_of (level : Z) : Z :=
  Math_round (getTurnDuration level * 1000)%Q.

(** ** messages.js *)

Definition dq : string := String (ascii_of_nat 34) EmptyString.

Definition quoted (n : string) : string := (dq ++ n ++ dq)%string.

Definition MSG_noSubmission : string :=
  (quoted "Personne" ++ " n'a pas eu le temps")%string.

Fixpoint join (sep : string) (l : list string) : string :=
  match l with
  | [] => ""
  | [x] => x
  | x :: rest => (x ++ sep ++ join sep rest)%string
  end.

Definition MSG_duplicate (names : list string) : string :=
  match names with
  | [] => ""
  | [a] => (quoted a ++ " a fait chips!")%string
  | [a; b] => (quoted a ++ " et " ++ quoted b ++ " ont fait chips!")%string
  | _ =>
      let allButLast := join ", " (map quoted (removelast names)) in
      (allButLast ++ " et " ++ quoted (last names "") ++ " ont fait chips!")%string
  end.

Definition MSG_offTopic (n : string) : string :=
  (quoted n ++ " a utilisé un mot hors‑sujet")%string.

Definition MSG_gameOver : string := "Game Over!".

Definition eliminationPopupMs : Z := 2000.
Definition gameOverMs : Z := 3500.

Definition MSG_lobbyError : string := "Problème de création du Lobby, Demande à Kiddy".
Definition MSG_invalidWord : string := "Mot invalide! Relis les règles!".

(** ** bot.js *)

Definition string_of_Z (z : Z) : string := NilZero.string_of_int (Z.to_int z).

Definition newBot : Player :=
  {| name := "Bot"; score := 0; alive := false; online := true |}.

Definition addBot (now : Z) (room : Room) : Room :=
  if truthy_str (botId room) then room
  else
    let id : Id := Some ("bot-" ++ string_of_Z now)%string in
    set_botId id (set_players (JsMap.set id newBot (players room)) room).

Definition removeBot (room : Room) : Room :=
  if truthy_str (botId room) then
    set_botId None (set_players (JsMap.delete (botId room) (players room)) room)
  else room.

(** One iteration of the loop of [pickBotWord]: [true] when the word is
    returned, [false] when the loop continues. *)
Definition botWordEligible (room : Room) (word : string) : bool :=
  negb (JsSet.has word (usedWords room))
  && negb (JsMap.has (botId room) (submissions room))
  && negb (existsb (fun l => includes word l) (punishedLetters room))
  && negb (existsb (fun e => String.eqb (snd e) word) (submissions room)).

Definition pickBotWord (room : Room) : option string :=
  find (botWordEligible room) (wordSet room).

Definition set_botSubmit (o : option Callback) (t : Timers) : Timers :=
  {| nextTurn := nextTurn t; endTurn_t := endTurn_t t; newRound := newRound t;
     voteEnd := voteEnd t; botSubmit := o |}.

Definition set_nextTurn (o : option Callback) (t : Timers) : Timers :=
  {| nextTurn := o; endTurn_t := endTurn_t t; newRound := newRound t;
     voteEnd := voteEnd t; botSubmit := botSubmit t |}.

Definition set_endTurn_t (o : option Callback) (t : Timers) : Timers :=
  {| nextTurn := nextTurn t; endTurn_t := o; newRound := newRound t;
     voteEnd := voteEnd t; botSubmit := botSubmit t |}.

Definition set_newRound (o : option Callback) (t : Timers) : Timers :=
  {| nextTurn := nextTurn t; endTurn_t := endTurn_t t; newRound := o;
     voteEnd := voteEnd t; botSubmit := botSubmit t |}.

Definition set_voteEnd (o : option Callback) (t : Timers) : Timers :=
  {| nextTurn := nextTurn t; endTurn_t := endTurn_t t; newRound := newRound t;
     voteEnd := o; botSubmit := botSubmit t |}.

(** [BOT_CONFIG.delayFactor] is 0.5: [Math.floor(d * 0.5)] is [d / 2]. *)
Definition botDelay (dur : Z) : Z :=
  Z.max 0 (Z.min (dur - 50) (dur / 2)).

Definition scheduleBotSubmission (room : Room) : Room * list Effect :=
  let '(room1, fx1) :=
    match botSubmit (timers room) with
    | Some cb => (set_timers (set_botSubmit None (timers room)) room, [ClearTimeout cb])
    | None => (room, [])
    end in
  if negb (truthy_str (botId room1)) then (room1, fx1)
  else
    match JsMap.get (botId room1) (players room1) with
    | None => (room1, fx1)
    | Some botPlayer =>
        if negb (alive botPlayer) then (room1, fx1)
        else if negb (accepting room1) || negb (truthy_num (currentTurnDuration room1))
        then (room1, fx1)
        else
          let dur := match currentTurnDuration room1 with Some d => d | None => 0 end in
          let delay := botDelay dur in
          (set_timers (set_botSubmit (Some CbBotSubmit) (timers room1)) room1,
           fx1 ++ [SetTimeout CbBotSubmit delay])
    end.

(** The callback armed by [scheduleBotSubmission]. It reads [room.botId]
    when it fires, also when that is [null] by then. *)
Definition botSubmitFire (now : Z) (room : Room) : Room * list Effect :=
  if negb (accepting room) then (room, [])
  else
    match pickBotWord room with
    | None => (room, [])
    | Some word =>
        if String.eqb word "" then (room, [])
        else if negb (JsMap.has (botId room) (submissions room)) then
          let subs := JsMap.set (botId room) word (submissions room) in
          let room1 :=
            set_submissionTimes (JsMap.set (botId room) now (submissionTimes room))
              (set_submissions subs room) in
          (room1, [Emit ToRoom (EvTurnProgress (JsMap.size subs))])
        else (room, [])
    end.

(** ** gameLogic.js *)

(** [scores.sort((a, b) => b.score - a.score)]: a stable sort, descending. *)
Fixpoint insertScore (x : Id * string * Z * bool) (l : list (Id * string * Z * bool))
  : list (Id * string * Z * bool) :=
  match l with
  | [] => [x]
  | y :: l' =>
      if snd (fst x) <? snd (fst y) then y :: insertScore x l' else x :: y :: l'
  end.

Definition sortScores (l : list (Id * string * Z * bool)) : list (Id * string * Z * bool) :=
  fold_right insertScore [] l.

Definition endRound (now : Z) (winnerId : Id) (room : Room) : Room * list Effect :=
  let '(winner, players1) :=
    if truthy_str winnerId && JsMap.has winnerId (players room) then
      match JsMap.get winnerId (players room) with
      | Some wp => (Some (winnerId, name wp), JsMap.update winnerId (add_score 3) (players room))
      | None => (None, players room)
      end
    else (None, players room) in
  let players2 :=
    map (fun e => (fst e, if alive (snd e) then add_score 1 (snd e) else snd e)) players1 in
  let scores :=
    sortScores (map (fun e => (fst e, name (snd e), score (snd e), online (snd e))) players2) in
  let room1 :=
    set_players (map (fun e => (fst e, set_alive false (snd e))) players2)
      (set_usedWords []
        (set_turn 0
          (set_theme None
            (set_submissions []
              (set_accepting false
                (set_gameActive false room)))))) in
  (touchRoom now room1,
   [Emit ToRoom (EvRoundEnd winner (round room));
    Emit ToRoom (EvLobbyUpdate (serializeRoom room1));
    Emit ToRoom (EvGameEnd winner (round room) scores)]).

(** [startNewRound] up to its [await]: the part [handleGameStart] runs. *)
Definition startNewRound_begin (rnd : nat) (room : Room) : Room * list Effect :=
  let th := pickRandom (themes room) rnd in
  (set_submissions []
     (set_usedWords []
        (set_theme th
           (set_turn 0
              (set_round (round room + 1) room)))),
   [LoadWordSet th]).

(** [startNewRound] from the [await] on, once the word bank answered. *)
Definition startNewRound_resume (now : Z) (ws : list string) (room : Room)
  : Room * list Effect :=
  let room1 :=
    set_players
      (map (fun e => (fst e, if online (snd e) then set_alive true (snd e) else snd e))
           (players room))
      (set_punishedLetters [] (set_wordSet ws room)) in
  let room2 := set_timers (set_nextTurn (Some CbStartNextTurn) (timers room1)) room1 in
  (touchRoom now room2,
   [Emit ToRoom (EvRoundStart (round room1) (theme room1));
    Emit ToRoom (EvLobbyUpdate (serializeRoom room1));
    SetTimeout CbStartNextTurn 600]).

(** [None]: the random draws given do not complete the letter loop. *)
Definition startNextTurn (now : Z) (draws : list nat) (room : Room)
  : option (Room * list Effect) :=
  let aliveL := aliveIds room in
  if (List.length aliveL <=? 1)%nat then
    let w := match aliveL with a :: _ => if truthy_str a then a else None | [] => None end in
    Some (endRound now w room)
  else
    let lvl := level room + 1 in
    let turnMs := turnMs_of lvl in
    let lettersO := if 10 <=? lvl then generatePunishedLetters lvl draws else Some [] in
    match lettersO with
    | None => None
    | Some letters =>
        let room1 :=
          set_punishedLetters letters
            (set_submissionTimes []
              (set_currentTurnDuration (Some turnMs)
                (set_turnStartedAt (Some now)
                  (set_accepting true
                    (set_submissions []
                      (set_level lvl
                        (set_turn (turn room + 1) room))))))) in
        let room2 := set_timers (set_endTurn_t (Some CbEndTurn) (timers room1)) room1 in
        let '(room3, fx) := scheduleBotSubmission room2 in
        Some (touchRoom now room3,
              [Emit ToRoom (EvTurnStart (turn room1) turnMs letters);
               SetTimeout CbEndTurn turnMs] ++ fx)
    end.

(** The frequency table of [endTurn]: word -> ids, in submission order. *)
Definition wordFreq (subs : list (Id * string)) : list (string * list Id) :=
  fold_left
    (fun freq e =>
       let ids := match JsMap.get (snd e) freq with Some ids => ids | None => [] end in
       JsMap.set (snd e) (ids ++ [fst e]) freq)
    subs [].

Definition noSubmissionIds (room : Room) : list Id :=
  map fst
    (filter (fun e => alive (snd e) && negb (JsMap.has (fst e) (submissions room)))
            (players room)).

Definition duplicateIds (room : Room) : list Id :=
  flat_map (fun e => if (2 <=? List.length (snd e))%nat then snd e else [])
           (wordFreq (submissions room)).

(** The [eliminated] Set of [endTurn]. *)
Definition eliminatedAtTurnEnd (room : Room) : list Id :=
  fold_left (fun s x => JsSet.add x s) (noSubmissionIds room ++ duplicateIds room) [].

Definition nameOf (room : Room) (sid : Id) : string :=
  match JsMap.get sid (players room) with
  | Some p => if String.eqb (name p) "" then "?" else name p
  | None => "?"
  end.

Definition markDead (ids : list Id) (ps : list (Id * Player)) : list (Id * Player) :=
  fold_left (fun acc sid => JsMap.update sid (set_alive false) acc) ids ps.

(** [10 - Math.floor((elapsed / dur) * 10)], clamped to 1..10. *)
Definition speedScore (elapsed dur : Z) : Z :=
  let s := 10 - Qfloor ((inject_Z elapsed / inject_Z dur) * 10)%Q in
  let s1 := if s <? 1 then 1 else s in
  if 10 <? s1 then 10 else s1.

(** The body of the scoring loop of [finalizeTurn] for one submission. *)
Definition awardOne (room : Room) (eliminated : list Id) (t0 dur : Z)
  (ps : list (Id * Player)) (sid : Id) : list (Id * Player) :=
  if JsSet.has sid eliminated then ps
  else
    match JsMap.get sid (submissionTimes room) with
    | None => ps
    | Some submitTs =>
        if submitTs =? 0 then ps
        else JsMap.update sid (add_score (speedScore (submitTs - t0) dur)) ps
    end.

Definition awardScores (room : Room) (eliminated : list Id) : list (Id * Player) :=
  match turnStartedAt room, currentTurnDuration room with
  | Some t0, Some dur =>
      if negb (t0 =? 0) && negb (dur =? 0) then
        fold_left (awardOne room eliminated t0 dur) (JsMap.keys (submissions room))
                  (players room)
      else players room
  | _, _ => players room
  end.

Definition acceptedWords (room : Room) (eliminated : list Id) : list string :=
  map snd (filter (fun e => negb (JsSet.has (fst e) eliminated)) (submissions room)).

(** The closure [finalizeTurn] of [endTurn]. gameLogic.js takes
    [TIMER_CONFIG] from config/messages.js, which does not export it, so
    the name is [undefined] in this module, and reading
    [TIMER_CONFIG.voteDurationMs] while the payload of [turn:end] is built
    throws a TypeError. The closure ends there: the scores and the used
    words are written and [lobby:update] is sent; [turn:end] is not sent,
    the ballots are not reset, [votingActive] stays as it was, no vote
    timer is armed and the activity time is not stamped. *)
Definition finalizeTurn (now : Z) (eliminated : list Id) (room : Room)
  : Room * list Effect :=
  let room1 := set_players (awardScores room eliminated) room in
  let room2 :=
    set_usedWords
      (fold_left (fun s w => JsSet.add w s) (acceptedWords room1 eliminated) (usedWords room1))
      room1 in
  (room2,
   [Emit ToRoom (EvLobbyUpdate (serializeRoom room1));
    Throw TypeError]).

Definition dedup (l : list string) : list string :=
  fold_left (fun s x => JsSet.add x s) l [].

Definition endTurn (now : Z) (room : Room) : Room * list Effect :=
  let room0 := set_accepting false room in
  let noSub := noSubmissionIds room0 in
  let dups := duplicateIds room0 in
  let eliminated := eliminatedAtTurnEnd room0 in
  let messages :=
    (if JsMap.size (submissions room0) =? 0 then [MSG_noSubmission] else [])
    ++ (match dups with
        | [] => []
        | _ => [MSG_duplicate (dedup (map (nameOf room0) dups))]
        end) in
  let logs :=
    map (fun msg => Emit ToRoom (EvLogMessage msg))
        (filter (fun msg => negb (String.eqb msg "")) messages) in
  let elimList :=
    map (fun sid =>
           (sid, nameOf room0 sid,
            if JsSet.has sid noSub then ReasonNoSubmission else ReasonDuplicate))
        eliminated in
  let room1 := set_players (markDead eliminated (players room0)) room0 in
  match elimList with
  | [] =>
      let '(room2, fx) := finalizeTurn now eliminated room1 in
      (room2, logs ++ fx)
  | _ =>
      (room1,
       logs ++ [Emit ToRoom (EvElimPopup elimList);
                SetTimeout (CbFinalizeTurn eliminated) eliminationPopupMs])
  end.

(** [Math.floor(n / 2) + 1] on the number of alive players other than the
    target. *)
Definition effThreshold (aliveL : list Id) (target : Id) : Z :=
  Z.of_nat (List.length (filter (fun sid => negb (eqb sid target)) aliveL)) / 2 + 1.

Definition isAlive (room : Room) (sid : Id) : bool :=
  match JsMap.get sid (players room) with
  | Some p => alive p
  | None => false
  end.

(** The [eliminatedByVote] Set of [finalizeVote]. *)
Definition eliminatedByVoteOf (room : Room) : list Id :=
  let aliveBefore := aliveIds room in
  fold_left
    (fun acc e =>
       if negb (isAlive room (fst e)) then acc
       else if effThreshold aliveBefore (fst e) <=? JsSet.size (snd e)
            then JsSet.add (fst e) acc
            else acc)
    (votes room) [].

(** Removal of a voted-off submitter: [p.alive = false] and the word leaves
    [usedWords]. *)
Definition voteOff (room : Room) (sid : Id) : Room :=
  let room1 := set_players (JsMap.update sid (set_alive false) (players room)) room in
  match JsMap.get sid (submissions room1) with
  | Some word =>
      if String.eqb word "" then room1
      else set_usedWords (JsSet.delete word (usedWords room1)) room1
  | None => room1
  end.

(** The closure [proceedAfterPopup] of [finalizeVote]. *)
Definition proceedAfterPopup (eliminatedByVote : list Id) (room : Room)
  : Room * list Effect :=
  let room1 := set_votes [] (fold_left voteOff eliminatedByVote room) in
  let remaining := aliveIds room1 in
  let levelExceeded := 20 <=? level room1 in
  if levelExceeded || (List.length remaining <=? 1)%nat then
    (set_timers (set_newRound (Some CbGameOver) (timers room1)) room1,
     [Emit ToRoom (EvLogMessage MSG_gameOver); SetTimeout CbGameOver gameOverMs])
  else
    let delay := if 10 <=? level room1 then 0 else 900 in
    (set_timers (set_nextTurn (Some CbStartNextTurn) (timers room1)) room1,
     [SetTimeout CbStartNextTurn delay]).

(** The search for [bestId] in the game-over callback; the running maximum
    starts at [-Infinity] ([None]). *)
Definition bestStep (acc : Id * option Z) (e : Id * Player) : Id * option Z :=
  match snd acc with
  | None => (fst e, Some (score (snd e)))
  | Some maxScore =>
      if maxScore <? score (snd e) then (fst e, Some (score (snd e))) else acc
  end.

Definition bestId (room : Room) : Id :=
  fst (fold_left bestStep (players room) (None, None)).

(** The callback armed by [proceedAfterPopup] when the game is over. *)
Definition gameOverFire (now : Z) (room : Room) : Room * list Effect :=
  endRound now (bestId room) room.

Definition finalizeVote (room : Room) : Room * list Effect :=
  if negb (votingActive room) then (room, [])
  else
    let room0 := set_votingActive false room in
    let '(room1, fx1) :=
      match voteEnd (timers room0) with
      | Some cb => (set_timers (set_voteEnd None (timers room0)) room0, [ClearTimeout cb])
      | None => (room0, [])
      end in
    let eliminatedByVote := eliminatedByVoteOf room1 in
    let popupEvents :=
      flat_map
        (fun sid =>
           match JsMap.get sid (players room1) with
           | Some p => [(sid, name p, MSG_offTopic (name p))]
           | None => []
           end)
        eliminatedByVote in
    match popupEvents with
    | [] =>
        let '(room2, fx2) := proceedAfterPopup eliminatedByVote room1 in
        (room2, fx1 ++ fx2)
    | _ =>
        (set_timers
           (set_newRound (Some (CbProceedAfterPopup eliminatedByVote)) (timers room1))
           room1,
         fx1 ++ [Emit ToRoom (EvVoteEliminated eliminatedByVote)]
             ++ map (fun ev => Emit ToRoom (EvLogMessage (snd ev))) popupEvents
             ++ [Emit ToRoom (EvOffTopicPopup popupEvents);
                 SetTimeout (CbProceedAfterPopup eliminatedByVote) eliminationPopupMs])
    end.

(** ** handlers.js

    [getRoom] creates the room on first reference, so a handler always has
    one; [sid] is [socket.id]. *)

(** The count of online humans the handlers take before adding or removing
    the bot. *)
Definition humanOnline (room : Room) : Z :=
  Z.of_nat
    (List.length
       (filter (fun e => negb (eqb (fst e) (botId room)) && online (snd e))
               (players room))).

Section Handlers.
Context `{StringBuiltins}.

(** [String(name || "Joueur").trim().slice(0, 20) || "Joueur"] *)
Definition cleanNameOf (nm : JsValue) : string :=
  let raw := if truthy nm then js_String nm else "Joueur" in
  let cut := js_slice_to 20 (js_trim raw) in
  if String.eqb cut "" then "Joueur" else cut.

(** [handlePlayerJoin] once its parameter pattern [{ name, code }] has
    matched the payload: [nm] is the [name] found there; [code] selects the
    room this transition is about. [onPlayerJoin] below is the whole
    call. *)
Definition handlePlayerJoin (sid : string) (nm : JsValue) (hasAck : bool) (now : Z)
  (room : Room) : Room * list Effect :=
  let room1 :=
    set_players
      (JsMap.set (Some sid)
         {| name := cleanNameOf nm; score := 0; alive := false; online := true |}
         (players room))
      room in
  let room2 := if negb (truthy_str (hostId room1)) then set_hostId (Some sid) room1 else room1 in
  let room3 :=
    if truthy_str (botId room2) && (2 <=? humanOnline room2) then removeBot room2
    else room2 in
  (touchRoom now room3,
   [SocketJoin sid; Emit ToRoom (EvLobbyUpdate (serializeRoom room3))]
   ++ (if hasAck then [Ack true (eqb (hostId room3) (Some sid))] else [])).

(** The call [handlePlayerJoin(socket, data, ack, io)] the listener of
    server.js makes: matching [data] against [{ name, code }] throws a
    TypeError when the event came without payload ([data] is [undefined] or
    [null], here [None]), before the handler's first statement. *)
Definition onPlayerJoin (sid : string) (data : option JsValue) (hasAck : bool) (now : Z)
  (room : Room) : Room * list Effect :=
  match data with
  | Some nm => handlePlayerJoin sid nm hasAck now room
  | None => (room, [Throw TypeError])
  end.

Definition handleGameStart (sid : string) (now : Z) (rnd : nat) (room : Room)
  : Room * list Effect :=
  if negb (eqb (Some sid) (hostId room)) then (room, [])
  else if gameActive room then
    (room, [Emit (ToSocket sid) (EvGameError MSG_lobbyError)])
  else
    let room1 := if humanOnline room <? 2 then addBot now room else room in
    if onlineCount room1 <? 2 then
      (room1, [Emit (ToSocket sid) (EvGameError MSG_lobbyError)])
    else
      startNewRound_begin rnd
        (set_punishedLetters [] (set_level 0 (set_gameActive true room1))).

Definition handleGameMenu (sid : string) (now : Z) (room : Room) : Room * list Effect :=
  if negb (eqb (Some sid) (hostId room)) then (room, [])
  else (touchRoom now room, [Emit ToRoom EvGameMenu]).

Definition handleGameRestart (sid : string) (now : Z) (rnd : nat) (room : Room)
  : Room * list Effect :=
  if negb (eqb (Some sid) (hostId room)) then (room, [])
  else if gameActive room then
    (room, [Emit (ToSocket sid) (EvGameError MSG_lobbyError)])
  else
    let room1 := if humanOnline room <? 2 then addBot now room else room in
    if onlineCount room1 <? 2 then
      (room1, [Emit (ToSocket sid) (EvGameError MSG_lobbyError)])
    else
      startNewRound_begin rnd
        (set_punishedLetters [] (set_level 0 (set_gameActive true room1))).

(** The three tests of [handleTurnSubmit] on the normalized word. *)
Definition alreadyUsed (room : Room) (normalized : string) : bool :=
  JsSet.has normalized (usedWords room).

Definition notInBank (room : Room) (normalized : string) : bool :=
  (0 <? JsSet.size (wordSet room)) && negb (JsSet.has normalized (wordSet room)).

Definition hasPunished (room : Room) (normalized : string) : bool :=
  existsb (fun letter => includes normalized letter) (punishedLetters room).

Definition handleTurnSubmit (sid : string) (word : JsValue) (now : Z) (room : Room)
  : Room * list Effect :=
  if negb (accepting room) then (room, [])
  else
    match JsMap.get (Some sid) (players room) with
    | None => (room, [])
    | Some p =>
        if negb (alive p) then (room, [])
        else
          let normalized := normalizeWord word in
          if String.eqb normalized "" then (room, [])
          else if alreadyUsed room normalized || notInBank room normalized
                  || hasPunished room normalized
          then (room, [Emit (ToSocket sid) (EvTurnError MSG_invalidWord)])
          else if negb (JsMap.has (Some sid) (submissions room)) then
            let subs := JsMap.set (Some sid) normalized (submissions room) in
            let room1 :=
              set_submissionTimes (JsMap.set (Some sid) now (submissionTimes room))
                (set_submissions subs room) in
            (touchRoom now room1,
             [Emit (ToSocket sid) (EvTurnAck normalized);
              Emit ToRoom (EvTurnProgress (JsMap.size subs))])
          else (room, [])
    end.
End Handlers.

(** [handleTurnVote] once its parameter pattern [{ target }] has matched
    the payload: [target] is the value found there ([None] when it is not
    a string, which no roster key is). [onTurnVote] below is the whole
    call. *)
Definition handleTurnVote (sid : string) (target : Id) (now : Z) (room : Room)
  : Room * list Effect :=
  if negb (votingActive room) then (room, [])
  else if negb (isAlive room (Some sid)) then (room, [])
  else if negb (isAlive room target) then (room, [])
  else if eqb target (Some sid) then (room, [])
  else if negb (JsMap.has target (submissions room)) then (room, [])
  else
    let votes1 :=
      if negb (JsMap.has target (votes room)) then JsMap.set target [] (votes room)
      else votes room in
    let votersSet := match JsMap.get target votes1 with Some v => v | None => [] end in
    if JsSet.has (Some sid) votersSet then (set_votes votes1 room, [])
    else
      let votersSet1 := JsSet.add (Some sid) votersSet in
      let room1 := set_votes (JsMap.set target votersSet1 votes1) room in
      if effThreshold (aliveIds room1) target <=? JsSet.size votersSet1 then
        let room2 := voteOff room1 target in
        (touchRoom now room2,
         [Emit ToRoom (EvVoteEliminated [target]);
          Emit ToRoom (EvLobbyUpdate (serializeRoom room2))])
      else (touchRoom now room1, []).

(** The call [handleTurnVote(socket, data, io)] the listener of server.js
    makes: matching [data] against [{ target }] throws a TypeError when the
    event came without payload, before any guard is read. *)
Definition onTurnVote (sid : string) (data : option Id) (now : Z) (room : Room)
  : Room * list Effect :=
  match data with
  | Some target => handleTurnVote sid target now room
  | None => (room, [Throw TypeError])
  end.

Definition firstOnline (room : Room) : Id :=
  match find (fun id => match JsMap.get id (players room) with
                        | Some p => online p
                        | None => false
                        end)
             (JsMap.keys (players room)) with
  | Some id => if truthy_str id then id else None
  | None => None
  end.

Definition handleDisconnect (sid : string) (now : Z) (room : Room) : Room * list Effect :=
  let wasHost := eqb (Some sid) (hostId room) in
  let room1 :=
    set_players
      (JsMap.update (Some sid) (fun p => set_alive false (set_online false p)) (players room))
      room in
  let room2 := if wasHost then set_hostId (firstOnline room1) room1 else room1 in
  let room3 :=
    if gameActive room2 then
      if humanOnline room2 <? 2 then addBot now room2 else room2
    else room2 in
  if onlineCount room3 =? 0 then killRoom "empty" room3
  else (room3, [Emit ToRoom (EvLobbyUpdate (serializeRoom room3))]).

(** ** The built-ins on ASCII text

    On ASCII strings the JS built-ins are these functions; U+005E and
    U+0060 are the two ASCII characters with the Unicode Diacritic
    property. They serve to run the handlers on concrete inputs. *)

Fixpoint trimStart (s : string) : string :=
  match s with
  | EmptyString => EmptyString
  | String c s' => if is_ascii_space c then trimStart s' else s
  end.

Fixpoint trimEnd (s : string) : string :=
  match s with
  | EmptyString => EmptyString
  | String c s' =>
      let t := trimEnd s' in
      if String.eqb t "" && is_ascii_space c then EmptyString else String c t
  end.

Definition lowerChar (c : ascii) : ascii :=
  let n := nat_of_ascii c in
  if ((65 <=? n) && (n <=? 90))%nat then ascii_of_nat (n + 32) else c.

Fixpoint mapString (f : ascii -> ascii) (s : string) : string :=
  match s with
  | EmptyString => EmptyString
  | String c s' => String (f c) (mapString f s')
  end.

Fixpoint dropDiacritics (s : string) : string :=
  match s with
  | EmptyString => EmptyString
  | String c s' =>
      let n := nat_of_ascii c in
      if ((n =? 94) || (n =? 96))%nat then dropDiacritics s'
      else String c (dropDiacritics s')
  end.

#[global] Instance asciiBuiltins : StringBuiltins :=
  {| js_trim := fun s => trimEnd (trimStart s);
     js_toLowerCase := mapString lowerChar;
     js_stripDiacritics := dropDiacritics;
     js_slice_to := fun n s => String.substring 0 n s;
     js_length := String.length |}.

(** ** The room as a transition system

    Everything that can touch a room: an inbound player action, the answer
    of the word bank, the janitor of server.js closing the room, or a timer
    callback. A callback is allowed to fire at
    any time with any captured value, which covers every schedule of the
    real timers. An input is also allowed after a handler ended in
    [Throw], although Node ends the process on an exception nothing
    catches: the rooms the transitions reach include every room of the
    server. *)

Inductive Input : Type :=
| InJoin (sid : string) (data : option JsValue) (hasAck : bool)
| InStart (sid : string) (rnd : nat)
| InMenu (sid : string)
| InRestart (sid : string) (rnd : nat)
| InSubmit (sid : string) (word : JsValue)
| InVote (sid : string) (data : option Id)
| InDisconnect (sid : string)
| InWordSet (ws : list string)
| InJanitor (reason : string)
| InTimer (cb : Callback) (draws : list nat).

Section Machine.
Context `{StringBuiltins}.

Definition step (now : Z) (i : Input) (room : Room) : option (Room * list Effect) :=
  match i with
  | InJoin sid data hasAck => Some (onPlayerJoin sid data hasAck now room)
  | InStart sid rnd => Some (handleGameStart sid now rnd room)
  | InMenu sid => Some (handleGameMenu sid now room)
  | InRestart sid rnd => Some (handleGameRestart sid now rnd room)
  | InSubmit sid word => Some (handleTurnSubmit sid word now room)
  | InVote sid data => Some (onTurnVote sid data now room)
  | InDisconnect sid => Some (handleDisconnect sid now room)
  | InWordSet ws => Some (startNewRound_resume now ws room)
  | InJanitor reason => Some (killRoom reason room)
  | InTimer CbStartNextTurn draws => startNextTurn now draws room
  | InTimer CbEndTurn _ => Some (endTurn now room)
  | InTimer (CbFinalizeTurn eliminated) _ => Some (finalizeTurn now eliminated room)
  | InTimer CbFinalizeVote _ => Some (finalizeVote room)
  | InTimer (CbProceedAfterPopup eliminatedByVote) _ =>
      Some (proceedAfterPopup eliminatedByVote room)
  | InTimer CbGameOver _ => Some (gameOverFire now room)
  | InTimer CbBotSubmit _ => Some (botSubmitFire now room)
  end.

Inductive reachable : Room -> Prop :=
| reachable_init : forall now, reachable (createRoom now)
| reachable_step : forall room now i room' fx,
    reachable room -> step now i room = Some (room', fx) -> reachable room'.
End Machine.

(** The bot invariant: the roster is a Map, and [botId] is [null] or a
    non-empty id that is a key of the roster. *)
Definition botInv (room : Room) : Prop :=
  JsMap.wf (players room) /\
  (botId room = None \/
   (truthy_str (botId room) = true /\ JsMap.has (botId room) (players room) = true)).

(** A sample roster and room for the scenarios. *)
Definition mkAlive (n : string) (s : Z) : Player :=
  {| name := n; score := s; alive := true; online := true |}.

Definition mkDead (n : string) (s : Z) : Player :=
  {| name := n; score := s; alive := false; online := true |}.

Definition roomWith (ps : list (Id * Player)) : Room :=
  set_gameActive true (set_players ps (createRoom 0)).

(** ** Reference forms used by the statements *)

(** Linear interpolation over one range, as the usual formula: the
    fraction of the range covered, times the total drop. *)
Definition linearAt (r : LevelRange) (level : Z) : Q :=
  if end_ r =? start r then endSec r
  else
    (startSec r
     - (inject_Z (level - start r) / inject_Z (end_ r - start r))
       * (startSec r - endSec r))%Q.

(** The ranges are listed by increasing level. *)
Fixpoint rangesOrdered (ranges : list LevelRange) : bool :=
  match ranges with
  | [] => true
  | r :: rest =>
      (start r <=? end_ r)
      && match rest with
         | [] => true
         | r' :: _ => end_ r <=? start r'
         end
      && rangesOrdered rest
  end.

(** The speed award as the spec words it:
    [clamp(10 - floor(elapsed_fraction * 10), 1, 10)] with
    [elapsed_fraction = elapsed / turn_duration]. *)
Definition elapsedFraction (elapsed dur : Z) : Q :=
  (inject_Z elapsed / inject_Z dur)%Q.

Definition clamp (x lo hi : Z) : Z := Z.max lo (Z.min hi x).

Definition clampScore (elapsed dur : Z) : Z :=
  clamp (10 - Qfloor (elapsedFraction elapsed dur * 10)%Q) 1 10.

(** A turn in progress: three alive players, the turn started at instant
    1000 and lasts 10 s. *)
Definition turnRoom (subs : list (Id * string)) (times : list (Id * Z)) : Room :=
  set_submissionTimes times
    (set_submissions subs
      (set_currentTurnDuration (Some 10000)
        (set_turnStartedAt (Some 1000)
          (set_accepting true
            (set_level 1
              (set_turn 1
                (roomWith [(Some "a", mkAlive "Ana" 0);
                           (Some "b", mkAlive "Bob" 0);
                           (Some "c", mkAlive "Cy" 0)]))))))).

(** Running a room through a list of timed inputs; the effects returned
    are those of the last step. *)
Fixpoint run `{StringBuiltins} (ins : list (Z * Input)) (room : Room)
  : option (Room * list Effect) :=
  match ins with
  | [] => Some (room, [])
  | (now, i) :: rest =>
      match step now i room with
      | Some (room', fx) =>
          match rest with
          | [] => Some (room', fx)
          | _ => run rest room'
          end
      | None => None
      end
  end.

(** The winner announced by a [round:end] message among the effects. *)
Fixpoint roundWinner (fx : list Effect) : option (option (Id * string)) :=
  match fx with
  | [] => None
  | Emit _ (EvRoundEnd w _) :: _ => Some w
  | _ :: rest => roundWinner rest
  end.

(** The first entry of a roster that no entry outscores: its score is
    strictly above the score of every entry before it and at least the
    score of every entry after it. *)
Definition firstTop (ps : list (Id * Player)) (id : Id) (p : Player) : Prop :=
  exists pre post,
    ps = pre ++ (id, p) :: post
    /\ (forall e, In e pre -> score (snd e) < score p)
    /\ (forall e, In e post -> score (snd e) <= score p).

(** A vote about to be resolved at level 2: Ana is out with 9 points, Bob
    is the only player alive, with 2 points, and nobody was voted against. *)
Definition lastStanding : Room :=
  set_votingActive true
    (set_level 2
       (roomWith [(Some "a", mkDead "Ana" 9); (Some "b", mkAlive "Bob" 2)])).

(** The majority threshold as the spec words it: [floor(n / 2) + 1] for [n]
    alive players other than the target. *)
Definition majorityThreshold (n : Z) : Z := n / 2 + 1.

Definition othersAlive (room : Room) (target : Id) : Z :=
  Z.of_nat
    (List.length
       (filter (fun e => alive (snd e) && negb (eqb (fst e) target)) (players room))).

(** Vote resolution to its end: [finalizeVote], then the popup callback it
    armed, if any. *)
Fixpoint pendingProceed (fx : list Effect) : option (list Id) :=
  match fx with
  | [] => None
  | SetTimeout (CbProceedAfterPopup elim) _ :: _ => Some elim
  | _ :: rest => pendingProceed rest
  end.

Definition voteResolution (room : Room) : Room :=
  let '(room1, fx) := finalizeVote room in
  match pendingProceed fx with
  | Some elim => fst (proceedAfterPopup elim room1)
  | None => room1
  end.

(** A room in its voting phase: five players are alive, each submitted a
    word of their own, and no ballot is cast yet. Bob and Cy then vote
    against Ana, and Dan and Eve leave before the vote ends. *)
Definition fiveVoting : Room :=
  set_votingActive true
    (set_votes [(Some "a", []); (Some "b", []); (Some "c", []); (Some "d", []);
                (Some "e", [])]
      (set_usedWords ["mario"; "zelda"; "tetris"; "doom"; "pong"]
        (set_submissions [(Some "a", "mario"); (Some "b", "zelda"); (Some "c", "tetris");
                          (Some "d", "doom"); (Some "e", "pong")]
          (set_level 1
            (set_turn 1
              (roomWith [(Some "a", mkAlive "Ana" 9); (Some "b", mkAlive "Bob" 8);
                         (Some "c", mkAlive "Cy" 7); (Some "d", mkAlive "Dan" 6);
                         (Some "e", mkAlive "Eve" 5)])))))).

Definition twoBallotsTwoLeave : list (Z * Input) :=
  [ (10700, InVote "b" (Some (Some "a")));
    (10800, InVote "c" (Some (Some "a")));
    (11000, InDisconnect "d");
    (11100, InDisconnect "e") ].

(** A room in its voting phase: three alive players who all submitted,
    with the ballots given. *)
Definition votingRoom (ballots : list (Id * list Id)) : Room :=
  set_votingActive true
    (set_votes ballots
      (set_usedWords ["chat"; "chien"; "loup"]
        (set_accepting false
          (turnRoom [(Some "a", "chat"); (Some "b", "chien"); (Some "c", "loup")]
                    [(Some "a", 2000); (Some "b", 3000); (Some "c", 4000)])))).

(** The ballots cast so far against a target. *)
Definition ballotsOf (room : Room) (target : Id) : list Id :=
  match JsMap.get target (votes room) with
  | Some v => v
  | None => []
  end.

(** The submitters of a word, in submission order. *)
Definition idsOf (w : string) (subs : list (Id * string)) : list Id :=
  map fst (filter (fun e => String.eqb (snd e) w) subs).

(** Turn resolution to its end: [endTurn], then the [finalizeTurn] callback
    it armed (at instant [later]), if any. *)
Fixpoint pendingFinalizeTurn (fx : list Effect) : option (list Id) :=
  match fx with
  | [] => None
  | SetTimeout (CbFinalizeTurn elim) _ :: _ => Some elim
  | _ :: rest => pendingFinalizeTurn rest
  end.

Definition turnResolution (now later : Z) (room : Room) : Room :=
  let '(room1, fx) := endTurn now room in
  match pendingFinalizeTurn fx with
  | Some elim => fst (finalizeTurn later elim room1)
  | None => room1
  end.

(** What the frequency table of [endTurn] holds once the submissions
    [processed] went in: each submitted word with its submitters. *)
Definition freqInv (freq : list (string * list Id)) (processed : list (Id * string)) : Prop :=
  JsMap.wf freq /\
  forall w, JsMap.get w freq
            = match idsOf w processed with [] => None | ids => Some ids end.

(** The turn of the scenario: Ana and Bob submit "chat", Cy submits
    "chien". *)
Definition chatChienRoom : Room :=
  turnRoom [(Some "a", "chat"); (Some "b", "chat"); (Some "c", "chien")]
           [(Some "a", 2000); (Some "b", 3000); (Some "c", 4000)].

(** A turn of level 10 with a word bank, a used word and a punished
    letter. *)
Definition bankRoom : Room :=
  set_punishedLetters ["z"]
    (set_wordSet ["chat"; "chien"; "loup"; "zebu"]
      (set_usedWords ["chien"]
        (set_level 10 (turnRoom [] [])))).

(** A lobby with one human, its host. *)
Definition soloLobby : Room :=
  set_hostId (Some "a") (set_players [(Some "a", mkDead "Ana" 0)] (createRoom 0)).

(** A lobby whose host entry is offline and whose [botId] names no roster
    entry: the only kind of room on which the count after injection stays
    below two. *)
Definition strandedLobby : Room :=
  set_botId (Some "bot-7")
    (set_hostId (Some "a")
      (set_players [(Some "a", set_online false (mkDead "Ana" 0))] (createRoom 0))).

(** Two rooms with the same roster keys and the same bot id. *)
Definition sameRoster (r r' : Room) : Prop :=
  JsMap.keys (players r') = JsMap.keys (players r) /\ botId r' = botId r.

(** The room after one player joined and started a game alone. *)
Definition soloStarted : Room :=
  fst (handleGameStart "a" 1000 2
         (fst (handlePlayerJoin "a" (JsString "Ana") true 10 (createRoom 0)))).

(** The book-keeping invariant: submissions and ballots are Maps, and no
    submission is the empty word. *)
Definition booksInv (room : Room) : Prop :=
  JsMap.wf (submissions room)
  /\ JsMap.wf (votes room)
  /\ (forall k w, In (k, w) (submissions room) -> w <> "").

(** * More of the code

    ** wordUtils.js: file keys and name variants *)

Definition isKeyChar (c : ascii) : bool :=
  let n := nat_of_ascii c in
  ((97 <=? n) && (n <=? 122) || (48 <=? n) && (n <=? 57))%nat.

Definition underscore : ascii := ascii_of_nat 95.

(** [.replace(/[^a-z0-9]+/g, "_")]: each maximal run of other characters
    becomes one underscore; [inRun] tells that the run has begun. A character
    outside ASCII is never in [a-z0-9], so the runs are the same on bytes as
    on code points. *)
Fixpoint collapseRuns (inRun : bool) (s : string) : string :=
  match s with
  | EmptyString => EmptyString
  | String c s' =>
      if isKeyChar c then String c (collapseRuns false s')
      else if inRun then collapseRuns true s'
      else String underscore (collapseRuns true s')
  end.

(** [.replace(/^_+|_+$/g, "")] *)
Fixpoint dropLeading (s : string) : string :=
  match s with
  | EmptyString => EmptyString
  | String c s' => if Ascii.eqb c underscore then dropLeading s' else s
  end.

Fixpoint dropTrailing (s : string) : string :=
  match s with
  | EmptyString => EmptyString
  | String c s' =>
      let t := dropTrailing s' in
      if String.eqb t "" && Ascii.eqb c underscore then EmptyString else String c t
  end.

Section KeyUtils.
Context `{StringBuiltins}.

Definition normalizeKey (s : JsValue) : string :=
  if negb (truthy s) then ""
  else
    dropTrailing
      (dropLeading
         (collapseRuns false (js_stripDiacritics (js_toLowerCase (js_String s))))).
End KeyUtils.

(** [norm.endsWith(c)] for a one-character [c], and [norm.slice(0, -1)]. *)
Fixpoint endsWithChar (c : ascii) (s : string) : bool :=
  match s with
  | EmptyString => false
  | String a EmptyString => Ascii.eqb a c
  | String _ s' => endsWithChar c s'
  end.

Fixpoint dropLast (s : string) : string :=
  match s with
  | EmptyString => EmptyString
  | String _ EmptyString => EmptyString
  | String a s' => String a (dropLast s')
  end.

Definition nameVariants (norm : string) : list string :=
  let v0 := [norm] in
  let v1 :=
    if endsWithChar "s" norm then JsSet.add (dropLast norm) v0
    else JsSet.add (norm ++ "s")%string v0 in
  let v2 := if endsWithChar "x" norm then JsSet.add (dropLast norm) v1 else v1 in
  if negb (endsWithChar "x" norm) then JsSet.add (norm ++ "x")%string v2 else v2.

(** What a key is made of. *)
Fixpoint allChars (P : ascii -> bool) (s : string) : bool :=
  match s with
  | EmptyString => true
  | String c s' => P c && allChars P s'
  end.

Definition isKeyOrUnderscore (c : ascii) : bool := isKeyChar c || Ascii.eqb c underscore.

Definition startsWithUnderscore (s : string) : bool :=
  match s with
  | String c _ => Ascii.eqb c underscore
  | EmptyString => false
  end.

Fixpoint hasDoubleUnderscore (s : string) : bool :=
  match s with
  | String a ((String b _) as s') =>
      (Ascii.eqb a underscore && Ascii.eqb b underscore) || hasDoubleUnderscore s'
  | _ => false
  end.

(** ** timers.js: the default table in closed form

    The turn duration of the default table, in 45ths of a second. *)
Definition duration45 (level : Z) : Z :=
  if level <? 1 then 450
  else if level <=? 10 then 5 * (92 - 2 * level)
  else if level <=? 20 then 9 * (60 - 2 * level)
  else 180.

(** The turn of [bankRoom] played by one human and the bot. *)
Definition botRoom : Room :=
  set_botId (Some "bot-30")
    (set_players [(Some "a", mkAlive "Ana" 0); (Some "bot-30", mkAlive "Bot" 0)]
       bankRoom).

(** ** gameLogic.js: the scoreboard *)

(** The scoreboard of a [game:end] message among the effects. *)
Fixpoint scoreboardOf (fx : list Effect) : option (list (Id * string * Z * bool)) :=
  match fx with
  | [] => None
  | Emit _ (EvGameEnd _ _ scores) :: _ => Some scores
  | _ :: rest => scoreboardOf rest
  end.

Definition rowScore (row : Id * string * Z * bool) : Z := snd (fst row).

Definition rowId (row : Id * string * Z * bool) : Id := fst (fst (fst row)).

Fixpoint descending (rows : list (Id * string * Z * bool)) : bool :=
  match rows with
  | a :: ((b :: _) as rest) => (rowScore b <=? rowScore a) && descending rest
  | _ => true
  end.

(** What [endRound] does to one roster entry: three points to the winner,
    one to a player still alive, and nobody stays alive. *)
Definition afterRound (winnerId : Id) (k : Id) (p : Player) : Player :=
  {| name := name p;
     score := score p
              + (if truthy_str winnerId && eqb k winnerId then 3 else 0)
              + (if alive p then 1 else 0);
     alive := false;
     online := online p |}.

(** ** Frames of the transitions *)

(** The game counters are the same in two rooms. *)
Definition sameCounters (r r' : Room) : Prop :=
  level r' = level r /\ round r' = round r.

(** No roster entry is lost and no score goes down. *)
Definition scoresGrow (ps ps' : list (Id * Player)) : Prop :=
  forall k p, JsMap.get k ps = Some p ->
              exists p', JsMap.get k ps' = Some p' /\ score p <= score p'.

(** The inputs that can add or replace roster entries. *)
Definition rosterInput (i : Input) : bool :=
  match i with
  | InJoin _ _ _ | InStart _ _ | InRestart _ _ | InDisconnect _ => true
  | _ => false
  end.


(** The room after each of the three steps of [handleDisconnect]: the
    leaver marked offline, the host seat reassigned, the bot called in. *)
Definition leaverMarked (sid : string) (room : Room) : Room :=
  set_players
    (JsMap.update (Some sid) (fun p => set_alive false (set_online false p)) (players room))
    room.

Definition hostReassigned (sid : string) (room : Room) : Room :=
  if eqb (Some sid) (hostId room)
  then set_hostId (firstOnline (leaverMarked sid room)) (leaverMarked sid room)
  else leaverMarked sid room.

Definition botCalledIn (sid : string) (now : Z) (room : Room) : Room :=
  if gameActive (hostReassigned sid room) then
    if humanOnline (hostReassigned sid room) <? 2 then addBot now (hostReassigned sid room)
    else hostReassigned sid room
  else hostReassigned sid room.

(** The five named slots of [room.timers]. *)
Definition timerSlots (t : Timers) : list (option Callback) :=
  [nextTurn t; endTurn_t t; newRound t; voteEnd t; botSubmit t].

(** ** messages.js: CONFIG; server.js: the janitor *)

Definition ROOM_MAX_AGE_MS : Z := 6 * 60 * 60 * 1000.
Definition ROOM_IDLE_MS : Z := 20 * 60 * 1000.

(** The test of the janitor on one room: [None] when the room stays,
    the reason handed to [killRoom] otherwise. *)
Definition janitorVerdict (now : Z) (room : Room) : option string :=
  let tooOld := ROOM_MAX_AGE_MS <? now - createdAt room in
  let tooIdle := ROOM_IDLE_MS <? now - lastActivity room in
  if (onlineCount room =? 0) || tooOld || tooIdle
  then Some (if tooOld then "max_age" else if tooIdle then "idle" else "empty")
  else None.

(** One run of the janitor over the registry [rooms] (a Map from room code
    to room): the registry left and, per closed room, what [killRoom]
    emits. *)
Definition janitor (now : Z) (rooms : list (string * Room))
  : list (string * Room) * list (string * list Effect) :=
  fold_left
    (fun acc e =>
       match janitorVerdict now (snd e) with
       | Some reason =>
           (JsMap.delete (fst e) (fst acc),
            snd acc ++ [(fst e, snd (killRoom reason (snd e)))])
       | None => acc
       end)
    rooms (rooms, []).

Definition stays (now : Z) (e : string * Room) : bool :=
  match janitorVerdict now (snd e) with Some _ => false | None => true end.

Definition closing (now : Z) (e : string * Room) : list (string * list Effect) :=
  match janitorVerdict now (snd e) with
  | Some reason => [(fst e, snd (killRoom reason (snd e)))]
  | None => []
  end.

(** ** wordBank.js

    File names and file contents are strings of bytes (UTF-8); the
    characters the code looks for (line feed, carriage return, [#], [.],
    [t], [x]) are ASCII, so they occur in the bytes exactly where they occur
    in the text. *)

Definition LF : ascii := ascii_of_nat 10.
Definition CR : ascii := ascii_of_nat 13.
Definition hash : ascii := ascii_of_nat 35.
Definition dot : ascii := ascii_of_nat 46.

Definition consLine (c : ascii) (l : list string) : list string :=
  match l with
  | x :: xs => String c x :: xs
  | [] => [String c EmptyString]
  end.

(** [text.split(/\r?\n/)] *)
Fixpoint splitLines (s : string) : list string :=
  match s with
  | EmptyString => [EmptyString]
  | String c s' =>
      if Ascii.eqb c LF then EmptyString :: splitLines s'
      else
        match s' with
        | String c' s'' =>
            if Ascii.eqb c CR && Ascii.eqb c' LF then EmptyString :: splitLines s''
            else consLine c (splitLines s')
        | EmptyString => consLine c (splitLines s')
        end
  end.

(** [raw.split("#")[0]] *)
Fixpoint beforeHash (s : string) : string :=
  match s with
  | EmptyString => EmptyString
  | String c s' => if Ascii.eqb c hash then EmptyString else String c (beforeHash s')
  end.

(** [/\.txt$/i.test(f)] *)
Definition isDotTxt (s : string) : bool :=
  match s with
  | String d (String a (String b (String c EmptyString))) =>
      Ascii.eqb d dot
      && (Ascii.eqb a "t" || Ascii.eqb a "T")
      && (Ascii.eqb b "x" || Ascii.eqb b "X")
      && (Ascii.eqb c "t" || Ascii.eqb c "T")
  | _ => false
  end.

Fixpoint isTxt (f : string) : bool :=
  isDotTxt f
  || match f with
     | EmptyString => false
     | String _ f' => isTxt f'
     end.

(** [file.replace(/\.[^.]+$/, "")]: the last dot and what follows it are
    dropped when something follows it. *)
Definition isExtension (s : string) : bool :=
  match s with
  | String d ((String _ _) as rest) =>
      Ascii.eqb d dot && allChars (fun c => negb (Ascii.eqb c dot)) rest
  | _ => false
  end.

Fixpoint stripExt (f : string) : string :=
  if isExtension f then EmptyString
  else match f with
       | EmptyString => EmptyString
       | String c f' => String c (stripExt f')
       end.

(** What the word bank sees of the disk: the listing of the data directory
    ([None] when [readdir] fails), whether [global.txt] can be accessed, and
    the content of each file of the directory ([None] when the read
    fails). A path into the directory is given by the file name. *)
Record FileSystem : Type := mkFileSystem {
  readdir : option (list string);
  access_global : bool;
  readFile : string -> option string;
}.

Section WordBank.
Context `{StringBuiltins}.

Definition exactMatch (variants : list string) (file : string) : bool :=
  existsb (String.eqb (normalizeKey (JsString (stripExt file)))) variants.

Definition partialMatch (variants : list string) (file : string) : bool :=
  let normBase := normalizeKey (JsString (stripExt file)) in
  existsb (fun v => String.prefix v normBase || String.prefix normBase v) variants.

Definition resolveDatasetPath (listing : option (list string)) (theme : JsValue)
  : option string :=
  let targetKey := normalizeKey theme in
  let variants := nameVariants targetKey in
  match listing with
  | None => None
  | Some files =>
      let txtFiles := filter isTxt files in
      match find (exactMatch variants) txtFiles with
      | Some file => Some file
      | None => find (partialMatch variants) txtFiles
      end
  end.

(** One turn of the reading loop: [text += t] and the final line feed. *)
Definition appendFile (read : string -> option string) (text f : string) : string :=
  match read f with
  | Some t =>
      let text1 := (text ++ t)%string in
      if endsWithChar LF text1 then text1 else (text1 ++ String LF EmptyString)%string
  | None => text
  end.

(** One turn of the parsing loop. *)
Definition addLine (set : list string) (raw : string) : list string :=
  let line := js_trim (beforeHash raw) in
  if String.eqb line "" then set else JsSet.add (normalizeWord (JsString line)) set.

Definition parseBank (text : string) : list string :=
  if String.eqb text "" then [] else fold_left addLine (splitLines text) [].

(** The cache is the Map [wordBankCache]; the result is the new cache and
    the Set answered. *)
Definition loadWordSetForTheme (fs : FileSystem) (cache : list (string * list string))
  (theme : JsValue) : list (string * list string) * list string :=
  let key := normalizeKey theme in
  match JsMap.get key cache with
  | Some set => (cache, set)
  | None =>
      let filesToLoad :=
        (match resolveDatasetPath (readdir fs) theme with
         | Some themeFile => [themeFile]
         | None => []
         end)
        ++ (if access_global fs then ["global.txt"%string] else []) in
      let text := fold_left (appendFile (readFile fs)) filesToLoad EmptyString in
      let set := parseBank text in
      (JsMap.set key set cache, set)
  end.
End WordBank.

(** A small data directory for the scenarios. *)
Definition sampleDisk : FileSystem :=
  {| readdir := Some ["README.md"; "couleurs.TXT"; "pays.txt"]%string;
     access_global := true;
     readFile := fun f =>
       if String.eqb f "couleurs.TXT"
       then Some ("Rouge # primaire" ++ String CR (String LF "bleu"))%string
       else if String.eqb f "global.txt"
       then Some ("# secours" ++ String LF ("rouge" ++ String LF ""))%string
       else None |}.

(** The lines of a text put back together with line feeds. *)
Fixpoint joinLines (l : list string) : string :=
  match l with
  | [] => EmptyString
  | [x] => x
  | x :: rest => (x ++ String LF (joinLines rest))%string
  end.

(** The character [c] does not occur in [s]. *)
Definition lacks (c : ascii) (s : string) : bool :=
  allChars (fun a => negb (Ascii.eqb a c)) s.

(** The [messages] array of [endTurn]. *)
Definition turnMessages (room : Room) : list string :=
  (if JsMap.size (submissions room) =? 0 then [MSG_noSubmission] else [])
  ++ (match duplicateIds room with
      | [] => []
      | _ => [MSG_duplicate (dedup (map (nameOf room) (duplicateIds room)))]
      end).

(** No entry of a roster has a negative score. *)
Definition scoresOK (ps : list (Id * Player)) : Prop :=
  forall k p, In (k, p) ps -> 0 <= score p.

(** The different letters a list of draws names. *)
Definition distinctLetters (draws : list nat) : list string :=
  nodup string_dec (map letterOfDraw draws).

(** A one-character string whose character is one of [a] ... [z]. *)
Definition isLowercaseLetter (l : string) : Prop :=
  exists c, l = String c EmptyString /\ (97 <= nat_of_ascii c <= 122)%nat.
(** * Properties *)

(** ** Containers *)

#[global] Instance string_EqbSpec : EqbSpec string.
Proof. intros a b. apply String.eqb_eq. Qed.

#[global] Instance Id_EqbSpec : EqbSpec Id.
Proof.
  intros [a|] [b|]; unfold eqb, Id_Eqb; simpl.
  - rewrite String.eqb_eq. split; congruence.
  - split; discriminate.
  - split; discriminate.
  - split; reflexivity.
Qed.

Section EqbFacts.
Context {K : Type} `{EqbSpec K}.

Lemma eqb_refl (a : K) : eqb a a = true.
Proof. now apply eqb_iff. Qed.

Lemma eqb_false_iff (a b : K) : eqb a b = false <-> a <> b.
Proof.
  destruct (eqb a b) eqn:E.
  - apply eqb_iff in E. split; [discriminate | congruence].
  - split; [| reflexivity]. intros _ Hab. apply eqb_iff in Hab. congruence.
Qed.

Lemma eqb_sym (a b : K) : eqb a b = eqb b a.
Proof.
  destruct (eqb a b) eqn:E.
  - apply eqb_iff in E. subst. symmetry. apply eqb_refl.
  - apply eqb_false_iff in E. symmetry. apply eqb_false_iff. congruence.
Qed.
End EqbFacts.

Ltac eqb_case a b :=
  let E := fresh "E" in
  destruct (eqb a b) eqn:E;
  [apply eqb_iff in E | apply eqb_false_iff in E].

Module JsMapFacts.
Import JsMap.
Section Facts.
Context {K V : Type} `{EqbSpec K}.
Implicit Types (m : list (K * V)) (k : K) (v : V).

Lemma has_In k m : has k m = true <-> In k (keys m).
Proof.
  unfold has. induction m as [|[k' v'] m IH]; simpl.
  - split; [discriminate | tauto].
  - eqb_case k' k.
    + split; auto.
    + rewrite IH. split; [auto | intros [?|?]; [congruence | assumption]].
Qed.

Lemma has_false k m : has k m = false <-> ~ In k (keys m).
Proof.
  rewrite <- has_In. destruct (has k m); split; congruence.
Qed.

Lemma get_Some_In k v m : get k m = Some v -> In (k, v) m.
Proof.
  induction m as [|[k' v'] m IH]; simpl; [discriminate|].
  eqb_case k' k.
  - intros [= ->]. subst. now left.
  - auto.
Qed.

Lemma In_get k v m : wf m -> In (k, v) m -> get k m = Some v.
Proof.
  unfold wf. induction m as [|[k' v'] m IH]; simpl; [tauto|].
  intros Hnd [Heq | Hin].
  - inversion Heq; subst. now rewrite eqb_refl.
  - inversion Hnd as [|? ? Hnotin Hnd']; subst.
    eqb_case k' k.
    + subst. exfalso. apply Hnotin. change (In (fst (k, v)) (map fst m)).
      now apply in_map.
    + auto.
Qed.

Lemma get_set_same k v m : get k (set k v m) = Some v.
Proof.
  induction m as [|[k' v'] m IH]; simpl.
  - now rewrite eqb_refl.
  - destruct (eqb k' k) eqn:E; simpl; rewrite E; auto.
Qed.

Lemma get_set_other k k' v m : k <> k' -> get k' (set k v m) = get k' m.
Proof.
  intros Hne. induction m as [|[k0 v0] m IH]; simpl.
  - eqb_case k k'; [congruence | reflexivity].
  - eqb_case k0 k; simpl.
    + subst. eqb_case k k'; [congruence | reflexivity].
    + now rewrite IH.
Qed.

Lemma keys_set k v m :
  keys (set k v m) = if has k m then keys m else keys m ++ [k].
Proof.
  unfold has. induction m as [|[k' v'] m IH]; simpl; [reflexivity|].
  destruct (eqb k' k) eqn:E; simpl; [reflexivity|].
  rewrite IH. now destruct (get k m).
Qed.

Lemma wf_set k v m : wf m -> wf (set k v m).
Proof.
  unfold wf. intros Hnd. rewrite keys_set.
  destruct (has k m) eqn:E; [assumption|].
  apply has_false in E.
  apply NoDup_app; auto.
  - constructor; [simpl; tauto | constructor].
  - intros x Hx [<- | []]. contradiction.
Qed.

Lemma keys_update k f m : keys (update k f m) = keys m.
Proof.
  induction m as [|[k' v'] m IH]; simpl; [reflexivity|].
  destruct (eqb k' k); simpl; [reflexivity | now rewrite IH].
Qed.

Lemma wf_update k f m : wf m -> wf (update k f m).
Proof. unfold wf. now rewrite keys_update. Qed.

Lemma get_update_same k f m : get k (update k f m) = option_map f (get k m).
Proof.
  induction m as [|[k' v'] m IH]; simpl; [reflexivity|].
  destruct (eqb k' k) eqn:E; simpl; rewrite E; auto.
Qed.

Lemma get_update_other k k' f m : k <> k' -> get k' (update k f m) = get k' m.
Proof.
  intros Hne. induction m as [|[k0 v0] m IH]; simpl; [reflexivity|].
  eqb_case k0 k; simpl.
  - subst. eqb_case k k'; [congruence | reflexivity].
  - now rewrite IH.
Qed.

Lemma has_update k k' f m : has k' (update k f m) = has k' m.
Proof.
  destruct (has k' m) eqn:E.
  - apply has_In. rewrite keys_update. now apply has_In.
  - apply has_false. rewrite keys_update. now apply has_false.
Qed.

Lemma keys_delete_incl k m : incl (keys (delete k m)) (keys m).
Proof.
  induction m as [|[k' v'] m IH]; simpl; [apply incl_refl|].
  destruct (eqb k' k); simpl.
  - apply incl_tl, incl_refl.
  - intros x [<-|Hx]; [now left | right; now apply IH].
Qed.

Lemma wf_delete k m : wf m -> wf (delete k m).
Proof.
  unfold wf. induction m as [|[k' v'] m IH]; simpl; [auto|].
  intros Hnd. inversion Hnd as [|? ? Hnotin Hnd']; subst.
  destruct (eqb k' k); simpl; [assumption|].
  constructor; [| auto].
  intros Hin. apply Hnotin. now apply (keys_delete_incl k m).
Qed.

Lemma has_delete_same k m : wf m -> has k (delete k m) = false.
Proof.
  unfold wf. intros Hnd. apply has_false.
  induction m as [|[k' v'] m IH]; simpl; [tauto|].
  simpl in Hnd. inversion Hnd as [|? ? Hnotin Hnd']; subst.
  eqb_case k' k.
  - subst. assumption.
  - simpl. intros [?|?]; [congruence | now apply IH].
Qed.

Lemma has_delete_other k k' m : k <> k' -> has k' (delete k m) = has k' m.
Proof.
  intros Hne. unfold has.
  induction m as [|[k0 v0] m IH]; simpl; [reflexivity|].
  eqb_case k0 k; simpl.
  - subst. eqb_case k k'; [congruence | reflexivity].
  - destruct (eqb k0 k'); auto.
Qed.

Lemma count_key_notin k m : ~ In k (keys m) -> count_key k m = 0%nat.
Proof.
  unfold count_key. induction m as [|[k' v'] m IH]; simpl; [reflexivity|].
  intros Hn. eqb_case k' k.
  - subst. tauto.
  - apply IH. tauto.
Qed.

Lemma count_key_wf k m : wf m -> has k m = true -> count_key k m = 1%nat.
Proof.
  unfold wf. intros Hnd Hin. apply has_In in Hin.
  induction m as [|[k' v'] m IH]; simpl in *; [tauto|].
  inversion Hnd as [|? ? Hnotin Hnd']; subst.
  unfold count_key. simpl. eqb_case k' k.
  - subst. simpl. f_equal. now apply count_key_notin.
  - destruct Hin as [?|Hin]; [congruence|]. now apply IH.
Qed.

Lemma keys_map_values (f : K * V -> V) m :
  keys (map (fun e => (fst e, f e)) m) = keys m.
Proof.
  unfold keys. rewrite map_map. now apply map_ext.
Qed.
End Facts.
End JsMapFacts.

Module JsSetFacts.
Import JsSet.
Section Facts.
Context {K : Type} `{EqbSpec K}.
Implicit Types (s : list K) (x y : K).

Lemma mem_In x s : has x s = true <-> In x s.
Proof.
  unfold has. rewrite existsb_exists. split.
  - intros [y [Hy E]]. apply eqb_iff in E. now subst.
  - intros Hx. exists x. split; [assumption | apply eqb_refl].
Qed.

Lemma In_add x y s : In y (add x s) <-> y = x \/ In y s.
Proof.
  unfold add. destruct (has x s) eqn:E.
  - apply mem_In in E. split; [auto | intros [->|?]; assumption].
  - rewrite in_app_iff. simpl. split.
    + intros [?|[<-|[]]]; auto.
    + intros [->|?]; auto.
Qed.

Lemma In_fold_add (l : list K) s y :
  In y (fold_left (fun acc x => add x acc) l s) <-> In y l \/ In y s.
Proof.
  revert s. induction l as [|a l IH]; intros s; simpl.
  - tauto.
  - rewrite IH, In_add. intuition (subst; auto).
Qed.

Lemma NoDup_add x s : NoDup s -> NoDup (add x s).
Proof.
  intros Hnd. unfold add. destruct (has x s) eqn:E; [assumption|].
  apply NoDup_app; auto.
  - constructor; [simpl; tauto | constructor].
  - intros y Hy [<-|[]]. apply mem_In in Hy. congruence.
Qed.

Lemma In_delete x y s : In y (delete x s) <-> In y s /\ y <> x.
Proof.
  unfold delete. rewrite filter_In, negb_true_iff, eqb_false_iff.
  intuition congruence.
Qed.

Lemma mem_delete_same x s : has x (delete x s) = false.
Proof.
  destruct (has x (delete x s)) eqn:E; [|reflexivity].
  apply mem_In, In_delete in E. tauto.
Qed.
End Facts.
End JsSetFacts.

(** ** timers.js: the turn duration *)

Section TurnDuration.
Local Open Scope Q_scope.

Lemma loop_below_first r rest level :
  (level < start r)%Z -> getTurnDuration_loop (r :: rest) level = Some (startSec r).
Proof.
  intros Hlt. simpl. apply Z.ltb_lt in Hlt. now rewrite Hlt.
Qed.

Lemma loop_skip r rest level :
  (start r <= level)%Z -> (end_ r < level)%Z ->
  getTurnDuration_loop (r :: rest) level = getTurnDuration_loop rest level.
Proof.
  intros Hs He. simpl.
  destruct (Z.ltb_spec level (start r)); [lia|].
  destruct (Z.leb_spec level (end_ r)); [lia|].
  now rewrite andb_false_r.
Qed.

Lemma loop_skip_all pre rest level :
  (forall p, In p pre -> (start p <= level)%Z /\ (end_ p < level)%Z) ->
  getTurnDuration_loop (pre ++ rest) level = getTurnDuration_loop rest level.
Proof.
  induction pre as [|p pre IH]; intros Hpre; [reflexivity|].
  rewrite <- app_comm_cons, loop_skip.
  - apply IH. intros q Hq. apply Hpre. now right.
  - apply Hpre. now left.
  - apply Hpre. now left.
Qed.

Lemma loop_inside r rest level :
  (start r <= level <= end_ r)%Z ->
  exists sec, getTurnDuration_loop (r :: rest) level = Some sec /\ sec == linearAt r level.
Proof.
  intros [Hs He]. simpl. unfold linearAt.
  destruct (Z.ltb_spec level (start r)); [lia|].
  destruct (Z.leb_spec (start r) level); [|lia].
  destruct (Z.leb_spec level (end_ r)); [|lia]. simpl.
  destruct (Z.eqb_spec (end_ r - start r) 0) as [E0|E0];
    destruct (Z.eqb_spec (end_ r) (start r)) as [E1|E1]; try lia.
  - eexists. split; [reflexivity | reflexivity].
  - eexists. split; [reflexivity|].
    assert (Hnz : ~ inject_Z (end_ r - start r) == 0).
    { intros Hq. apply E0. unfold Qeq in Hq. simpl in Hq. lia. }
    field. exact Hnz.
Qed.

Lemma ordered_above_last ranges r0 level :
  rangesOrdered ranges = true -> ranges <> [] ->
  (end_ (last ranges r0) < level)%Z ->
  forall p, In p ranges -> (start p <= level)%Z /\ (end_ p < level)%Z.
Proof.
  induction ranges as [|r rest IH]; intros Hord Hne Hlast p Hin; [contradiction|].
  simpl in Hord. apply andb_prop in Hord as [Hord Hrest].
  apply andb_prop in Hord as [Hse Hnext]. apply Z.leb_le in Hse.
  destruct rest as [|r' rest'].
  - simpl in Hlast. destruct Hin as [<-|[]]. split; lia.
  - apply Z.leb_le in Hnext.
    assert (Hr' : forall q, In q (r' :: rest') ->
                            (start q <= level)%Z /\ (end_ q < level)%Z).
    { apply IH; [assumption | discriminate | exact Hlast]. }
    destruct Hin as [<-|Hin]; [|now apply Hr'].
    destruct (Hr' r' (or_introl eq_refl)).
    simpl in Hrest. apply andb_prop in Hrest as [Hrest _].
    apply andb_prop in Hrest as [Hse' _]. apply Z.leb_le in Hse'.
    split; lia.
Qed.

Lemma loop_none ranges level :
  (forall p, In p ranges -> (start p <= level)%Z /\ (end_ p < level)%Z) ->
  getTurnDuration_loop ranges level = None.
Proof.
  intros Hall. rewrite <- (app_nil_r ranges). now rewrite loop_skip_all.
Qed.

Lemma linearAt_step r level :
  (start r < end_ r)%Z ->
  linearAt r (level + 1)
  == linearAt r level - (startSec r - endSec r) / inject_Z (end_ r - start r).
Proof.
  intros Hlt. unfold linearAt.
  destruct (Z.eqb_spec (end_ r) (start r)); [lia|].
  replace (level + 1 - start r)%Z with ((level - start r) + 1)%Z by lia.
  rewrite inject_Z_plus.
  assert (Hnz : ~ inject_Z (end_ r - start r) == 0).
  { intros Hq. unfold Qeq in Hq. simpl in Hq. lia. }
  field. exact Hnz.
Qed.

Lemma slope_nonneg r :
  (start r < end_ r)%Z -> endSec r <= startSec r ->
  0 <= (startSec r - endSec r) / inject_Z (end_ r - start r).
Proof.
  intros Hlt Hle. apply Qle_shift_div_l.
  - unfold Qlt. simpl. lia.
  - rewrite Qmult_0_l. now apply (Qplus_le_r _ _ (endSec r)); ring_simplify.
Qed.
End TurnDuration.

Lemma last_cons_default {A : Type} (x : A) (l : list A) (d d' : A) :
  last (x :: l) d = last (x :: l) d'.
Proof.
  revert x. induction l as [|y l IH]; intros x; [reflexivity|].
  change (last (y :: l) d = last (y :: l) d'). apply IH.
Qed.

(** C2, as the code has it: [getTurnDuration] is the piecewise-linear
    interpolation of the configured ranges. A level below the first range's
    start gets that range's start duration; a level inside a range (the
    first one that holds it) gets the linear interpolation of that range,
    which drops by the same amount at every level and never rises when the
    range's start duration is at least its end duration; with ranges listed
    by increasing level, a level above the last range's end gets the last
    end duration. With the default table, level 1 lasts 10 s, level 10
    lasts 8 s, and level 5 lasts 10 - 4 * (2/9) = 82/9 s (9111 ms once
    rounded), not 9 s. *)
Theorem getTurnDuration_piecewise_linear :
  (forall r rest level,
      level < start r -> getTurnDuration_of (r :: rest) level = startSec r) /\
  (forall pre r post level,
      (forall p, In p pre -> start p <= level /\ end_ p < level) ->
      start r <= level <= end_ r ->
      (getTurnDuration_of (pre ++ r :: post) level == linearAt r level)%Q) /\
  (forall r level,
      start r < end_ r ->
      (linearAt r (level + 1)
       == linearAt r level - (startSec r - endSec r) / inject_Z (end_ r - start r))%Q /\
      ((endSec r <= startSec r)%Q -> (linearAt r (level + 1) <= linearAt r level)%Q)) /\
  (forall ranges r0 level,
      ranges <> [] -> rangesOrdered ranges = true ->
      end_ (last ranges r0) < level ->
      getTurnDuration_of ranges level = endSec (last ranges r0)) /\
  ((getTurnDuration 1 == 10)%Q /\ (getTurnDuration 10 == 8)%Q /\
   (getTurnDuration 5 == 82 # 9)%Q /\
   turnMs_of 1 = 10000 /\ turnMs_of 10 = 8000 /\ turnMs_of 5 = 9111).
Proof.
  split; [|split; [|split; [|split]]].
  - intros r rest level Hlt. unfold getTurnDuration_of.
    now rewrite loop_below_first.
  - intros pre r post level Hpre Hin. unfold getTurnDuration_of.
    rewrite loop_skip_all by exact Hpre.
    destruct (loop_inside r post level Hin) as [sec [Hsec Heq]].
    rewrite Hsec. destruct (pre ++ r :: post) eqn:E.
    + destruct pre; discriminate.
    + exact Heq.
  - intros r level Hlt. split.
    + now apply linearAt_step.
    + intros Hle. rewrite linearAt_step by exact Hlt.
      pose proof (slope_nonneg r Hlt Hle) as Hs.
      apply (Qplus_le_r _ _ ((startSec r - endSec r) / inject_Z (end_ r - start r))).
      ring_simplify.
      rewrite <- (Qplus_0_l (linearAt r level)) at 1.
      apply Qplus_le_compat; [exact Hs | apply Qle_refl].
  - intros ranges r0 level Hne Hord Hlast. unfold getTurnDuration_of.
    destruct ranges as [|r rest]; [congruence|].
    rewrite loop_none.
    + f_equal. apply last_cons_default.
    + now apply (ordered_above_last (r :: rest) r0).
  - repeat split; vm_compute; reflexivity.
Qed.

Lemma getTurnDuration_piecewise_linear_witness :
  (getTurnDuration_of levelRanges 12 == 36 # 5)%Q.
Proof.
  assert (E : (linearAt (mkLevelRange 10 15 8 6) 12 == 36 # 5)%Q)
    by (vm_compute; reflexivity).
  rewrite <- E.
  apply (proj1 (proj2 getTurnDuration_piecewise_linear)
           [mkLevelRange 1 10 10 8] (mkLevelRange 10 15 8 6) [mkLevelRange 15 20 6 4] 12).
  - intros p [<-|[]]. simpl. lia.
  - simpl. lia.
Defined.

(** C2, the scenario as the spec words it: level 5 does not last 9 s. *)
Lemma getTurnDuration_level5_not_9s :
  ~ (getTurnDuration 5 == 9)%Q /\ turnMs_of 5 <> 9000.
Proof.
  split.
  - vm_compute. discriminate.
  - vm_compute. discriminate.
Qed.

(** ** gameLogic.js: the speed score *)

Lemma speedScore_clamp elapsed dur : speedScore elapsed dur = clampScore elapsed dur.
Proof.
  unfold speedScore, clampScore, clamp, elapsedFraction.
  set (s := 10 - Qfloor (inject_Z elapsed / inject_Z dur * 10)%Q).
  destruct (Z.ltb_spec s 1).
  - destruct (Z.ltb_spec 10 1); lia.
  - destruct (Z.ltb_spec 10 s); lia.
Qed.

Lemma floor_fraction elapsed dur :
  0 < dur ->
  Qfloor (elapsedFraction elapsed dur * 10)%Q = (10 * elapsed) / dur.
Proof.
  intros Hdur. rewrite Zdiv_Qdiv. apply Qfloor_comp.
  unfold elapsedFraction. rewrite inject_Z_mult.
  assert (Hnz : ~ (inject_Z dur == 0)%Q).
  { intros Hq. unfold Qeq in Hq. simpl in Hq. lia. }
  field. exact Hnz.
Qed.

Lemma clampScore_range elapsed dur : 1 <= clampScore elapsed dur <= 10.
Proof. unfold clampScore, clamp. lia. Qed.

Lemma clampScore_mono e1 e2 dur :
  0 < dur -> e1 <= e2 -> clampScore e2 dur <= clampScore e1 dur.
Proof.
  intros Hdur Hle. unfold clampScore, clamp.
  rewrite !floor_fraction by exact Hdur.
  assert (10 * e1 / dur <= 10 * e2 / dur) by (apply Z.div_le_mono; lia).
  lia.
Qed.

Section Award.
Import JsMapFacts.
Variables (room : Room) (eliminated : list Id) (t0 dur : Z).

Lemma awardOne_get_other ps sid sid' :
  sid <> sid' ->
  JsMap.get sid' (awardOne room eliminated t0 dur ps sid) = JsMap.get sid' ps.
Proof.
  intros Hne. unfold awardOne.
  destruct (JsSet.has sid eliminated); [reflexivity|].
  destruct (JsMap.get sid (submissionTimes room)) as [ts|]; [|reflexivity].
  destruct (ts =? 0); [reflexivity|].
  now apply get_update_other.
Qed.

Lemma award_get_notin l ps sid :
  ~ In sid l ->
  JsMap.get sid (fold_left (awardOne room eliminated t0 dur) l ps) = JsMap.get sid ps.
Proof.
  revert ps. induction l as [|a l IH]; intros ps Hn; [reflexivity|].
  simpl. rewrite IH by (simpl in Hn; tauto).
  apply awardOne_get_other. simpl in Hn. intros ->. tauto.
Qed.

Lemma award_get_in l ps sid :
  NoDup l -> In sid l ->
  JsMap.get sid (fold_left (awardOne room eliminated t0 dur) l ps)
  = JsMap.get sid (awardOne room eliminated t0 dur ps sid).
Proof.
  revert ps. induction l as [|a l IH]; intros ps Hnd Hin; [contradiction|].
  inversion Hnd as [|? ? Hnotin Hnd']; subst. simpl.
  destruct Hin as [->|Hin].
  - now apply award_get_notin.
  - rewrite IH by assumption.
    assert (Hne : a <> sid) by (intros ->; contradiction).
    unfold awardOne at 1 3.
    destruct (JsSet.has sid eliminated).
    + now apply awardOne_get_other.
    + destruct (JsMap.get sid (submissionTimes room)) as [ts|].
      * destruct (ts =? 0); [now apply awardOne_get_other|].
        rewrite !get_update_same. f_equal. now apply awardOne_get_other.
      * now apply awardOne_get_other.
Qed.
End Award.

(** C6: a submitter who is not disqualified gets, at turn resolution,
    clamp(10 - floor(elapsed_fraction * 10), 1, 10) points, where the
    elapsed fraction is (submission instant - turn start) / turn duration;
    the award lies in 1..10 and does not grow when the submission comes
    later in the turn. *)
Theorem speed_score_awarded :
  forall now eliminated room sid p ts t0 dur,
    JsMap.wf (submissions room) ->
    turnStartedAt room = Some t0 -> t0 <> 0 ->
    currentTurnDuration room = Some dur -> 0 < dur ->
    JsMap.has sid (submissions room) = true ->
    JsSet.has sid eliminated = false ->
    JsMap.get sid (submissionTimes room) = Some ts -> ts <> 0 ->
    JsMap.get sid (players room) = Some p ->
    let award := clampScore (ts - t0) dur in
    JsMap.get sid (players (fst (finalizeTurn now eliminated room)))
    = Some (add_score award p)
    /\ 1 <= award <= 10
    /\ (forall ts', ts <= ts' -> clampScore (ts' - t0) dur <= award).
Proof.
  intros now eliminated room sid p ts t0 dur Hwf Ht0 Hnz0 Hdur Hpos Hsub Helim Hts Htnz Hp award.
  split; [|split].
  - unfold finalizeTurn. cbn [fst]. cbn.
    unfold awardScores. rewrite Ht0, Hdur.
    destruct (Z.eqb_spec t0 0); [contradiction|].
    destruct (Z.eqb_spec dur 0); [lia|]. cbn [negb andb].
    rewrite award_get_in.
    + unfold awardOne. rewrite Helim, Hts.
      destruct (Z.eqb_spec ts 0); [contradiction|].
      rewrite JsMapFacts.get_update_same, Hp. cbn.
      now rewrite speedScore_clamp.
    + exact Hwf.
    + now apply JsMapFacts.has_In.
  - apply clampScore_range.
  - intros ts' Hle. apply clampScore_mono; lia.
Qed.

Lemma speed_score_awarded_witness :
  JsMap.get (Some "a")
    (players (fst (finalizeTurn 12000 []
                     (turnRoom [(Some "a", "chat")] [(Some "a", 4500)]))))
  = Some (mkAlive "Ana" 7).
Proof.
  refine (proj1 (speed_score_awarded 12000 []
                   (turnRoom [(Some "a", "chat")] [(Some "a", 4500)])
                   (Some "a") (mkAlive "Ana" 0) 4500 1000 10000
                   _ _ _ _ _ _ _ _ _ _)).
  - repeat constructor. simpl. tauto.
  - reflexivity.
  - lia.
  - reflexivity.
  - lia.
  - reflexivity.
  - reflexivity.
  - reflexivity.
  - lia.
  - reflexivity.
Defined.

(** ** gameLogic.js: the winner at game over *)

Lemma bestStep_keeps l id m :
  (forall e, In e l -> score (snd e) <= m) ->
  fold_left bestStep l (id, Some m) = (id, Some m).
Proof.
  induction l as [|e l IH]; intros Hle; [reflexivity|].
  simpl. unfold bestStep at 2. cbn [snd fst].
  destruct (Z.ltb_spec m (score (snd e))).
  - specialize (Hle e (or_introl eq_refl)). lia.
  - apply IH. intros e' He'. apply Hle. now right.
Qed.

Lemma bestStep_below l acc sp :
  (snd acc = None \/ exists m, snd acc = Some m /\ m < sp) ->
  (forall e, In e l -> score (snd e) < sp) ->
  let acc' := fold_left bestStep l acc in
  snd acc' = None \/ exists m, snd acc' = Some m /\ m < sp.
Proof.
  revert acc. induction l as [|e l IH]; intros acc Hacc Hlt; [exact Hacc|].
  simpl. apply IH; [| intros e' He'; apply Hlt; now right].
  pose proof (Hlt e (or_introl eq_refl)) as He.
  destruct acc as [k o]. unfold bestStep. cbn [snd fst] in *.
  destruct Hacc as [-> | [m [-> Hm]]].
  - right. eexists. split; [reflexivity | exact He].
  - destruct (Z.ltb_spec m (score (snd e))); cbn [snd].
    + right. eexists. split; [reflexivity | exact He].
    + right. exists m. split; [reflexivity | exact Hm].
Qed.

Lemma bestId_first_top room pre id p post :
  players room = pre ++ (id, p) :: post ->
  (forall e, In e pre -> score (snd e) < score p) ->
  (forall e, In e post -> score (snd e) <= score p) ->
  bestId room = id.
Proof.
  intros Hps Hpre Hpost. unfold bestId. rewrite Hps, fold_left_app. simpl.
  pose proof (bestStep_below pre (None, None) (score p) (or_introl eq_refl) Hpre) as Hacc.
  cbv zeta in Hacc.
  destruct (fold_left bestStep pre (None, None)) as [k o]. cbn [snd] in Hacc.
  unfold bestStep at 2. cbn [snd fst].
  destruct Hacc as [-> | [m [-> Hm]]].
  - now rewrite bestStep_keeps.
  - destruct (Z.ltb_spec m (score p)); [|lia].
    now rewrite bestStep_keeps.
Qed.

Lemma endRound_announces now id p room :
  truthy_str id = true -> JsMap.get id (players room) = Some p ->
  roundWinner (snd (endRound now id room)) = Some (Some (id, name p)).
Proof.
  intros Hid Hget. unfold endRound, JsMap.has. rewrite Hid, Hget. reflexivity.
Qed.

Lemma firstTop_exists (ps : list (Id * Player)) :
  ps <> [] -> exists id p, firstTop ps id p.
Proof.
  induction ps as [|[k q] rest IH]; [congruence|]. intros _.
  destruct rest as [|e rest'].
  - exists k, q, [], []. split; [reflexivity|]. split; intros e [].
  - destruct IH as [id [p [pre [post [Heq [Hpre Hpost]]]]]]; [discriminate|].
    destruct (Z.lt_ge_cases (score q) (score p)) as [Hlt|Hge].
    + exists id, p, ((k, q) :: pre), post. rewrite Heq. split; [reflexivity|].
      split; [|exact Hpost].
      intros e0 [<-|Hin]; [exact Hlt | now apply Hpre].
    + exists k, q, [], (e :: rest'). split; [reflexivity|].
      split; [intros e0 []|].
      intros e0 Hin. rewrite Heq in Hin. apply in_app_or in Hin.
      destruct Hin as [Hin|[<-|Hin]].
      * specialize (Hpre e0 Hin). lia.
      * simpl. lia.
      * specialize (Hpost e0 Hin). lia.
Qed.

Lemma bestId_firstTop room id :
  players room <> [] ->
  (bestId room = id <-> exists p, firstTop (players room) id p).
Proof.
  intros Hne. split.
  - intros <-. destruct (firstTop_exists (players room) Hne)
      as [id [p [pre [post [Heq [Hpre Hpost]]]]]].
    rewrite (bestId_first_top room pre id p post Heq Hpre Hpost).
    exists p, pre, post. auto.
  - intros [p [pre [post [Heq [Hpre Hpost]]]]].
    exact (bestId_first_top room pre id p post Heq Hpre Hpost).
Qed.

Lemma firstTop_In ps id p : firstTop ps id p -> In (id, p) ps.
Proof.
  intros [pre [post [-> _]]]. apply in_or_app. right. now left.
Qed.

Lemma gameOver_announces now room id p :
  JsMap.wf (players room) -> truthy_str id = true ->
  firstTop (players room) id p ->
  roundWinner (snd (gameOverFire now room)) = Some (Some (id, name p)).
Proof.
  intros Hwf Hid Htop.
  assert (Hne : players room <> []).
  { destruct Htop as [pre [post [-> _]]]. now destruct pre. }
  assert (Hbest : bestId room = id) by (apply bestId_firstTop; [exact Hne | now exists p]).
  unfold gameOverFire. rewrite Hbest.
  apply endRound_announces; [exact Hid|].
  apply JsMapFacts.In_get; [exact Hwf | now apply firstTop_In].
Qed.

(** C1, as the code has it: when vote resolution finds the end-of-game
    condition (level >= 20, or at most one player alive) it arms the
    game-over callback, and that callback ends the round with the first
    top scorer of the whole roster, alive or not: the entry whose score is
    strictly above every earlier entry's and at least every later entry's.
    A non-empty roster always has one, a player is the winner exactly when
    they are that entry, and there is no winner exactly on an empty roster;
    so the one player still alive wins exactly when they are the first top
    scorer, not because they survived. *)
Theorem game_over_winner_is_top_scorer :
  (forall elim room,
      let room1 := set_votes [] (fold_left voteOff elim room) in
      (20 <=? level room1) || (List.length (aliveIds room1) <=? 1)%nat = true ->
      snd (proceedAfterPopup elim room)
      = [Emit ToRoom (EvLogMessage MSG_gameOver); SetTimeout CbGameOver gameOverMs]) /\
  (forall now room, gameOverFire now room = endRound now (bestId room) room) /\
  (forall room,
      players room <> [] ->
      exists id p, firstTop (players room) id p /\ bestId room = id) /\
  (forall room id,
      players room <> [] ->
      (bestId room = id <-> exists p, firstTop (players room) id p)) /\
  (forall now room,
      JsMap.wf (players room) ->
      (forall k p, In (k, p) (players room) -> truthy_str k = true) ->
      (roundWinner (snd (gameOverFire now room)) = Some None <-> players room = [])) /\
  (forall now room s p,
      JsMap.wf (players room) ->
      truthy_str s = true ->
      JsMap.get s (players room) = Some p ->
      (roundWinner (snd (gameOverFire now room)) = Some (Some (s, name p))
       <-> firstTop (players room) s p)) /\
  (forall now room s p,
      JsMap.wf (players room) ->
      (forall k q, In (k, q) (players room) -> truthy_str k = true) ->
      aliveIds room = [s] ->
      JsMap.get s (players room) = Some p ->
      (roundWinner (snd (gameOverFire now room)) = Some (Some (s, name p))
       <-> firstTop (players room) s p)).
Proof.
  assert (Hwin : forall now room s p,
             JsMap.wf (players room) -> truthy_str s = true ->
             JsMap.get s (players room) = Some p ->
             (roundWinner (snd (gameOverFire now room)) = Some (Some (s, name p))
              <-> firstTop (players room) s p)).
  { intros now room s p Hwf Hs Hget. split.
    - intros Hw.
      assert (Hne : players room <> []).
      { intros Hnil. rewrite Hnil in Hget. discriminate. }
      destruct (firstTop_exists (players room) Hne) as [id [q Htop]].
      assert (Hbest : bestId room = id)
        by (apply bestId_firstTop; [exact Hne | now exists q]).
      pose proof (firstTop_In _ _ _ Htop) as Hin.
      pose proof (JsMapFacts.In_get id q _ Hwf Hin) as Hq.
      unfold gameOverFire, endRound, JsMap.has in Hw. rewrite Hbest, Hq in Hw.
      destruct (truthy_str id) eqn:Eid; cbn in Hw.
      + injection Hw as -> _. rewrite Hget in Hq. injection Hq as <-. exact Htop.
      + discriminate.
    - now apply gameOver_announces. }
  split; [|split; [|split; [|split; [|split; [|split]]]]].
  - intros elim room room1 Hend. unfold proceedAfterPopup.
    fold room1. now rewrite Hend.
  - reflexivity.
  - intros room Hne. destruct (firstTop_exists (players room) Hne) as [id [p Htop]].
    exists id, p. split; [exact Htop|].
    apply bestId_firstTop; [exact Hne | now exists p].
  - exact bestId_firstTop.
  - intros now room Hwf Hkeys. split.
    + intros Hw. destruct (players room) as [|e rest] eqn:Eps; [reflexivity|].
      exfalso. rewrite <- Eps in Hwf, Hkeys.
      assert (Hne : players room <> []) by (rewrite Eps; discriminate).
      destruct (firstTop_exists (players room) Hne) as [id [p Htop]].
      pose proof (firstTop_In _ _ _ Htop) as Hin.
      rewrite (gameOver_announces now room id p Hwf (Hkeys id p Hin) Htop) in Hw.
      discriminate.
    + intros Hnil. unfold gameOverFire, bestId, endRound, JsMap.has.
      rewrite Hnil. reflexivity.
  - exact Hwin.
  - intros now room s p Hwf Hkeys Halive Hget.
    apply Hwin; [exact Hwf | | exact Hget].
    apply (Hkeys s p). now apply JsMapFacts.get_Some_In.
Qed.

Lemma game_over_winner_is_top_scorer_witness :
  roundWinner (snd (gameOverFire 30818 (fst (finalizeVote lastStanding))))
  = Some (Some (Some "a", "Ana")).
Proof.
  assert (Hwf : JsMap.wf (players (fst (finalizeVote lastStanding)))).
  { vm_compute. repeat constructor; simpl; intuition discriminate. }
  assert (Hget : JsMap.get (Some "a") (players (fst (finalizeVote lastStanding)))
                 = Some (mkDead "Ana" 9)) by (vm_compute; reflexivity).
  apply (proj2 (proj1 (proj2 (proj2 (proj2 (proj2 (proj2
           game_over_winner_is_top_scorer))))) 30818 (fst (finalizeVote lastStanding))
           (Some "a") (mkDead "Ana" 9) Hwf eq_refl Hget)).
  exists [], [(Some "b", mkAlive "Bob" 2)]. split; [vm_compute; reflexivity|].
  split; [intros e [] | intros e [<-|[]]; simpl; lia].
Defined.

(** C1, as the spec words it, fails: when this vote is resolved Bob is the
    only player alive, below level 20; vote resolution arms the game-over
    callback, and the round ends with Ana, who is out but has the higher
    score, as winner. *)
Lemma survivor_is_not_the_winner :
  aliveIds (fst (finalizeVote lastStanding)) = [Some "b"]
  /\ level (fst (finalizeVote lastStanding)) = 2
  /\ snd (finalizeVote lastStanding)
     = [Emit ToRoom (EvLogMessage MSG_gameOver); SetTimeout CbGameOver gameOverMs]
  /\ roundWinner (snd (gameOverFire 30818 (fst (finalizeVote lastStanding))))
     = Some (Some (Some "a", "Ana"))
  /\ roundWinner (snd (gameOverFire 30818 (fst (finalizeVote lastStanding))))
     <> Some (Some (Some "b", "Bob")).
Proof. vm_compute. repeat split. discriminate. Qed.

(** ** gameLogic.js, handlers.js: the vote *)

Section VoteFacts.
Import JsMapFacts.

Lemma effThreshold_majority room target :
  effThreshold (aliveIds room) target = majorityThreshold (othersAlive room target).
Proof.
  unfold effThreshold, majorityThreshold, othersAlive, aliveIds.
  do 3 f_equal.
  induction (players room) as [|[k p] ps IH]; [reflexivity|].
  simpl. destruct (alive p); simpl; [|exact IH].
  destruct (negb (eqb k target)); simpl; now rewrite IH.
Qed.

Lemma isAlive_voteOff room s t :
  isAlive (voteOff room s) t = isAlive room t && negb (eqb s t).
Proof.
  assert (Hp : isAlive (set_players (JsMap.update s (set_alive false) (players room)) room) t
               = isAlive room t && negb (eqb s t)).
  { unfold isAlive. cbn. eqb_case s t.
    - subst. rewrite get_update_same.
      destruct (JsMap.get t (players room)) as [p|]; cbn; [|reflexivity].
      now rewrite andb_false_r.
    - rewrite get_update_other by assumption. now rewrite andb_true_r. }
  unfold voteOff. cbn.
  destruct (JsMap.get s (submissions room)) as [w|]; [|exact Hp].
  destruct (String.eqb w ""); exact Hp.
Qed.

Lemma isAlive_fold_voteOff l room t :
  isAlive (fold_left voteOff l room) t = isAlive room t && negb (JsSet.has t l).
Proof.
  revert room. induction l as [|s l IH]; intros room; simpl.
  - now rewrite andb_true_r.
  - rewrite IH, isAlive_voteOff. unfold JsSet.has. simpl.
    rewrite (eqb_sym t s), negb_orb. now rewrite andb_assoc.
Qed.

Lemma isAlive_proceed elim room t :
  isAlive (fst (proceedAfterPopup elim room)) t
  = isAlive room t && negb (JsSet.has t elim).
Proof.
  unfold proceedAfterPopup.
  match goal with |- context [if ?c then _ else _] => destruct c end;
    cbn [fst]; unfold isAlive; cbn; apply isAlive_fold_voteOff.
Qed.

(** The fold of [finalizeVote] over the ballots, for any starting set. *)
Lemma eliminated_fold room aliveL vs acc t :
  In t
    (fold_left
       (fun (acc : list Id) (e : Id * list Id) =>
          if negb (isAlive room (fst e)) then acc
          else if effThreshold aliveL (fst e) <=? JsSet.size (snd e)
               then JsSet.add (fst e) acc
               else acc)
       vs acc)
  <-> In t acc \/
      exists voters, In (t, voters) vs /\ isAlive room t = true /\
                     effThreshold aliveL t <= JsSet.size voters.
Proof.
  revert acc. induction vs as [|[k v] vs IH]; intros acc; simpl.
  - split; [auto | intros [?|[? [[] _]]]; assumption].
  - rewrite IH. cbn [fst snd].
    destruct (isAlive room k) eqn:Ek; cbn [negb].
    + destruct (Z.leb_spec (effThreshold aliveL k) (JsSet.size v)).
      * rewrite JsSetFacts.In_add. split.
        -- intros [[->|?]|[vt [Hin ?]]]; auto.
           ++ right. exists v. auto.
           ++ right. exists vt. auto.
        -- intros [?|[vt [[Heq|Hin] [? ?]]]]; auto.
           ++ inversion Heq; subst. auto.
           ++ right. exists vt. auto.
      * split.
        -- intros [?|[vt [Hin ?]]]; auto. right. exists vt. auto.
        -- intros [?|[vt [[Heq|Hin] [? ?]]]]; auto.
           ++ inversion Heq; subst. lia.
           ++ right. exists vt. auto.
    + split.
      * intros [?|[vt [Hin ?]]]; auto. right. exists vt. auto.
      * intros [?|[vt [[Heq|Hin] [Ha ?]]]]; auto.
        -- inversion Heq; subst. congruence.
        -- right. exists vt. auto.
Qed.

Lemma eliminatedByVoteOf_spec room t :
  JsMap.wf (votes room) ->
  (In t (eliminatedByVoteOf room) <->
   exists voters, JsMap.get t (votes room) = Some voters /\ isAlive room t = true /\
                  effThreshold (aliveIds room) t <= JsSet.size voters).
Proof.
  intros Hwf. unfold eliminatedByVoteOf. rewrite eliminated_fold. split.
  - intros [[]|[v [Hin ?]]]. exists v. split; [now apply In_get | assumption].
  - intros [v [Hget ?]]. right. exists v. split; [now apply get_Some_In | assumption].
Qed.
End VoteFacts.

Section VoteResolution.

Lemma pendingProceed_app l1 l2 :
  pendingProceed l1 = None -> pendingProceed (l1 ++ l2) = pendingProceed l2.
Proof.
  induction l1 as [|x l1 IH]; intros Hn; [reflexivity|].
  destruct x as [d ev|cb ms|cb|th|id|ok h|rs|er]; simpl in *; auto.
  destruct cb; auto; discriminate.
Qed.

Lemma pendingProceed_logs (l : list (Id * string * string)) :
  pendingProceed (map (fun ev => Emit ToRoom (EvLogMessage (snd ev))) l) = None.
Proof. induction l; simpl; auto. Qed.

Lemma pendingProceed_proceed elim room :
  pendingProceed (snd (proceedAfterPopup elim room)) = None.
Proof.
  unfold proceedAfterPopup.
  match goal with |- context [if ?c then _ else _] => destruct c end; reflexivity.
Qed.

Lemma eliminatedByVoteOf_ext r r' :
  players r = players r' -> votes r = votes r' ->
  eliminatedByVoteOf r = eliminatedByVoteOf r'.
Proof.
  unfold eliminatedByVoteOf, aliveIds, isAlive. now intros -> ->.
Qed.

Lemma isAlive_ext r r' t : players r = players r' -> isAlive r t = isAlive r' t.
Proof. unfold isAlive. now intros ->. Qed.

Lemma popup_nil room (elim : list Id) :
  (forall sid, In sid elim -> isAlive room sid = true) ->
  flat_map
    (fun sid =>
       match JsMap.get sid (players room) with
       | Some p => [(sid, name p, MSG_offTopic (name p))]
       | None => []
       end) elim = [] ->
  elim = [].
Proof.
  destruct elim as [|e rest]; [reflexivity|].
  intros Hal. specialize (Hal e (or_introl eq_refl)). unfold isAlive in Hal.
  simpl. destruct (JsMap.get e (players room)); discriminate.
Qed.

Lemma voteResolution_alive room t :
  JsMap.wf (votes room) -> votingActive room = true ->
  isAlive (voteResolution room) t
  = isAlive room t && negb (JsSet.has t (eliminatedByVoteOf room)).
Proof.
  intros Hwf Hact. unfold voteResolution, finalizeVote. rewrite Hact. cbn [negb].
  set (room0 := set_votingActive false room).
  assert (Hroom1 : exists room1 fx1,
             match voteEnd (timers room0) with
             | Some cb => (set_timers (set_voteEnd None (timers room0)) room0, [ClearTimeout cb])
             | None => (room0, [])
             end = (room1, fx1)
             /\ players room1 = players room /\ votes room1 = votes room
             /\ pendingProceed fx1 = None).
  { destruct (voteEnd (timers room0)); eexists; eexists;
      (split; [reflexivity | repeat split]). }
  destruct Hroom1 as [room1 [fx1 [-> [Hps [Hvs Hfx1]]]]].
  rewrite (eliminatedByVoteOf_ext room1 room Hps Hvs).
  set (elim := eliminatedByVoteOf room).
  assert (Halive : forall sid, In sid elim -> isAlive room1 sid = true).
  { intros sid Hin. apply eliminatedByVoteOf_spec in Hin; [|exact Hwf].
    destruct Hin as [v [_ [Ha _]]]. now rewrite (isAlive_ext room1 room). }
  pose proof (popup_nil room1 elim Halive) as Hnil.
  destruct (flat_map _ elim) as [|ev evs] eqn:Epop.
  - rewrite (Hnil eq_refl).
    destruct (proceedAfterPopup [] room1) as [room2 fx2] eqn:Ep.
    rewrite pendingProceed_app by exact Hfx1.
    pose proof (pendingProceed_proceed [] room1) as Hp. rewrite Ep in Hp.
    cbn [snd] in Hp. rewrite Hp.
    pose proof (isAlive_proceed [] room1 t) as Hal. rewrite Ep in Hal.
    cbn [fst] in Hal. rewrite Hal. now rewrite (isAlive_ext room1 room).
  - rewrite pendingProceed_app by exact Hfx1.
    change (pendingProceed
              ([Emit ToRoom (EvVoteEliminated elim)]
               ++ map (fun ev0 => Emit ToRoom (EvLogMessage (snd ev0))) (ev :: evs)
               ++ [Emit ToRoom (EvOffTopicPopup (ev :: evs));
                   SetTimeout (CbProceedAfterPopup elim) eliminationPopupMs]))
      with (pendingProceed
              (map (fun ev0 => Emit ToRoom (EvLogMessage (snd ev0))) (ev :: evs)
               ++ [Emit ToRoom (EvOffTopicPopup (ev :: evs));
                   SetTimeout (CbProceedAfterPopup elim) eliminationPopupMs])).
    rewrite pendingProceed_app by apply pendingProceed_logs.
    cbn [pendingProceed].
    rewrite isAlive_proceed.
    rewrite (isAlive_ext _ room1) by reflexivity.
    now rewrite (isAlive_ext room1 room).
Qed.
End VoteResolution.

Section EarlyExit.
Import JsMapFacts.

Lemma has_get_None {V : Type} (k : Id) (m : list (Id * V)) :
  JsMap.has k m = false -> JsMap.get k m = None.
Proof. unfold JsMap.has. destruct (JsMap.get k m); [discriminate | reflexivity]. Qed.

Lemma voteOff_usedWords room target word :
  JsMap.get target (submissions room) = Some word -> word <> "" ->
  JsSet.has word (usedWords (voteOff room target)) = false.
Proof.
  intros Hget Hne. unfold voteOff. cbn. rewrite Hget.
  destruct (String.eqb_spec word ""); [contradiction|]. cbn.
  apply JsSetFacts.mem_delete_same.
Qed.

Lemma voteOff_votingActive room target :
  votingActive (voteOff room target) = votingActive room.
Proof.
  unfold voteOff. cbn. destruct (JsMap.get target (submissions room)) as [w|]; [|reflexivity].
  now destruct (String.eqb w "").
Qed.

Lemma voteOff_timers room target : timers (voteOff room target) = timers room.
Proof.
  unfold voteOff. cbn. destruct (JsMap.get target (submissions room)) as [w|]; [|reflexivity].
  now destruct (String.eqb w "").
Qed.

Lemma voteOff_votes room target : votes (voteOff room target) = votes room.
Proof.
  unfold voteOff. cbn. destruct (JsMap.get target (submissions room)) as [w|]; [|reflexivity].
  now destruct (String.eqb w "").
Qed.
End EarlyExit.

Lemma size_add_new (x : Id) (v : list Id) :
  JsSet.has x v = false -> JsSet.add x v = v ++ [x] /\ JsSet.size (JsSet.add x v) = JsSet.size v + 1.
Proof.
  intros Hnew. unfold JsSet.add. rewrite Hnew. split; [reflexivity|].
  unfold JsSet.size. rewrite length_app. simpl. lia.
Qed.

Lemma ballotsOf_touch_set now r target (v : list Id) votes1 :
  votes r = JsMap.set target v votes1 -> ballotsOf (touchRoom now r) target = v.
Proof.
  intros Hr. unfold ballotsOf. change (votes (touchRoom now r)) with (votes r).
  now rewrite Hr, JsMapFacts.get_set_same.
Qed.

(** What a ballot that passes the guards and is new does to the room. *)
Lemma handleTurnVote_counted sid target now room :
  votingActive room = true ->
  isAlive room (Some sid) = true ->
  isAlive room target = true ->
  target <> Some sid ->
  JsMap.has target (submissions room) = true ->
  JsSet.has (Some sid) (ballotsOf room target) = false ->
  exists votes1,
    let room1 := set_votes (JsMap.set target (ballotsOf room target ++ [Some sid]) votes1)
                   room in
    fst (handleTurnVote sid target now room)
    = touchRoom now
        (if majorityThreshold (othersAlive room target)
            <=? JsSet.size (ballotsOf room target) + 1
         then voteOff room1 target else room1).
Proof.
  intros Hact Hvoter Htarget Hne Hsub Hnew. unfold handleTurnVote.
  rewrite Hact, Hvoter, Htarget. cbn [negb].
  destruct (eqb target (Some sid)) eqn:E; [apply eqb_iff in E; contradiction|].
  rewrite Hsub. cbn [negb].
  set (votes1 := if negb (JsMap.has target (votes room))
                 then JsMap.set target [] (votes room) else votes room).
  assert (Hv1 : match JsMap.get target votes1 with Some v => v | None => [] end
                = ballotsOf room target).
  { unfold votes1, ballotsOf. destruct (JsMap.has target (votes room)) eqn:Eh; cbn [negb].
    - reflexivity.
    - rewrite JsMapFacts.get_set_same. now rewrite (has_get_None _ _ Eh). }
  rewrite Hv1, Hnew.
  destruct (size_add_new (Some sid) (ballotsOf room target) Hnew) as [Hadd Hsize].
  rewrite Hadd. exists votes1. cbv zeta.
  set (room1 := set_votes (JsMap.set target (ballotsOf room target ++ [Some sid]) votes1) room).
  rewrite (effThreshold_majority room1).
  replace (othersAlive room1 target) with (othersAlive room target) by reflexivity.
  rewrite Hadd in Hsize. rewrite Hsize.
  destruct (majorityThreshold (othersAlive room target)
            <=? JsSet.size (ballotsOf room target) + 1); reflexivity.
Qed.

(** A ballot takes out nobody but its target, and only on a count that
    reaches the threshold. *)
Lemma handleTurnVote_kills sid target now room t :
  isAlive room t = true ->
  isAlive (fst (handleTurnVote sid target now room)) t = false ->
  t = target
  /\ majorityThreshold (othersAlive room target)
     <= JsSet.size (ballotsOf (fst (handleTurnVote sid target now room)) target).
Proof.
  intros Halive Hdead.
  destruct (votingActive room) eqn:Hact;
    [|unfold handleTurnVote in Hdead; rewrite Hact in Hdead; cbn in Hdead; congruence].
  destruct (isAlive room (Some sid)) eqn:Hvoter;
    [|unfold handleTurnVote in Hdead; rewrite Hact, Hvoter in Hdead; cbn in Hdead;
      congruence].
  destruct (isAlive room target) eqn:Htarget;
    [|unfold handleTurnVote in Hdead; rewrite Hact, Hvoter, Htarget in Hdead;
      cbn in Hdead; congruence].
  destruct (eqb target (Some sid)) eqn:E;
    [unfold handleTurnVote in Hdead; rewrite Hact, Hvoter, Htarget, E in Hdead;
     cbn in Hdead; congruence|].
  apply eqb_false_iff in E.
  destruct (JsMap.has target (submissions room)) eqn:Hsub;
    [|unfold handleTurnVote in Hdead; rewrite Hact, Hvoter, Htarget, Hsub in Hdead;
      cbn [negb] in Hdead;
      destruct (eqb target (Some sid)); cbn in Hdead; congruence].
  destruct (JsSet.has (Some sid) (ballotsOf room target)) eqn:Hnew.
  - exfalso. unfold handleTurnVote in Hdead.
    rewrite Hact, Hvoter, Htarget, Hsub in Hdead. cbn [negb] in Hdead.
    destruct (eqb target (Some sid)) eqn:E'; [apply eqb_iff in E'; contradiction|].
    assert (Hv1 : match JsMap.get target
                          (if negb (JsMap.has target (votes room))
                           then JsMap.set target [] (votes room) else votes room)
                  with Some v => v | None => [] end
                  = ballotsOf room target).
    { unfold ballotsOf. destruct (JsMap.has target (votes room)) eqn:Eh; cbn [negb].
      - reflexivity.
      - rewrite JsMapFacts.get_set_same. now rewrite (has_get_None _ _ Eh). }
    rewrite Hv1, Hnew in Hdead. cbn [fst] in Hdead.
    rewrite (isAlive_ext _ room) in Hdead by reflexivity. congruence.
  - destruct (handleTurnVote_counted sid target now room Hact Hvoter Htarget E Hsub Hnew)
      as [votes1 Heq]. cbv zeta in Heq. rewrite Heq in Hdead |- *.
    destruct (Z.leb_spec (majorityThreshold (othersAlive room target))
                         (JsSet.size (ballotsOf room target) + 1)) as [Hle|Hgt].
    + rewrite (isAlive_ext _ (voteOff
                 (set_votes (JsMap.set target (ballotsOf room target ++ [Some sid]) votes1)
                    room) target)) in Hdead by reflexivity.
      rewrite isAlive_voteOff in Hdead.
      rewrite (isAlive_ext _ room) in Hdead by reflexivity.
      rewrite Halive in Hdead. cbn [andb] in Hdead.
      apply negb_false_iff, eqb_iff in Hdead. split; [now symmetry|].
      rewrite (ballotsOf_touch_set now _ target (ballotsOf room target ++ [Some sid]) votes1)
        by (now rewrite voteOff_votes).
      unfold JsSet.size in *. rewrite length_app. simpl. lia.
    + rewrite (isAlive_ext _ room) in Hdead by reflexivity. congruence.
Qed.

(** C3, as the code has it: the majority threshold of a vote target is
    floor(n/2)+1 where n counts the players alive, the target excluded, on
    the roster as it stands when the threshold is evaluated (at each ballot
    for the early exit, and when the vote is resolved), not as it stood at
    turn resolution. A ballot that passes the guards disqualifies its
    target exactly when it brings the count to that threshold, and vote
    resolution disqualifies an alive target exactly when its ballots reach
    it; no player is ever disqualified by vote, at a ballot or at vote
    resolution, on fewer ballots than the threshold. *)
Theorem vote_majority_threshold :
  (forall room target,
      effThreshold (aliveIds room) target = majorityThreshold (othersAlive room target)) /\
  (forall room target voters,
      JsMap.wf (votes room) ->
      votingActive room = true ->
      JsMap.get target (votes room) = Some voters ->
      isAlive room target = true ->
      let threshold := majorityThreshold (othersAlive room target) in
      (JsSet.size voters < threshold ->
       ~ In target (eliminatedByVoteOf room) /\
       isAlive (voteResolution room) target = true) /\
      (threshold <= JsSet.size voters ->
       In target (eliminatedByVoteOf room) /\
       isAlive (voteResolution room) target = false)) /\
  (forall sid target now room,
      votingActive room = true ->
      isAlive room (Some sid) = true ->
      isAlive room target = true ->
      target <> Some sid ->
      JsMap.has target (submissions room) = true ->
      JsSet.has (Some sid) (ballotsOf room target) = false ->
      let threshold := majorityThreshold (othersAlive room target) in
      let room' := fst (handleTurnVote sid target now room) in
      ballotsOf room' target = ballotsOf room target ++ [Some sid]
      /\ (JsSet.size (ballotsOf room' target) < threshold ->
          isAlive room' target = true)
      /\ (threshold <= JsSet.size (ballotsOf room' target) ->
          isAlive room' target = false)) /\
  (forall sid data now room t,
      isAlive room t = true ->
      isAlive (fst (onTurnVote sid data now room)) t = false ->
      data = Some t
      /\ majorityThreshold (othersAlive room t)
         <= JsSet.size (ballotsOf (fst (onTurnVote sid data now room)) t)) /\
  (forall room t,
      JsMap.wf (votes room) ->
      isAlive room t = true ->
      isAlive (voteResolution room) t = false ->
      majorityThreshold (othersAlive room t) <= JsSet.size (ballotsOf room t)).
Proof.
  split; [exact effThreshold_majority|]. split; [|split; [|split]].
  - intros room target voters Hwf Hact Hget Halive threshold.
    unfold threshold. rewrite <- effThreshold_majority.
    rewrite voteResolution_alive by assumption. rewrite Halive. cbn [andb].
    split.
    + intros Hlt.
      assert (Hn : ~ In target (eliminatedByVoteOf room)).
      { rewrite eliminatedByVoteOf_spec by exact Hwf.
        intros [v [Hv [_ Hle]]]. rewrite Hget in Hv. inversion Hv; subst. lia. }
      split; [exact Hn|].
      destruct (JsSet.has target (eliminatedByVoteOf room)) eqn:E; [|reflexivity].
      apply JsSetFacts.mem_In in E. contradiction.
    + intros Hle.
      assert (Hin : In target (eliminatedByVoteOf room)).
      { rewrite eliminatedByVoteOf_spec by exact Hwf. exists voters. auto. }
      split; [exact Hin|].
      apply JsSetFacts.mem_In in Hin. now rewrite Hin.
  - intros sid target now room Hact Hvoter Htarget Hne Hsub Hnew threshold room'.
    destruct (handleTurnVote_counted sid target now room Hact Hvoter Htarget Hne Hsub Hnew)
      as [votes1 Heq]. cbv zeta in Heq. unfold room', threshold. rewrite Heq.
    set (room1 := set_votes (JsMap.set target (ballotsOf room target ++ [Some sid]) votes1)
                    room).
    assert (Hb : forall r, votes r = votes room1 ->
                           ballotsOf (touchRoom now r) target
                           = ballotsOf room target ++ [Some sid]).
    { intros r Hr. now apply (ballotsOf_touch_set now r target _ votes1). }
    assert (Hsize : JsSet.size (ballotsOf room target ++ [Some sid])
                    = JsSet.size (ballotsOf room target) + 1)
      by (unfold JsSet.size; rewrite length_app; simpl; lia).
    destruct (Z.leb_spec (majorityThreshold (othersAlive room target))
                         (JsSet.size (ballotsOf room target) + 1)) as [Hle|Hgt].
    + rewrite (Hb _ (voteOff_votes room1 target)). split; [reflexivity|].
      rewrite Hsize. split; [lia|]. intros _.
      rewrite (isAlive_ext _ (voteOff room1 target)) by reflexivity.
      rewrite isAlive_voteOff, eqb_refl. now rewrite andb_false_r.
    + rewrite (Hb _ eq_refl). split; [reflexivity|].
      rewrite Hsize. split; [|lia]. intros _.
      now rewrite (isAlive_ext _ room) by reflexivity.
  - intros sid data now room t Halive Hdead. destruct data as [target|].
    + cbn [onTurnVote] in *.
      destruct (handleTurnVote_kills sid target now room t Halive Hdead) as [-> Hle].
      split; [reflexivity | exact Hle].
    + cbn in Hdead. congruence.
  - intros room t Hwf Halive Hdead.
    destruct (votingActive room) eqn:Hact.
    + rewrite voteResolution_alive in Hdead by assumption.
      rewrite Halive in Hdead. cbn [andb] in Hdead.
      apply negb_false_iff, JsSetFacts.mem_In in Hdead.
      apply eliminatedByVoteOf_spec in Hdead; [|exact Hwf].
      destruct Hdead as [v [Hget [_ Hle]]].
      unfold ballotsOf. rewrite Hget. now rewrite <- effThreshold_majority.
    + exfalso. unfold voteResolution, finalizeVote in Hdead. rewrite Hact in Hdead.
      cbn in Hdead. congruence.
Qed.

Lemma vote_majority_threshold_witness :
  In (Some "a")
     (eliminatedByVoteOf
        (votingRoom [(Some "a", [Some "b"; Some "c"]); (Some "b", []); (Some "c", [])]))
  /\ isAlive
       (voteResolution
          (votingRoom [(Some "a", [Some "b"; Some "c"]); (Some "b", []); (Some "c", [])]))
       (Some "a") = false.
Proof.
  refine (proj2 (proj1 (proj2 vote_majority_threshold)
                   (votingRoom [(Some "a", [Some "b"; Some "c"]); (Some "b", []);
                                (Some "c", [])])
                   (Some "a") [Some "b"; Some "c"] _ _ _ _) _).
  - repeat constructor; simpl; intuition discriminate.
  - reflexivity.
  - reflexivity.
  - reflexivity.
  - vm_compute. discriminate.
Defined.

(** C3, as the spec words it, fails: this vote opens with five players
    alive, so the threshold for Ana on the roster of turn resolution is
    floor(4/2)+1 = 3; two players leave during the vote, and vote
    resolution disqualifies Ana on two ballots. *)
Lemma threshold_is_not_from_turn_resolution :
  majorityThreshold (othersAlive fiveVoting (Some "a")) = 3
  /\ match run twoBallotsTwoLeave fiveVoting with
     | Some (atVoteEnd, _) =>
         JsMap.get (Some "a") (votes atVoteEnd) = Some [Some "b"; Some "c"] /\
         isAlive atVoteEnd (Some "a") = true /\
         eliminatedByVoteOf atVoteEnd = [Some "a"] /\
         isAlive (voteResolution atVoteEnd) (Some "a") = false
     | None => False
     end.
Proof. vm_compute. repeat split. Qed.


(** C4: a valid ballot is recorded and checked at once. When it brings the
    target's ballot count to the majority threshold, the handler itself
    marks the target not-alive and removes the target's word from
    [usedWords], so that the word is no longer refused as already used; it
    announces the disqualification, and the voting phase is still open (the
    vote-timeout has not run). *)
Theorem early_exit_majority :
  forall sid target now room word,
    votingActive room = true ->
    isAlive room (Some sid) = true ->
    isAlive room target = true ->
    target <> Some sid ->
    JsMap.get target (submissions room) = Some word -> word <> "" ->
    JsSet.has (Some sid) (ballotsOf room target) = false ->
    majorityThreshold (othersAlive room target)
      <= JsSet.size (ballotsOf room target) + 1 ->
    let room' := fst (handleTurnVote sid target now room) in
    ballotsOf room' target = ballotsOf room target ++ [Some sid]
    /\ isAlive room' target = false
    /\ JsSet.has word (usedWords room') = false
    /\ alreadyUsed room' word = false
    /\ votingActive room' = true
    /\ timers room' = timers room
    /\ In (Emit ToRoom (EvVoteEliminated [target]))
          (snd (handleTurnVote sid target now room)).
Proof.
  intros sid target now room word Hact Hvoter Htarget Hne Hsub Hword Hnew Hreach room'.
  subst room'. unfold handleTurnVote.
  rewrite Hact, Hvoter, Htarget. cbn [negb].
  destruct (eqb target (Some sid)) eqn:E; [apply eqb_iff in E; contradiction|].
  assert (Hhas : JsMap.has target (submissions room) = true)
    by (unfold JsMap.has; now rewrite Hsub).
  rewrite Hhas. cbn [negb].
  set (votes1 := if negb (JsMap.has target (votes room))
                 then JsMap.set target [] (votes room) else votes room).
  assert (Hv1 : match JsMap.get target votes1 with Some v => v | None => [] end
                = ballotsOf room target).
  { unfold votes1, ballotsOf. destruct (JsMap.has target (votes room)) eqn:Eh; cbn [negb].
    - reflexivity.
    - rewrite JsMapFacts.get_set_same. now rewrite (has_get_None _ _ Eh). }
  rewrite Hv1, Hnew.
  assert (Hadd : JsSet.add (Some sid) (ballotsOf room target)
                 = ballotsOf room target ++ [Some sid]).
  { unfold JsSet.add. now rewrite Hnew. }
  rewrite Hadd.
  set (room1 := set_votes (JsMap.set target (ballotsOf room target ++ [Some sid]) votes1) room).
  assert (Hthr : (effThreshold (aliveIds room1) target
                  <=? JsSet.size (ballotsOf room target ++ [Some sid])) = true).
  { apply Z.leb_le.
    rewrite (effThreshold_majority room1).
    replace (othersAlive room1 target) with (othersAlive room target) by reflexivity.
    unfold JsSet.size in *. rewrite length_app. simpl. lia. }
  rewrite Hthr. cbn [fst snd].
  repeat split.
  - unfold ballotsOf. cbn. rewrite voteOff_votes. cbn.
    now rewrite JsMapFacts.get_set_same.
  - rewrite (isAlive_ext _ (voteOff room1 target)) by reflexivity.
    rewrite isAlive_voteOff, eqb_refl. now rewrite andb_false_r.
  - cbn. now apply voteOff_usedWords.
  - unfold alreadyUsed. cbn. now apply voteOff_usedWords.
  - cbn. now rewrite voteOff_votingActive.
  - cbn. now rewrite voteOff_timers.
  - now left.
Qed.

Lemma early_exit_majority_witness :
  let room := votingRoom [(Some "a", [Some "b"]); (Some "b", []); (Some "c", [])] in
  let room' := fst (handleTurnVote "c" (Some "a") 11000 room) in
  majorityThreshold (othersAlive room (Some "a")) = 2
  /\ ballotsOf room' (Some "a") = [Some "b"; Some "c"]
  /\ isAlive room' (Some "a") = false
  /\ JsSet.has "chat" (usedWords room') = false.
Proof.
  intros room room'.
  pose proof (early_exit_majority "c" (Some "a") 11000 room "chat") as Hex.
  split; [reflexivity|].
  destruct Hex as [Hb [Ha [Hu _]]].
  - reflexivity.
  - reflexivity.
  - reflexivity.
  - discriminate.
  - reflexivity.
  - discriminate.
  - reflexivity.
  - vm_compute. discriminate.
  - split; [exact Hb | split; [exact Ha | exact Hu]].
Defined.

(** ** gameLogic.js: turn resolution *)

Section WordFreq.
Import JsMapFacts.

Lemma idsOf_snoc_same w sid processed :
  idsOf w (processed ++ [(sid, w)]) = idsOf w processed ++ [sid].
Proof.
  unfold idsOf. rewrite filter_app, map_app. simpl.
  now rewrite String.eqb_refl.
Qed.

Lemma idsOf_snoc_other w w' sid processed :
  w' <> w -> idsOf w (processed ++ [(sid, w')]) = idsOf w processed.
Proof.
  intros Hne. unfold idsOf. rewrite filter_app, map_app. simpl.
  destruct (String.eqb_spec w' w); [contradiction|]. simpl. apply app_nil_r.
Qed.

Lemma freqInv_step freq processed e :
  freqInv freq processed ->
  freqInv
    (JsMap.set (snd e)
       (match JsMap.get (snd e) freq with Some ids => ids | None => [] end ++ [fst e])
       freq)
    (processed ++ [e]).
Proof.
  destruct e as [sid word]. intros [Hwf Hget]. cbn [fst snd]. split.
  - now apply wf_set.
  - intros w. destruct (String.eqb_spec word w) as [->|Hne].
    + rewrite get_set_same, idsOf_snoc_same, Hget.
      destruct (idsOf w processed); reflexivity.
    + rewrite get_set_other by exact Hne.
      rewrite idsOf_snoc_other by exact Hne. apply Hget.
Qed.

Lemma freqInv_fold subs : forall freq processed,
  freqInv freq processed ->
  freqInv
    (fold_left
       (fun freq e =>
          let ids := match JsMap.get (snd e) freq with Some ids => ids | None => [] end in
          JsMap.set (snd e) (ids ++ [fst e]) freq)
       subs freq)
    (processed ++ subs).
Proof.
  induction subs as [|e subs IH]; intros freq processed Hinv; simpl.
  - now rewrite app_nil_r.
  - replace (processed ++ e :: subs) with ((processed ++ [e]) ++ subs)
      by (now rewrite <- app_assoc).
    apply IH. now apply freqInv_step.
Qed.

Lemma wordFreq_inv subs : freqInv (wordFreq subs) subs.
Proof.
  apply (freqInv_fold subs [] []). split; [constructor | reflexivity].
Qed.

Lemma In_idsOf sid w subs : In sid (idsOf w subs) <-> In (sid, w) subs.
Proof.
  unfold idsOf. rewrite in_map_iff. split.
  - intros [[s w'] [Hs Hin]]. apply filter_In in Hin as [Hin Hw].
    cbn in *. apply String.eqb_eq in Hw. now subst.
  - intros Hin. exists (sid, w). split; [reflexivity|].
    apply filter_In. split; [assumption | apply String.eqb_refl].
Qed.

Lemma NoDup_idsOf w subs : JsMap.wf subs -> NoDup (idsOf w subs).
Proof.
  unfold JsMap.wf, JsMap.keys, idsOf.
  induction subs as [|[s w'] subs IH]; simpl; intros Hnd; [constructor|].
  inversion Hnd as [|? ? Hnotin Hnd']; subst.
  destruct (String.eqb w' w); simpl; [|auto].
  constructor; [|auto].
  intros Hin. apply Hnotin. apply in_map_iff in Hin as [e [He Hin]].
  apply filter_In in Hin as [Hin _]. apply in_map_iff. now exists e.
Qed.

Lemma two_of_NoDup {A : Type} (x : A) (l : list A) :
  NoDup l -> In x l -> (2 <= List.length l)%nat -> exists y, In y l /\ y <> x.
Proof.
  intros Hnd Hin Hlen.
  destruct l as [|a [|b l]]; simpl in Hlen; try lia.
  inversion Hnd as [|? ? Hna Hnd']; subst.
  destruct Hin as [->|Hin].
  - exists b. split; [simpl; auto|]. intros ->. apply Hna. now left.
  - exists a. split; [now left|]. intros ->. contradiction.
Qed.

Lemma length_of_two {A : Type} (x y : A) (l : list A) :
  In x l -> In y l -> x <> y -> (2 <= List.length l)%nat.
Proof.
  intros Hx Hy Hne.
  destruct l as [|a [|b l]]; simpl in *; try lia; try tauto.
  destruct Hx as [->|[]], Hy as [->|[]]. congruence.
Qed.

Lemma In_duplicateIds room sid :
  JsMap.wf (submissions room) ->
  (In sid (duplicateIds room) <->
   exists w sid', In (sid, w) (submissions room) /\ In (sid', w) (submissions room)
                  /\ sid' <> sid).
Proof.
  intros Hwf. unfold duplicateIds. rewrite in_flat_map.
  destruct (wordFreq_inv (submissions room)) as [Hfwf Hfget]. split.
  - intros [[w ids] [Hin Hsid]]. cbn [snd] in Hsid.
    destruct (Nat.leb_spec 2 (List.length ids)) as [Hlen|]; [|contradiction].
    apply In_get in Hin; [|exact Hfwf]. rewrite Hfget in Hin.
    assert (Hids : ids = idsOf w (submissions room))
      by (destruct (idsOf w (submissions room)); congruence).
    subst ids.
    destruct (two_of_NoDup sid _ (NoDup_idsOf w _ Hwf) Hsid Hlen) as [y [Hy Hne]].
    exists w, y. repeat split; try assumption; now apply In_idsOf.
  - intros [w [sid' [Hs [Hs' Hne]]]].
    apply In_idsOf in Hs, Hs'.
    pose proof (length_of_two _ _ _ Hs Hs' (not_eq_sym Hne)) as Hlen.
    exists (w, idsOf w (submissions room)). split.
    + apply get_Some_In. rewrite Hfget.
      destruct (idsOf w (submissions room)); [contradiction | reflexivity].
    + cbn [snd]. destruct (Nat.leb_spec 2 (List.length (idsOf w (submissions room))));
        [assumption | lia].
Qed.

Lemma In_noSubmissionIds room sid :
  In sid (noSubmissionIds room) <->
  exists p, In (sid, p) (players room) /\ alive p = true
            /\ JsMap.has sid (submissions room) = false.
Proof.
  unfold noSubmissionIds. rewrite in_map_iff. split.
  - intros [[s p] [Hs Hin]]. cbn in Hs. subst s.
    apply filter_In in Hin as [Hin Hc]. cbn in Hc.
    apply andb_prop in Hc as [Ha Hn]. apply negb_true_iff in Hn.
    exists p. auto.
  - intros [p [Hin [Ha Hn]]]. exists (sid, p). split; [reflexivity|].
    apply filter_In. split; [assumption|]. cbn. now rewrite Ha, Hn.
Qed.

Lemma get_markDead ids ps sid :
  JsMap.get sid (markDead ids ps)
  = if JsSet.has sid ids then option_map (set_alive false) (JsMap.get sid ps)
    else JsMap.get sid ps.
Proof.
  unfold markDead. revert ps. induction ids as [|a ids IH]; intros ps; [reflexivity|].
  simpl. rewrite IH. unfold JsSet.has. simpl. eqb_case sid a.
  - subst. rewrite get_update_same. cbn [orb].
    destruct (existsb (eqb a) ids); [|reflexivity].
    now destruct (JsMap.get a ps).
  - rewrite get_update_other by congruence. reflexivity.
Qed.
End WordFreq.

Section TurnResolution.
Import JsMapFacts.

Lemma players_set_players ps room : players (set_players ps room) = ps.
Proof. reflexivity. Qed.

Lemma pendingFinalizeTurn_app l1 l2 :
  pendingFinalizeTurn l1 = None ->
  pendingFinalizeTurn (l1 ++ l2) = pendingFinalizeTurn l2.
Proof.
  induction l1 as [|x l1 IH]; intros Hn; [reflexivity|].
  destruct x as [d ev|cb ms|cb|th|id|ok h|rs|er]; simpl in *; auto.
  destruct cb; auto; discriminate.
Qed.

Lemma pendingFinalizeTurn_logs (l : list string) :
  pendingFinalizeTurn (map (fun msg => Emit ToRoom (EvLogMessage msg)) l) = None.
Proof. induction l; simpl; auto. Qed.

Lemma In_eliminatedAtTurnEnd room sid :
  In sid (eliminatedAtTurnEnd room) <->
  In sid (noSubmissionIds room) \/ In sid (duplicateIds room).
Proof.
  unfold eliminatedAtTurnEnd. rewrite JsSetFacts.In_fold_add, in_app_iff.
  simpl. tauto.
Qed.

Lemma In_acceptedWords room elim w :
  In w (acceptedWords room elim) <->
  exists sid, In (sid, w) (submissions room) /\ ~ In sid elim.
Proof.
  unfold acceptedWords. rewrite in_map_iff. split.
  - intros [[sid w'] [Hw Hin]]. cbn in Hw. subst w'.
    apply filter_In in Hin as [Hin Hn]. cbn in Hn. apply negb_true_iff in Hn.
    exists sid. split; [assumption|]. intros Hel.
    apply JsSetFacts.mem_In in Hel. congruence.
  - intros [sid [Hin Hn]]. exists (sid, w). split; [reflexivity|].
    apply filter_In. split; [assumption|]. cbn. apply negb_true_iff.
    destruct (JsSet.has sid elim) eqn:E; [|reflexivity].
    apply JsSetFacts.mem_In in E. contradiction.
Qed.

Lemma usedWords_finalizeTurn t elim room w :
  In w (usedWords (fst (finalizeTurn t elim room))) <->
  In w (usedWords room) \/ exists sid, In (sid, w) (submissions room) /\ ~ In sid elim.
Proof.
  change (usedWords (fst (finalizeTurn t elim room)))
    with (fold_left (fun s x => JsSet.add x s) (acceptedWords room elim) (usedWords room)).
  rewrite JsSetFacts.In_fold_add, In_acceptedWords. tauto.
Qed.

Lemma endTurn_popup now room e es :
  eliminatedAtTurnEnd room = e :: es ->
  exists logs popup,
    endTurn now room
    = (set_players (markDead (e :: es) (players room)) (set_accepting false room),
       map (fun msg => Emit ToRoom (EvLogMessage msg)) logs
       ++ [Emit ToRoom (EvElimPopup popup);
           SetTimeout (CbFinalizeTurn (e :: es)) eliminationPopupMs]).
Proof.
  intros Hel. unfold endTurn.
  change (eliminatedAtTurnEnd (set_accepting false room))
    with (eliminatedAtTurnEnd room).
  rewrite Hel. cbn [map]. eexists. eexists. reflexivity.
Qed.

Lemma endTurn_inline now room :
  eliminatedAtTurnEnd room = [] ->
  exists logs room1,
    endTurn now room
    = (fst (finalizeTurn now [] room1),
       map (fun msg => Emit ToRoom (EvLogMessage msg)) logs
       ++ snd (finalizeTurn now [] room1))
    /\ usedWords room1 = usedWords room
    /\ submissions room1 = submissions room
    /\ players room1 = players room.
Proof.
  intros Hel. unfold endTurn.
  change (eliminatedAtTurnEnd (set_accepting false room))
    with (eliminatedAtTurnEnd room).
  rewrite Hel. cbn [map].
  eexists. eexists. split; [reflexivity|]. repeat split.
Qed.
End TurnResolution.

(** C5: at turn resolution the eliminated players are exactly the alive
    players absent from the submissions and the submitters of a word that
    another player submitted too; [endTurn] marks each of them not-alive at
    once; and when the turn is resolved the used words are those used
    before plus exactly the words of the submitters who were not
    eliminated. *)
Theorem turn_resolution_eliminations :
  forall now later room,
    JsMap.wf (submissions room) ->
    let elim := eliminatedAtTurnEnd room in
    (forall sid,
        In sid elim <->
        (exists p, In (sid, p) (players room) /\ alive p = true
                   /\ JsMap.has sid (submissions room) = false)
        \/ (exists w sid', In (sid, w) (submissions room)
                           /\ In (sid', w) (submissions room) /\ sid' <> sid))
    /\ (forall sid, In sid elim -> isAlive (fst (endTurn now room)) sid = false)
    /\ (forall w,
           In w (usedWords (turnResolution now later room)) <->
           In w (usedWords room)
           \/ exists sid, In (sid, w) (submissions room) /\ ~ In sid elim).
Proof.
  intros now later room Hwf elim. split; [|split].
  - intros sid. unfold elim.
    now rewrite In_eliminatedAtTurnEnd, In_noSubmissionIds, In_duplicateIds.
  - intros sid Hin. destruct elim as [|e es] eqn:Eel; [contradiction|].
    destruct (endTurn_popup now room e es Eel) as [logs [popup ->]].
    cbn [fst]. unfold isAlive. rewrite players_set_players, get_markDead.
    apply JsSetFacts.mem_In in Hin. rewrite Hin.
    now destruct (JsMap.get sid (players room)).
  - intros w. unfold turnResolution. destruct elim as [|e es] eqn:Eel.
    + destruct (endTurn_inline now room Eel) as [logs [room1 [-> [Hu [Hs _]]]]].
      rewrite pendingFinalizeTurn_app by apply pendingFinalizeTurn_logs.
      cbn [snd finalizeTurn pendingFinalizeTurn].
      rewrite usedWords_finalizeTurn, Hu, Hs. reflexivity.
    + destruct (endTurn_popup now room e es Eel) as [logs [popup ->]].
      rewrite pendingFinalizeTurn_app by apply pendingFinalizeTurn_logs.
      cbn [pendingFinalizeTurn].
      rewrite usedWords_finalizeTurn. reflexivity.
Qed.

Lemma turn_resolution_eliminations_witness :
  eliminatedAtTurnEnd chatChienRoom = [Some "a"; Some "b"]
  /\ isAlive (fst (endTurn 11000 chatChienRoom)) (Some "a") = false
  /\ isAlive (fst (endTurn 11000 chatChienRoom)) (Some "b") = false
  /\ isAlive (fst (endTurn 11000 chatChienRoom)) (Some "c") = true
  /\ In "chien" (usedWords (turnResolution 11000 13000 chatChienRoom))
  /\ JsMap.get (Some "c") (players (turnResolution 11000 13000 chatChienRoom))
     = Some (mkAlive "Cy" 7).
Proof.
  assert (Hwf : JsMap.wf (submissions chatChienRoom)).
  { repeat constructor; simpl; intuition discriminate. }
  destruct (turn_resolution_eliminations 11000 13000 chatChienRoom Hwf)
    as [_ [Hdead Hused]].
  split; [reflexivity|].
  split; [apply Hdead; simpl; auto|].
  split; [apply Hdead; simpl; auto|].
  split; [reflexivity|].
  split; [|reflexivity].
  apply Hused. right. exists (Some "c"). split.
  - simpl. auto.
  - simpl. intuition discriminate.
Defined.

(** ** handlers.js: word submission *)

Lemma count_key_le_1 {V : Type} (k : Id) (m : list (Id * V)) :
  JsMap.wf m -> (JsMap.count_key k m <= 1)%nat.
Proof.
  intros Hwf. destruct (JsMap.has k m) eqn:E.
  - rewrite JsMapFacts.count_key_wf by assumption. lia.
  - apply JsMapFacts.has_false in E.
    rewrite JsMapFacts.count_key_notin by assumption. lia.
Qed.

Lemma alreadyUsed_spec room w : alreadyUsed room w = true <-> In w (usedWords room).
Proof. apply JsSetFacts.mem_In. Qed.

Lemma notInBank_spec room w :
  notInBank room w = true <-> wordSet room <> [] /\ ~ In w (wordSet room).
Proof.
  unfold notInBank, JsSet.size. rewrite andb_true_iff, negb_true_iff, Z.ltb_lt.
  split.
  - intros [Hsz Hn]. split.
    + intros E. rewrite E in Hsz. simpl in Hsz. lia.
    + intros Hin. apply JsSetFacts.mem_In in Hin. congruence.
  - intros [Hne Hn]. split.
    + destruct (wordSet room); [congruence | simpl; lia].
    + destruct (JsSet.has w (wordSet room)) eqn:E; [|reflexivity].
      apply JsSetFacts.mem_In in E. contradiction.
Qed.

Lemma hasPunished_spec room w :
  hasPunished room w = true <->
  exists letter, In letter (punishedLetters room) /\ includes w letter = true.
Proof. unfold hasPunished. apply existsb_exists. Qed.

Section Submit.
Context `{StringBuiltins}.

Lemma submit_outcomes sid word now room p :
  accepting room = true ->
  JsMap.get (Some sid) (players room) = Some p -> alive p = true ->
  normalizeWord word <> "" ->
  let w := normalizeWord word in
  handleTurnSubmit sid word now room
  = if alreadyUsed room w || notInBank room w || hasPunished room w
    then (room, [Emit (ToSocket sid) (EvTurnError MSG_invalidWord)])
    else if JsMap.has (Some sid) (submissions room) then (room, [])
    else
      (touchRoom now
         (set_submissionTimes (JsMap.set (Some sid) now (submissionTimes room))
            (set_submissions (JsMap.set (Some sid) w (submissions room)) room)),
       [Emit (ToSocket sid) (EvTurnAck w);
        Emit ToRoom
          (EvTurnProgress (JsMap.size (JsMap.set (Some sid) w (submissions room))))]).
Proof.
  intros Hacc Hp Halive Hne w. unfold handleTurnSubmit.
  rewrite Hacc, Hp, Halive. cbn [negb]. fold w.
  destruct (String.eqb_spec w ""); [contradiction|].
  destruct (alreadyUsed room w || notInBank room w || hasPunished room w); [reflexivity|].
  now destruct (JsMap.has (Some sid) (submissions room)).
Qed.

(** C7: while the turn accepts submissions, a word from an alive player
    (a payload whose normal form is not empty) is rejected, with the single
    message [MSG_invalidWord], if and only if it is already in [usedWords],
    or the word set is non-empty and does not hold it, or it contains a
    punished letter. A rejection
    leaves the room as it was. A submission of a player who already has one
    changes nothing, so the submissions stay a map with at most one entry
    per player. *)
Theorem submit_rejection_rules :
  forall sid word now room p,
    accepting room = true ->
    JsMap.get (Some sid) (players room) = Some p -> alive p = true ->
    normalizeWord word <> "" ->
    JsMap.wf (submissions room) ->
    let w := normalizeWord word in
    let res := handleTurnSubmit sid word now room in
    let rejected := snd res = [Emit (ToSocket sid) (EvTurnError MSG_invalidWord)] in
    (rejected <->
     In w (usedWords room)
     \/ (wordSet room <> [] /\ ~ In w (wordSet room))
     \/ (exists letter, In letter (punishedLetters room) /\ includes w letter = true))
    /\ (rejected -> fst res = room)
    /\ (forall d msg, In (Emit d (EvTurnError msg)) (snd res) -> rejected)
    /\ (forall w0, JsMap.get (Some sid) (submissions room) = Some w0 ->
                   submissions (fst res) = submissions room)
    /\ (~ rejected -> JsMap.has (Some sid) (submissions room) = false ->
        JsMap.get (Some sid) (submissions (fst res)) = Some w)
    /\ JsMap.wf (submissions (fst res))
    /\ (forall k, (JsMap.count_key k (submissions (fst res)) <= 1)%nat).
Proof.
  intros sid word now room p Hacc Hp Halive Hne Hwf w res rejected.
  assert (Hres : res = handleTurnSubmit sid word now room) by reflexivity.
  rewrite (submit_outcomes sid word now room p Hacc Hp Halive Hne) in Hres.
  fold w in Hres.
  assert (Hrules :
            alreadyUsed room w || notInBank room w || hasPunished room w = true <->
            In w (usedWords room)
            \/ (wordSet room <> [] /\ ~ In w (wordSet room))
            \/ (exists letter, In letter (punishedLetters room)
                               /\ includes w letter = true)).
  { rewrite !orb_true_iff, alreadyUsed_spec, notInBank_spec, hasPunished_spec. tauto. }
  unfold rejected. clearbody res.
  destruct (alreadyUsed room w || notInBank room w || hasPunished room w) eqn:Erej.
  - subst res. cbn [fst snd].
    split; [|split; [|split; [|split; [|split; [|split]]]]].
    + split; [intros _; now apply Hrules | reflexivity].
    + reflexivity.
    + reflexivity.
    + reflexivity.
    + intros Hn. exfalso. now apply Hn.
    + exact Hwf.
    + intros k. now apply count_key_le_1.
  - assert (Hno : ~ (In w (usedWords room)
                     \/ (wordSet room <> [] /\ ~ In w (wordSet room))
                     \/ (exists letter, In letter (punishedLetters room)
                                        /\ includes w letter = true))).
    { intros Hr. apply Hrules in Hr. discriminate. }
    destruct (JsMap.has (Some sid) (submissions room)) eqn:Ehas;
      subst res; cbn [fst snd];
      (split; [|split; [|split; [|split; [|split; [|split]]]]]).
    + split; [discriminate | intros Hr; contradiction].
    + discriminate.
    + intros d msg [].
    + reflexivity.
    + intros _ Hf. discriminate.
    + exact Hwf.
    + intros k. now apply count_key_le_1.
    + split; [discriminate | intros Hr; contradiction].
    + discriminate.
    + intros d msg [Hin|[Hin|[]]]; discriminate.
    + intros w0 Hw0. unfold JsMap.has in Ehas. rewrite Hw0 in Ehas. discriminate.
    + intros _ _. cbn. apply JsMapFacts.get_set_same.
    + cbn. now apply JsMapFacts.wf_set.
    + intros k. apply count_key_le_1. cbn. now apply JsMapFacts.wf_set.
Qed.

(** C9: a submit-word action whose payload normalizes to the empty string
    returns at once: the room is unchanged and nothing is emitted, neither
    acknowledgement nor error. Every falsy payload normalizes to the empty
    string, and so does a string of white space. *)
Theorem empty_submission_is_silent :
  (forall sid word now room,
      normalizeWord word = "" -> handleTurnSubmit sid word now room = (room, [])) /\
  (forall word, truthy word = false -> normalizeWord word = "") /\
  (forall s, StringBuiltinsSpec -> all_space s = true -> normalizeWord (JsString s) = "").
Proof.
  split; [|split].
  - intros sid word now room Hn. unfold handleTurnSubmit. rewrite Hn.
    destruct (accepting room); [|reflexivity]. cbn [negb].
    destruct (JsMap.get (Some sid) (players room)) as [p|]; [|reflexivity].
    destruct (alive p); reflexivity.
  - intros word Hf. unfold normalizeWord. now rewrite Hf.
  - intros s [Htrim Hlow Hstrip] Hsp. unfold normalizeWord.
    destruct (truthy (JsString s)); [|reflexivity]. cbn [negb js_String].
    now rewrite Htrim, Hlow, Hstrip.
Qed.
End Submit.

Lemma asciiBuiltins_spec : @StringBuiltinsSpec asciiBuiltins.
Proof.
  split; try reflexivity.
  intros s Hs. cbn.
  assert (Hstart : trimStart s = "").
  { induction s as [|c s IH]; [reflexivity|]. simpl in *.
    apply andb_prop in Hs as [Hc Hs]. rewrite Hc. now apply IH. }
  now rewrite Hstart.
Qed.

Lemma submit_rejection_rules_witness :
  snd (handleTurnSubmit "a" (JsString " Chien ") 5000 bankRoom)
  = [Emit (ToSocket "a") (EvTurnError MSG_invalidWord)]
  /\ fst (handleTurnSubmit "a" (JsString " Chien ") 5000 bankRoom) = bankRoom.
Proof.
  assert (Hwf : JsMap.wf (submissions bankRoom)) by constructor.
  assert (Hne : normalizeWord (JsString " Chien ") <> "") by discriminate.
  pose proof (submit_rejection_rules "a" (JsString " Chien ") 5000 bankRoom
                (mkAlive "Ana" 0) eq_refl eq_refl eq_refl Hne Hwf) as Hrules.
  cbv zeta in Hrules. destruct Hrules as [Hiff [Hsame _]].
  assert (Hrej : snd (handleTurnSubmit "a" (JsString " Chien ") 5000 bankRoom)
                 = [Emit (ToSocket "a") (EvTurnError MSG_invalidWord)]).
  { apply Hiff. left. simpl. auto. }
  split; [exact Hrej | exact (Hsame Hrej)].
Defined.

Lemma empty_submission_is_silent_witness :
  handleTurnSubmit "a" (JsString "   ") 5000 bankRoom = (bankRoom, []).
Proof.
  apply (proj1 empty_submission_is_silent).
  apply (proj2 (proj2 empty_submission_is_silent) "   " asciiBuiltins_spec).
  reflexivity.
Defined.

(** ** handlers.js: starting a game *)

Lemma addBot_present now room :
  truthy_str (botId (addBot now room)) = true
  /\ (truthy_str (botId room) = false ->
      botId (addBot now room) = Some ("bot-" ++ string_of_Z now)%string
      /\ JsMap.get (botId (addBot now room)) (players (addBot now room)) = Some newBot).
Proof.
  unfold addBot. destruct (truthy_str (botId room)) eqn:E.
  - split; [exact E | discriminate].
  - split; [reflexivity|]. intros _. split; [reflexivity|].
    cbn. apply JsMapFacts.get_set_same.
Qed.

Lemma addBot_gameActive now room : gameActive (addBot now room) = gameActive room.
Proof. unfold addBot. now destruct (truthy_str (botId room)). Qed.

Lemma start_errors_generic sid now rnd room d msg :
  In (Emit d (EvGameError msg)) (snd (handleGameStart sid now rnd room)) ->
  d = ToSocket sid /\ msg = MSG_lobbyError
  /\ gameActive (fst (handleGameStart sid now rnd room)) = gameActive room.
Proof.
  unfold handleGameStart.
  destruct (eqb (Some sid) (hostId room)); cbn [negb]; [|intros []].
  destruct (gameActive room) eqn:Eact.
  - intros [Hin|[]]. inversion Hin; subst. auto.
  - destruct (onlineCount _ <? 2).
    + intros [Hin|[]]. inversion Hin; subst. cbn [fst].
      repeat split. destruct (humanOnline room <? 2); [|assumption].
      now rewrite addBot_gameActive.
    + intros [Hin|[]]. discriminate.
Qed.

(** C8: start-game by the host on a room with no game running first adds
    the bot when fewer than two humans are online (a room that has a bot
    keeps it); if fewer than two players are online after that, the host
    gets the lobby-creation error and the room stays inactive; otherwise
    the game is active with level 0 and no punished letter, and the first
    round begins. Restart-game does the same, and every error either
    action emits is that one message, sent to the sender, with the active
    flag unchanged. *)
Theorem game_start_rules :
  forall sid now rnd room,
    hostId room = Some sid ->
    gameActive room = false ->
    let room1 := if humanOnline room <? 2 then addBot now room else room in
    let res := handleGameStart sid now rnd room in
    (humanOnline room < 2 ->
     truthy_str (botId room1) = true
     /\ (truthy_str (botId room) = false ->
         JsMap.get (botId room1) (players room1) = Some newBot))
    /\ (onlineCount room1 < 2 ->
        res = (room1, [Emit (ToSocket sid) (EvGameError MSG_lobbyError)])
        /\ gameActive (fst res) = false)
    /\ (2 <= onlineCount room1 ->
        gameActive (fst res) = true /\ level (fst res) = 0
        /\ punishedLetters (fst res) = []
        /\ round (fst res) = round room + 1
        /\ players (fst res) = players room1
        /\ snd res = [LoadWordSet (theme (fst res))])
    /\ handleGameRestart sid now rnd room = res
    /\ (forall sid' room' d msg,
           In (Emit d (EvGameError msg)) (snd (handleGameStart sid' now rnd room')) ->
           d = ToSocket sid' /\ msg = MSG_lobbyError
           /\ gameActive (fst (handleGameStart sid' now rnd room')) = gameActive room').
Proof.
  intros sid now rnd room Hhost Hinactive room1 res.
  assert (Hres : res = if onlineCount room1 <? 2
                       then (room1, [Emit (ToSocket sid) (EvGameError MSG_lobbyError)])
                       else startNewRound_begin rnd
                              (set_punishedLetters []
                                 (set_level 0 (set_gameActive true room1)))).
  { unfold res, handleGameStart. rewrite Hhost, eqb_refl, Hinactive. reflexivity. }
  split; [|split; [|split; [|split]]].
  - intros Hlt. apply Z.ltb_lt in Hlt. unfold room1. rewrite Hlt.
    destruct (addBot_present now room) as [Ht Hnew].
    split; [exact Ht|]. intros Hnone. now apply Hnew.
  - intros Hlt. apply Z.ltb_lt in Hlt. rewrite Hres, Hlt. split; [reflexivity|].
    cbn [fst]. unfold room1. destruct (humanOnline room <? 2); [|assumption].
    now rewrite addBot_gameActive.
  - intros Hge. apply Z.ltb_ge in Hge. rewrite Hres, Hge.
    do 3 (split; [reflexivity|]).
    split; [|split; reflexivity].
    cbn. unfold room1. destruct (humanOnline room <? 2); [|reflexivity].
    unfold addBot. now destruct (truthy_str (botId room)).
  - unfold res, handleGameRestart, handleGameStart. reflexivity.
  - intros sid' room' d msg. apply start_errors_generic.
Qed.

Lemma game_start_rules_witness :
  (let res := handleGameStart "a" 1000 2 soloLobby in
   botId (fst res) = Some "bot-1000"
   /\ gameActive (fst res) = true /\ level (fst res) = 0
   /\ punishedLetters (fst res) = [])
  /\ handleGameStart "a" 1000 2 strandedLobby
     = (strandedLobby, [Emit (ToSocket "a") (EvGameError MSG_lobbyError)]).
Proof.
  destruct (game_start_rules "a" 1000 2 soloLobby eq_refl eq_refl)
    as [_ [_ [Hstart _]]].
  destruct (game_start_rules "a" 1000 2 strandedLobby eq_refl eq_refl)
    as [_ [Herr _]].
  split.
  - cbv zeta. split; [reflexivity|].
    destruct Hstart as [Ha [Hl [Hp _]]]; [vm_compute; discriminate|].
    split; [exact Ha | split; [exact Hl | exact Hp]].
  - destruct Herr as [Hres _]; [vm_compute; reflexivity|]. exact Hres.
Defined.

(** ** bot.js: one bot per room *)

Section Roster.
Import JsMapFacts.

Lemma sameRoster_refl r : sameRoster r r.
Proof. split; reflexivity. Qed.

Lemma sameRoster_trans r1 r2 r3 : sameRoster r1 r2 -> sameRoster r2 r3 -> sameRoster r1 r3.
Proof. intros [K1 B1] [K2 B2]. split; congruence. Qed.

Lemma botInv_sameRoster r r' : sameRoster r r' -> botInv r -> botInv r'.
Proof.
  intros [Hk Hb] [Hwf Hbot]. unfold botInv, JsMap.wf. rewrite Hk, Hb.
  split; [exact Hwf|].
  destruct Hbot as [Hn|[Ht Hh]]; [now left | right].
  split; [exact Ht|]. apply has_In. rewrite Hk. now apply has_In.
Qed.

Lemma keys_fold_update {V : Type} (f : Id -> V -> V) (l : list Id) (m : list (Id * V)) :
  JsMap.keys (fold_left (fun acc k => JsMap.update k (f k) acc) l m) = JsMap.keys m.
Proof.
  revert m. induction l as [|a l IH]; intros m; simpl; [reflexivity|].
  now rewrite IH, keys_update.
Qed.

Lemma sameRoster_voteOff room sid : sameRoster room (voteOff room sid).
Proof.
  unfold voteOff. cbn.
  destruct (JsMap.get sid (submissions room)) as [w|];
    [destruct (String.eqb w "")|]; split; cbn; try reflexivity; apply keys_update.
Qed.

Lemma sameRoster_fold_voteOff l room : sameRoster room (fold_left voteOff l room).
Proof.
  revert room. induction l as [|a l IH]; intros room; simpl.
  - apply sameRoster_refl.
  - eapply sameRoster_trans; [apply sameRoster_voteOff | apply IH].
Qed.

Lemma keys_markDead ids ps : JsMap.keys (markDead ids ps) = JsMap.keys ps.
Proof. apply (keys_fold_update (fun _ => set_alive false)). Qed.

Lemma keys_award room elim t0 dur l ps :
  JsMap.keys (fold_left (awardOne room elim t0 dur) l ps) = JsMap.keys ps.
Proof.
  revert ps. induction l as [|a l IH]; intros ps; simpl; [reflexivity|].
  rewrite IH. unfold awardOne.
  destruct (JsSet.has a elim); [reflexivity|].
  destruct (JsMap.get a (submissionTimes room)) as [ts|]; [|reflexivity].
  destruct (ts =? 0); [reflexivity | apply keys_update].
Qed.

Lemma keys_awardScores room elim :
  JsMap.keys (awardScores room elim) = JsMap.keys (players room).
Proof.
  unfold awardScores.
  destruct (turnStartedAt room) as [t0|]; [|reflexivity].
  destruct (currentTurnDuration room) as [dur|]; [|reflexivity].
  destruct (negb (t0 =? 0) && negb (dur =? 0)); [apply keys_award | reflexivity].
Qed.

Lemma sameRoster_endRound now w room : sameRoster room (fst (endRound now w room)).
Proof.
  unfold endRound.
  destruct (truthy_str w && JsMap.has w (players room));
    [destruct (JsMap.get w (players room))|];
    (split; [|reflexivity]); cbn [fst players set_players touchRoom set_lastActivity];
    rewrite !keys_map_values, ?keys_update; reflexivity.
Qed.

Lemma sameRoster_scheduleBot room : sameRoster room (fst (scheduleBotSubmission room)).
Proof.
  unfold scheduleBotSubmission.
  destruct (botSubmit (timers room)); cbn;
    (destruct (truthy_str (botId room)); cbn; [|split; reflexivity]);
    (destruct (JsMap.get (botId room) (players room)) as [bp|]; [|split; reflexivity]);
    (destruct (alive bp); cbn; [|split; reflexivity]);
    (destruct (negb (accepting room) || negb (truthy_num (currentTurnDuration room)));
     split; reflexivity).
Qed.

Lemma sameRoster_finalizeTurn now elim room :
  sameRoster room (fst (finalizeTurn now elim room)).
Proof. split; cbn; [apply keys_awardScores | reflexivity]. Qed.

Lemma sameRoster_proceed elim room : sameRoster room (fst (proceedAfterPopup elim room)).
Proof.
  unfold proceedAfterPopup.
  match goal with |- context [if ?c then _ else _] => destruct c end;
    cbn [fst]; (eapply sameRoster_trans; [apply (sameRoster_fold_voteOff elim)|]);
    split; reflexivity.
Qed.

Lemma sameRoster_finalizeVote room : sameRoster room (fst (finalizeVote room)).
Proof.
  unfold finalizeVote. destruct (votingActive room); cbn [negb fst]; [|apply sameRoster_refl].
  destruct (voteEnd (timers (set_votingActive false room)));
    match goal with
    | |- context [match ?l with [] => _ | _ :: _ => _ end] => destruct l
    end;
    try (split; reflexivity);
    match goal with
    | |- context [proceedAfterPopup ?e ?r] =>
        pose proof (sameRoster_proceed e r) as Hp;
        destruct (proceedAfterPopup e r) as [r2 fx2]; cbn [fst] in *;
        destruct Hp as [Hk Hb]; split; [rewrite Hk | rewrite Hb]; reflexivity
    end.
Qed.

Lemma sameRoster_endTurn now room : sameRoster room (fst (endTurn now room)).
Proof.
  unfold endTurn.
  match goal with
  | |- context [match ?l with [] => _ | _ :: _ => _ end] => destruct l
  end.
  - match goal with
    | |- context [finalizeTurn ?n ?e ?r] =>
        pose proof (sameRoster_finalizeTurn n e r) as Hp;
        destruct (finalizeTurn n e r) as [r2 fx2]; cbn [fst] in *;
        destruct Hp as [Hk Hb];
        split; [rewrite Hk, players_set_players; apply keys_markDead
               | rewrite Hb; reflexivity]
    end.
  - cbn [fst]. split; [rewrite players_set_players; apply keys_markDead | reflexivity].
Qed.

Lemma sameRoster_startNextTurn now draws room room' fx :
  startNextTurn now draws room = Some (room', fx) -> sameRoster room room'.
Proof.
  unfold startNextTurn.
  destruct (List.length (aliveIds room) <=? 1)%nat.
  - intros [= Heq].
    match type of Heq with
    | ?e = _ => assert (Hr : room' = fst e) by (now rewrite Heq)
    end.
    rewrite Hr. apply sameRoster_endRound.
  - match goal with
    | |- context [match ?o with Some _ => _ | None => _ end] => destruct o as [letters|]
    end; [|discriminate].
    match goal with
    | |- context [scheduleBotSubmission ?r] =>
        pose proof (sameRoster_scheduleBot r) as Hp;
        destruct (scheduleBotSubmission r) as [r3 fx3]
    end.
    intros [= <- _]. cbn [fst] in Hp. destruct Hp as [Hk Hb].
    split.
    + change (players (touchRoom now r3)) with (players r3). now rewrite Hk.
    + change (botId (touchRoom now r3)) with (botId r3). now rewrite Hb.
Qed.

Lemma sameRoster_botSubmit now room : sameRoster room (fst (botSubmitFire now room)).
Proof.
  unfold botSubmitFire. destruct (accepting room); cbn [negb]; [|apply sameRoster_refl].
  destruct (pickBotWord room) as [w|]; [|apply sameRoster_refl].
  destruct (String.eqb w ""); [apply sameRoster_refl|].
  destruct (JsMap.has (botId room) (submissions room)); split; reflexivity.
Qed.

Lemma sameRoster_vote sid target now room :
  sameRoster room (fst (handleTurnVote sid target now room)).
Proof.
  unfold handleTurnVote.
  repeat match goal with
         | |- context [if ?c then (room, []) else _] =>
             destruct c; [apply sameRoster_refl|]
         end.
  match goal with
  | |- context [if ?c then _ else _] => destruct c; [split; reflexivity|]
  end.
  match goal with
  | |- context [if ?c then _ else _] => destruct c; [|split; reflexivity]
  end.
  cbn [fst].
  match goal with
  | |- context [voteOff ?r ?t] =>
      destruct (sameRoster_voteOff r t) as [Hk Hb];
      split;
      [ change (players (touchRoom now (voteOff r t))) with (players (voteOff r t));
        now rewrite Hk
      | change (botId (touchRoom now (voteOff r t))) with (botId (voteOff r t));
        now rewrite Hb ]
  end.
Qed.
End Roster.

Section BotInvariant.
Import JsMapFacts.

Lemma has_set_mono {V : Type} (k k' : Id) (v : V) (m : list (Id * V)) :
  JsMap.has k m = true -> JsMap.has k (JsMap.set k' v m) = true.
Proof.
  intros Hh. apply has_In. rewrite keys_set.
  apply has_In in Hh. destruct (JsMap.has k' m); [assumption|].
  apply in_or_app. now left.
Qed.

Lemma get_delete_other {V : Type} (k k' : Id) (m : list (Id * V)) :
  k <> k' -> JsMap.get k' (JsMap.delete k m) = JsMap.get k' m.
Proof.
  intros Hne. induction m as [|[k0 v0] m IH]; simpl; [reflexivity|].
  eqb_case k0 k; simpl.
  - subst. eqb_case k k'; [congruence | reflexivity].
  - now rewrite IH.
Qed.

Lemma length_delete {V : Type} (k : Id) (m : list (Id * V)) :
  JsMap.has k m = true -> S (List.length (JsMap.delete k m)) = List.length m.
Proof.
  unfold JsMap.has. induction m as [|[k0 v0] m IH]; simpl; [discriminate|].
  destruct (eqb k0 k); simpl; [reflexivity|]. intros Hh. now rewrite IH.
Qed.

Lemma botInv_ext r r' :
  players r' = players r -> botId r' = botId r -> botInv r -> botInv r'.
Proof.
  intros Hp Hb. apply botInv_sameRoster. split; [now rewrite Hp | assumption].
Qed.

Lemma botInv_createRoom now : botInv (createRoom now).
Proof. split; [constructor | now left]. Qed.

Lemma botInv_addBot now room : botInv room -> botInv (addBot now room).
Proof.
  intros Hinv. unfold addBot.
  destruct (truthy_str (botId room)) eqn:E; [exact Hinv|].
  destruct Hinv as [Hwf Hbot]. split; cbn.
  - now apply wf_set.
  - right. split; [reflexivity|]. unfold JsMap.has. now rewrite get_set_same.
Qed.

Lemma botInv_removeBot room : botInv room -> botInv (removeBot room).
Proof.
  intros Hinv. unfold removeBot.
  destruct (truthy_str (botId room)) eqn:E; [|exact Hinv].
  destruct Hinv as [Hwf Hbot].
  split; cbn; [now apply wf_delete | now left].
Qed.

Lemma addBot_noop now room : truthy_str (botId room) = true -> addBot now room = room.
Proof. intros Ht. unfold addBot. now rewrite Ht. Qed.

Lemma addBot_idempotent now now' room :
  addBot now' (addBot now room) = addBot now room.
Proof. apply addBot_noop. apply addBot_present. Qed.

Lemma botInv_if (c : bool) r r' : botInv r -> botInv r' -> botInv (if c then r else r').
Proof. now destruct c. Qed.

Lemma botInv_touch now r : botInv r -> botInv (touchRoom now r).
Proof. now apply botInv_ext. Qed.

Lemma botInv_set_hostId h r : botInv r -> botInv (set_hostId h r).
Proof. now apply botInv_ext. Qed.

Lemma botInv_set_player k v room :
  botInv room -> botInv (set_players (JsMap.set k v (players room)) room).
Proof.
  intros [Hwf Hbot]. split; cbn; [now apply wf_set|].
  destruct Hbot as [Hn|[Ht Hh]]; [now left | right].
  split; [exact Ht | now apply has_set_mono].
Qed.

Lemma botInv_update_player k f room :
  botInv room -> botInv (set_players (JsMap.update k f (players room)) room).
Proof.
  apply botInv_sameRoster. split; cbn [players set_players botId];
    [apply keys_update | reflexivity].
Qed.

Lemma botInv_maybe_addBot (c : bool) now room :
  botInv room -> botInv (if c then addBot now room else room).
Proof. destruct c; [apply botInv_addBot | auto]. Qed.
End BotInvariant.

Section BotMachine.
Context `{StringBuiltins}.
Import JsMapFacts.

Lemma botInv_join sid nm hasAck now room :
  botInv room -> botInv (fst (handlePlayerJoin sid nm hasAck now room)).
Proof.
  intros Hinv. unfold handlePlayerJoin. cbn [fst].
  apply botInv_touch. apply botInv_if; [apply botInv_removeBot|];
    (apply botInv_if; [apply botInv_set_hostId|]; now apply botInv_set_player).
Qed.

Lemma botInv_start sid now rnd room :
  botInv room -> botInv (fst (handleGameStart sid now rnd room)).
Proof.
  intros Hinv. unfold handleGameStart.
  destruct (eqb (Some sid) (hostId room)); cbn [negb fst]; [|exact Hinv].
  destruct (gameActive room); [exact Hinv|].
  pose proof (botInv_maybe_addBot (humanOnline room <? 2) now room Hinv) as H1.
  destruct (onlineCount _ <? 2); [exact H1|].
  revert H1. apply botInv_ext; reflexivity.
Qed.

Lemma botInv_restart sid now rnd room :
  botInv room -> botInv (fst (handleGameRestart sid now rnd room)).
Proof. exact (botInv_start sid now rnd room). Qed.

Lemma botInv_disconnect sid now room :
  botInv room -> botInv (fst (handleDisconnect sid now room)).
Proof.
  intros Hinv. unfold handleDisconnect.
  match goal with
  | |- botInv (fst (if _ then killRoom _ ?r3 else _)) =>
      assert (H3 : botInv r3); [|destruct (onlineCount r3 =? 0); [|exact H3]]
  end.
  - apply botInv_if; [apply botInv_if; [apply botInv_addBot|]|];
      (apply botInv_if; [apply botInv_set_hostId|]; now apply botInv_update_player).
  - unfold killRoom, clearRoomTimers. cbn [fst]. revert H3. now apply botInv_ext.
Qed.

Lemma some_pair_fst {A B : Type} (a : A * B) (x : A) (y : B) :
  Some a = Some (x, y) -> x = fst a.
Proof. now intros [= ->]. Qed.

Lemma botInv_step now i room room' fx :
  step now i room = Some (room', fx) -> botInv room -> botInv room'.
Proof.
  intros Hstep Hinv.
  assert (Hsame : forall r, sameRoster room r -> botInv r)
    by (intros r Hr; now apply (botInv_sameRoster room)).
  destruct i as [sid nm hasAck|sid rnd|sid|sid rnd|sid word|sid target|sid|ws|rs|cb draws];
    [..|destruct cb as [| |elim| |elim| |]]; cbn [step] in Hstep;
    try (apply some_pair_fst in Hstep; subst room').
  - destruct nm as [nm|]; [now apply botInv_join | exact Hinv].
  - now apply botInv_start.
  - unfold handleGameMenu. destruct (negb _); [exact Hinv|].
    now apply (botInv_ext room).
  - now apply botInv_restart.
  - unfold handleTurnSubmit.
    destruct (negb (accepting room)); [exact Hinv|].
    destruct (JsMap.get (Some sid) (players room)) as [p|]; [|exact Hinv].
    destruct (negb (alive p)); [exact Hinv|].
    destruct (String.eqb _ ""); [exact Hinv|].
    destruct (_ || _); [exact Hinv|].
    destruct (negb _); [|exact Hinv].
    now apply (botInv_ext room).
  - destruct target as [target|]; [apply Hsame, sameRoster_vote | exact Hinv].
  - now apply botInv_disconnect.
  - apply Hsame. split; [|reflexivity].
    unfold startNewRound_resume. cbn [fst].
    change (players (touchRoom now ?r)) with (players r).
    cbn [players set_players set_timers]. apply keys_map_values.
  - revert Hinv. unfold killRoom, clearRoomTimers. cbn [fst]. now apply botInv_ext.
  - apply Hsame. eapply sameRoster_startNextTurn; eassumption.
  - apply Hsame, sameRoster_endTurn.
  - apply Hsame, sameRoster_finalizeTurn.
  - apply Hsame, sameRoster_finalizeVote.
  - apply Hsame, sameRoster_proceed.
  - apply Hsame, sameRoster_endRound.
  - apply Hsame, sameRoster_botSubmit.
Qed.

Lemma reachable_botInv room : reachable room -> botInv room.
Proof.
  induction 1 as [now|room now i room' fx Hreach IH Hstep].
  - apply botInv_createRoom.
  - eapply botInv_step; eassumption.
Qed.

(** C10: a room holds at most one bot at any time. In every room the
    handlers and timers can reach, the roster has one entry per id and
    [botId] is [null] or the key of exactly one roster entry. [addBot] on a
    room that has a bot changes nothing, so calling it twice is calling it
    once; [removeBot] deletes that one entry, leaves the others as they
    were, and resets [botId] to [null]. *)
Theorem one_bot_per_room :
  (forall room,
      reachable room ->
      JsMap.wf (players room)
      /\ (botId room = None \/ JsMap.count_key (botId room) (players room) = 1%nat)) /\
  (forall now room, truthy_str (botId room) = true -> addBot now room = room) /\
  (forall now now' room, addBot now' (addBot now room) = addBot now room) /\
  (forall room,
      reachable room -> botId room <> None ->
      let room' := removeBot room in
      botId room' = None
      /\ JsMap.has (botId room) (players room') = false
      /\ S (List.length (players room')) = List.length (players room)
      /\ (forall k, k <> botId room ->
                    JsMap.get k (players room') = JsMap.get k (players room))).
Proof.
  split; [|split; [|split]].
  - intros room Hreach. destruct (reachable_botInv room Hreach) as [Hwf Hbot].
    split; [exact Hwf|]. destruct Hbot as [Hn|[_ Hh]]; [now left | right].
    now apply count_key_wf.
  - exact addBot_noop.
  - exact addBot_idempotent.
  - intros room Hreach Hsome room'.
    destruct (reachable_botInv room Hreach) as [Hwf [Hn|[Ht Hh]]]; [contradiction|].
    unfold room', removeBot. rewrite Ht. cbn.
    split; [reflexivity|]. split; [now apply has_delete_same|].
    split; [now apply length_delete|].
    intros k Hk. apply get_delete_other. congruence.
Qed.

End BotMachine.

Lemma reachable_soloStarted : reachable soloStarted.
Proof.
  pose (joined := handlePlayerJoin "a" (JsString "Ana") true 10 (createRoom 0)).
  apply (reachable_step (fst joined) 1000 (InStart "a" 2) soloStarted
           (snd (handleGameStart "a" 1000 2 (fst joined)))).
  - apply (reachable_step (createRoom 0) 10 (InJoin "a" (Some (JsString "Ana")) true)
             (fst joined) (snd joined)).
    + apply reachable_init.
    + vm_compute. reflexivity.
  - vm_compute. reflexivity.
Qed.

Lemma one_bot_per_room_witness :
  botId soloStarted = Some "bot-1000"
  /\ JsMap.count_key (Some "bot-1000") (players soloStarted) = 1%nat
  /\ botId (removeBot soloStarted) = None
  /\ List.length (players (removeBot soloStarted)) = 1%nat.
Proof.
  destruct (proj1 one_bot_per_room soloStarted reachable_soloStarted) as [_ Hcount].
  destruct (proj2 (proj2 (proj2 one_bot_per_room)) soloStarted reachable_soloStarted)
    as [Hnull [_ [Hlen _]]]; [vm_compute; discriminate|].
  split; [vm_compute; reflexivity|].
  split; [destruct Hcount as [Hn|Hc]; [vm_compute in Hn; discriminate Hn | exact Hc]|].
  split; [exact Hnull|].
  apply eq_add_S. exact Hlen.
Defined.

(** ** The book-keeping invariant

    The hypotheses of the statements above on [submissions] and [votes]
    hold in every reachable room. *)

Section Books.
Import JsMapFacts.

Lemma In_set {V : Type} (k k' : Id) (v v' : V) (m : list (Id * V)) :
  In (k', v') (JsMap.set k v m) -> v' = v \/ In (k', v') m.
Proof.
  induction m as [|[k0 v0] m IH]; simpl.
  - intros [[= _ <-]|[]]. now left.
  - destruct (eqb k0 k); simpl.
    + intros [[= _ <-]|Hin]; [now left | right; now right].
    + intros [Heq|Hin]; [right; now left|].
      destruct (IH Hin) as [?|?]; [now left | right; now right].
Qed.

Lemma booksInv_ext r r' :
  submissions r' = submissions r -> votes r' = votes r -> booksInv r -> booksInv r'.
Proof. unfold booksInv. now intros -> ->. Qed.

Lemma booksInv_clear r r' :
  submissions r' = [] -> votes r' = votes r -> booksInv r -> booksInv r'.
Proof.
  unfold booksInv. intros -> -> [_ [Hv _]].
  split; [constructor | split; [exact Hv | intros k w []]].
Qed.

Lemma booksInv_votes r r' :
  submissions r' = submissions r -> JsMap.wf (votes r') -> booksInv r -> booksInv r'.
Proof. unfold booksInv. intros -> Hv [Hs [_ Hw]]. now split. Qed.

Lemma booksInv_submit k w now r :
  w <> "" -> booksInv r ->
  booksInv (set_submissionTimes (JsMap.set k now (submissionTimes r))
              (set_submissions (JsMap.set k w (submissions r)) r)).
Proof.
  intros Hne [Hs [Hv Hw]]. split; [|split]; cbn.
  - now apply wf_set.
  - exact Hv.
  - intros k' w' Hin. apply In_set in Hin as [->|Hin]; [exact Hne | eauto].
Qed.

Lemma booksInv_if (c : bool) r r' : booksInv r -> booksInv r' -> booksInv (if c then r else r').
Proof. now destruct c. Qed.

Lemma voteOff_submissions room sid : submissions (voteOff room sid) = submissions room.
Proof.
  unfold voteOff. cbn. destruct (JsMap.get sid (submissions room)) as [w|]; [|reflexivity].
  now destruct (String.eqb w "").
Qed.

Lemma fold_voteOff_submissions l room :
  submissions (fold_left voteOff l room) = submissions room.
Proof.
  revert room. induction l as [|a l IH]; intros room; simpl; [reflexivity|].
  now rewrite IH, voteOff_submissions.
Qed.

Lemma booksInv_addBot now r : booksInv r -> booksInv (addBot now r).
Proof.
  unfold addBot. destruct (truthy_str (botId r)); [auto|]. now apply booksInv_ext.
Qed.

Lemma booksInv_removeBot r : booksInv r -> booksInv (removeBot r).
Proof.
  unfold removeBot. destruct (truthy_str (botId r)); [|auto]. now apply booksInv_ext.
Qed.

Lemma booksInv_endRound now w r : booksInv r -> booksInv (fst (endRound now w r)).
Proof.
  unfold endRound.
  destruct (truthy_str w && JsMap.has w (players r));
    [destruct (JsMap.get w (players r))|]; now apply booksInv_clear.
Qed.

Lemma booksInv_finalizeTurn now elim r :
  booksInv r -> booksInv (fst (finalizeTurn now elim r)).
Proof.
  unfold finalizeTurn. cbn [fst]. now apply booksInv_ext.
Qed.

Lemma booksInv_proceed elim r : booksInv r -> booksInv (fst (proceedAfterPopup elim r)).
Proof.
  intros Hinv. unfold proceedAfterPopup.
  match goal with |- context [if ?c then _ else _] => destruct c end;
    cbn [fst]; revert Hinv; (apply booksInv_votes; [|constructor]);
    apply (fold_voteOff_submissions elim r).
Qed.

Lemma booksInv_scheduleBot r : booksInv r -> booksInv (fst (scheduleBotSubmission r)).
Proof.
  unfold scheduleBotSubmission.
  destruct (botSubmit (timers r)); cbn;
    (destruct (truthy_str (botId r)); cbn; [|now apply booksInv_ext]);
    (destruct (JsMap.get (botId r) (players r)) as [bp|]; [|now apply booksInv_ext]);
    (destruct (alive bp); cbn; [|now apply booksInv_ext]);
    (destruct (negb (accepting r) || negb (truthy_num (currentTurnDuration r)));
     now apply booksInv_ext).
Qed.
End Books.

Section BooksMachine.
Context `{StringBuiltins}.

Lemma booksInv_step now i room room' fx :
  step now i room = Some (room', fx) -> booksInv room -> booksInv room'.
Proof.
  intros Hstep Hinv.
  destruct i as [sid nm hasAck|sid rnd|sid|sid rnd|sid word|sid target|sid|ws|rs|cb draws];
    [..|destruct cb as [| |elim| |elim| |]]; cbn [step] in Hstep;
    try (apply some_pair_fst in Hstep; subst room').
  - destruct nm as [nm|]; [|exact Hinv]. cbn [onPlayerJoin].
    unfold handlePlayerJoin. cbn [fst]. apply (booksInv_ext _ _ eq_refl eq_refl).
    apply booksInv_if; [apply booksInv_removeBot|];
      (apply booksInv_if; revert Hinv; now apply booksInv_ext).
  - unfold handleGameStart.
    destruct (negb _); [exact Hinv|]. destruct (gameActive room); [exact Hinv|].
    destruct (onlineCount _ <? 2); cbn [fst].
    + apply booksInv_if; [now apply booksInv_addBot | exact Hinv].
    + apply (booksInv_clear (if humanOnline room <? 2 then addBot now room else room));
        [reflexivity | reflexivity |].
      apply booksInv_if; [now apply booksInv_addBot | exact Hinv].
  - unfold handleGameMenu. destruct (negb _); [exact Hinv|]. revert Hinv.
    now apply booksInv_ext.
  - unfold handleGameRestart.
    destruct (negb _); [exact Hinv|]. destruct (gameActive room); [exact Hinv|].
    destruct (onlineCount _ <? 2); cbn [fst].
    + apply booksInv_if; [now apply booksInv_addBot | exact Hinv].
    + apply (booksInv_clear (if humanOnline room <? 2 then addBot now room else room));
        [reflexivity | reflexivity |].
      apply booksInv_if; [now apply booksInv_addBot | exact Hinv].
  - unfold handleTurnSubmit.
    destruct (negb (accepting room)); [exact Hinv|].
    destruct (JsMap.get (Some sid) (players room)) as [p|]; [|exact Hinv].
    destruct (negb (alive p)); [exact Hinv|].
    destruct (String.eqb_spec (normalizeWord word) ""); [exact Hinv|].
    destruct (_ || _); [exact Hinv|].
    destruct (negb _); [|exact Hinv].
    cbn [fst]. apply (booksInv_ext _ _ eq_refl eq_refl).
    now apply booksInv_submit.
  - destruct target as [target|]; [|exact Hinv]. cbn [onTurnVote].
    destruct Hinv as [Hs [Hv Hw]]. unfold handleTurnVote.
    repeat match goal with
           | |- context [if ?c then (room, []) else _] =>
               destruct c; [now split|]
           end.
    set (votes1 := if negb (JsMap.has target (votes room))
                   then JsMap.set target [] (votes room) else votes room).
    assert (Hv1 : JsMap.wf votes1).
    { unfold votes1. destruct (negb _); [now apply JsMapFacts.wf_set | exact Hv]. }
    match goal with
    | |- context [if ?c then _ else _] => destruct c; [now split|]
    end.
    match goal with
    | |- context [if ?c then _ else _] => destruct c
    end; cbn [fst].
    + split; [|split].
      * change (submissions (touchRoom now ?r)) with (submissions r).
        now rewrite voteOff_submissions.
      * change (votes (touchRoom now ?r)) with (votes r).
        rewrite voteOff_votes. cbn. now apply JsMapFacts.wf_set.
      * change (submissions (touchRoom now ?r)) with (submissions r).
        now rewrite voteOff_submissions.
    + split; [exact Hs | split; [cbn; now apply JsMapFacts.wf_set | exact Hw]].
  - unfold handleDisconnect.
    match goal with
    | |- booksInv (fst (if _ then killRoom _ ?r3 else _)) =>
        assert (H3 : booksInv r3); [|destruct (onlineCount r3 =? 0); [|exact H3]]
    end.
    + apply booksInv_if; [apply booksInv_if; [apply booksInv_addBot|]|];
        (apply booksInv_if; revert Hinv; now apply booksInv_ext).
    + unfold killRoom, clearRoomTimers. cbn [fst]. revert H3. now apply booksInv_ext.
  - revert Hinv. now apply booksInv_ext.
  - revert Hinv. unfold killRoom, clearRoomTimers. cbn [fst]. now apply booksInv_ext.
  - unfold startNextTurn in Hstep.
    destruct (List.length (aliveIds room) <=? 1)%nat.
    + apply some_pair_fst in Hstep. subst room'. now apply booksInv_endRound.
    + match type of Hstep with
      | context [match ?o with Some _ => _ | None => _ end] => destruct o as [letters|]
      end; [|discriminate].
      match type of Hstep with
      | context [scheduleBotSubmission ?r] =>
          assert (Hr2 : booksInv r) by (revert Hinv; now apply booksInv_clear);
          pose proof (booksInv_scheduleBot r Hr2) as Hp;
          destruct (scheduleBotSubmission r) as [r3 fx3]
      end.
      apply some_pair_fst in Hstep. subst room'. cbn [fst] in *.
      revert Hp. now apply booksInv_ext.
  - unfold endTurn.
    match goal with
    | |- context [match ?l with [] => _ | _ :: _ => _ end] => destruct l
    end.
    + match goal with
      | |- context [finalizeTurn ?n ?e ?r] =>
          assert (Hr1 : booksInv r) by (revert Hinv; now apply booksInv_ext);
          pose proof (booksInv_finalizeTurn n e r Hr1) as Hp;
          destruct (finalizeTurn n e r) as [r2 fx2]
      end.
      exact Hp.
    + cbn [fst]. revert Hinv. now apply booksInv_ext.
  - now apply booksInv_finalizeTurn.
  - unfold finalizeVote. destruct (votingActive room); cbn [negb]; [|exact Hinv].
    destruct (voteEnd (timers (set_votingActive false room)));
      match goal with
      | |- context [match ?l with [] => _ | _ :: _ => _ end] => destruct l
      end;
      try (cbn [fst]; revert Hinv; now apply booksInv_ext);
      match goal with
      | |- context [proceedAfterPopup ?e ?r] =>
          assert (Hr1 : booksInv r) by (revert Hinv; now apply booksInv_ext);
          pose proof (booksInv_proceed e r Hr1) as Hp;
          destruct (proceedAfterPopup e r) as [r2 fx2]; exact Hp
      end.
  - now apply booksInv_proceed.
  - now apply booksInv_endRound.
  - unfold botSubmitFire. destruct (negb (accepting room)); [exact Hinv|].
    destruct (pickBotWord room) as [w|]; [|exact Hinv].
    destruct (String.eqb_spec w ""); [exact Hinv|].
    destruct (negb _); [|exact Hinv].
    cbn [fst]. now apply booksInv_submit.
Qed.

Lemma reachable_booksInv room : reachable room -> booksInv room.
Proof.
  induction 1 as [now|room now i room' fx Hreach IH Hstep].
  - split; [constructor | split; [constructor | intros k w []]].
  - eapply booksInv_step; eassumption.
Qed.
End BooksMachine.

(** * More of the code *)

(** ** wordUtils.js: [normalizeKey] and [nameVariants] *)

Section KeyFacts.

Lemma isKeyChar_not_underscore c : isKeyChar c = true -> Ascii.eqb c underscore = false.
Proof.
  intros Hk. destruct (Ascii.eqb_spec c underscore) as [->|]; [|reflexivity].
  vm_compute in Hk. discriminate.
Qed.

Lemma collapseRuns_chars b s : allChars isKeyOrUnderscore (collapseRuns b s) = true.
Proof.
  revert b. induction s as [|c s IH]; intros b; simpl; [reflexivity|].
  destruct (isKeyChar c) eqn:Ek.
  - simpl. unfold isKeyOrUnderscore at 1. rewrite Ek. simpl. apply IH.
  - destruct b; [apply IH|]. simpl. rewrite IH. reflexivity.
Qed.

Lemma collapseRuns_shape b s :
  hasDoubleUnderscore (collapseRuns b s) = false
  /\ (b = true -> startsWithUnderscore (collapseRuns b s) = false).
Proof.
  revert b. induction s as [|c s IH]; intros b; simpl; [now split|].
  destruct (isKeyChar c) eqn:Ek.
  - destruct (IH false) as [Hd _]. split.
    + simpl. destruct (collapseRuns false s) eqn:E; [reflexivity|].
      rewrite (isKeyChar_not_underscore c Ek). simpl. exact Hd.
    + intros _. simpl. now apply isKeyChar_not_underscore.
  - destruct (IH true) as [Hd Hs]. destruct b.
    + split; [exact Hd | intros _; now apply Hs].
    + split; [|discriminate].
      simpl. destruct (collapseRuns true s) eqn:E; [reflexivity|].
      specialize (Hs eq_refl). simpl in Hs.
      change (Ascii.eqb underscore underscore) with true. cbn [andb].
      rewrite Hs. exact Hd.
Qed.

Lemma dropLeading_chars P s : allChars P s = true -> allChars P (dropLeading s) = true.
Proof.
  induction s as [|c s IH]; simpl; [auto|]. intros Hc.
  apply andb_prop in Hc as [Hc Hs].
  destruct (Ascii.eqb c underscore); [auto|]. simpl. now rewrite Hc, Hs.
Qed.

Lemma hasDouble_tail c s : hasDoubleUnderscore (String c s) = false -> hasDoubleUnderscore s = false.
Proof.
  simpl. destruct s; [reflexivity|]. intros Hd. now apply orb_false_elim in Hd.
Qed.

Lemma dropLeading_shape s :
  hasDoubleUnderscore s = false ->
  hasDoubleUnderscore (dropLeading s) = false
  /\ startsWithUnderscore (dropLeading s) = false.
Proof.
  induction s as [|c s IH]; intros Hd; [now split|]. simpl.
  destruct (Ascii.eqb c underscore) eqn:Ec.
  - apply IH. now apply hasDouble_tail in Hd.
  - split; [exact Hd | exact Ec].
Qed.

Lemma dropTrailing_chars P s : allChars P s = true -> allChars P (dropTrailing s) = true.
Proof.
  induction s as [|c s IH]; simpl; [auto|]. intros Hc.
  apply andb_prop in Hc as [Hc Hs].
  destruct (String.eqb (dropTrailing s) "" && Ascii.eqb c underscore); [reflexivity|].
  simpl. now rewrite Hc, IH.
Qed.

Lemma dropTrailing_start s :
  startsWithUnderscore s = false -> startsWithUnderscore (dropTrailing s) = false.
Proof.
  destruct s as [|c s]; simpl; [auto|]. intros Hc.
  destruct (String.eqb (dropTrailing s) "" && Ascii.eqb c underscore); [reflexivity|].
  exact Hc.
Qed.

Lemma dropTrailing_head s b t :
  dropTrailing s = String b t -> exists s', s = String b s'.
Proof.
  destruct s as [|b' s']; simpl; [discriminate|].
  destruct (String.eqb (dropTrailing s') "" && Ascii.eqb b' underscore); [discriminate|].
  intros [= -> _]. now exists s'.
Qed.

Lemma dropTrailing_double s :
  hasDoubleUnderscore s = false -> hasDoubleUnderscore (dropTrailing s) = false.
Proof.
  induction s as [|c s IH]; intros Hd; [reflexivity|].
  pose proof (hasDouble_tail c s Hd) as Hd'. specialize (IH Hd').
  cbn [dropTrailing].
  destruct (String.eqb_spec (dropTrailing s) "") as [E|E]; cbn [andb].
  - destruct (Ascii.eqb c underscore); [reflexivity|]. now rewrite E.
  - destruct (dropTrailing s) as [|b t] eqn:Et; [contradiction|].
    destruct (dropTrailing_head s b t Et) as [s' ->].
    change ((Ascii.eqb c underscore && Ascii.eqb b underscore)
            || hasDoubleUnderscore (String b t) = false).
    rewrite IH, orb_false_r.
    change ((Ascii.eqb c underscore && Ascii.eqb b underscore)
            || hasDoubleUnderscore (String b s') = false) in Hd.
    now apply orb_false_elim in Hd.
Qed.

Lemma dropTrailing_end s : endsWithChar underscore (dropTrailing s) = false.
Proof.
  induction s as [|c s IH]; [reflexivity|]. simpl.
  destruct (String.eqb_spec (dropTrailing s) "") as [E|E]; simpl.
  - destruct (Ascii.eqb c underscore) eqn:Ec; [reflexivity|]. rewrite E. simpl. exact Ec.
  - destruct (dropTrailing s) eqn:Et; [contradiction | exact IH].
Qed.
End KeyFacts.

Section KeyTheorems.
Context `{StringBuiltins}.

(** X1: whatever the theme or file name, and whatever the Unicode built-ins
    return, a file key is made of [a-z], [0-9] and underscores only, has no
    underscore at either end and no two underscores in a row; a falsy
    argument gives the empty key. *)
Theorem normalizeKey_shape :
  forall s,
    let key := normalizeKey s in
    allChars isKeyOrUnderscore key = true
    /\ startsWithUnderscore key = false
    /\ endsWithChar underscore key = false
    /\ hasDoubleUnderscore key = false
    /\ (truthy s = false -> key = "").
Proof.
  intros s key. unfold key, normalizeKey.
  destruct (truthy s); cbn [negb]; [|repeat split].
  set (raw := js_stripDiacritics (js_toLowerCase (js_String s))).
  destruct (collapseRuns_shape false raw) as [Hd _].
  destruct (dropLeading_shape _ Hd) as [Hd' Hs'].
  split; [|split; [|split; [|split]]].
  - apply dropTrailing_chars, dropLeading_chars, collapseRuns_chars.
  - now apply dropTrailing_start.
  - apply dropTrailing_end.
  - now apply dropTrailing_double.
  - discriminate.
Qed.
End KeyTheorems.

Lemma normalizeKey_shape_witness : normalizeKey JsNull = "".
Proof.
  apply (proj2 (proj2 (proj2 (proj2 (normalizeKey_shape JsNull))))).
  reflexivity.
Defined.

Section VariantFacts.

Lemma length_dropLast s : s <> "" -> S (String.length (dropLast s)) = String.length s.
Proof.
  induction s as [|c s IH]; [congruence|]. intros _.
  destruct s as [|c' s']; [reflexivity|].
  change (dropLast (String c (String c' s'))) with (String c (dropLast (String c' s'))).
  simpl String.length. f_equal. apply IH. discriminate.
Qed.

Lemma length_snoc s t : String.length (s ++ t) = (String.length s + String.length t)%nat.
Proof. induction s as [|c s IH]; simpl; [reflexivity | now rewrite IH]. Qed.

Lemma append_inj s t u : (s ++ t)%string = (s ++ u)%string -> t = u.
Proof. induction s as [|c s IH]; simpl; [auto|]. intros [= Heq]. auto. Qed.

Lemma endsWithChar_nonempty c s : endsWithChar c s = true -> s <> "".
Proof. destruct s; [discriminate | discriminate]. Qed.

Lemma endsWithChar_unique c d s :
  endsWithChar c s = true -> endsWithChar d s = true -> c = d.
Proof.
  induction s as [|a s IH]; [discriminate|].
  destruct s as [|b s'].
  - simpl. intros Hc Hd. apply Ascii.eqb_eq in Hc, Hd. congruence.
  - exact IH.
Qed.

Lemma neq_by_length (a b : string) : String.length a <> String.length b -> a <> b.
Proof. intros Hl ->. contradiction. Qed.

Lemma add_fresh (x : string) (l : list string) :
  ~ In x l -> JsSet.add x l = l ++ [x].
Proof.
  intros Hn. unfold JsSet.add. destruct (JsSet.has x l) eqn:E; [|reflexivity].
  apply JsSetFacts.mem_In in E. contradiction.
Qed.
End VariantFacts.

(** X2: a key always has exactly three distinct name variants, the key
    itself first: without its final "s" and with an added "x" when it ends
    in "s"; with an added "s" and without its final "x" when it ends in "x";
    with an added "s" and with an added "x" otherwise. *)
Theorem nameVariants_three :
  forall norm,
    nameVariants norm
    = (if endsWithChar "s" norm then [norm; dropLast norm; (norm ++ "x")%string]
       else if endsWithChar "x" norm then [norm; (norm ++ "s")%string; dropLast norm]
       else [norm; (norm ++ "s")%string; (norm ++ "x")%string])
    /\ NoDup (nameVariants norm)
    /\ List.length (nameVariants norm) = 3%nat.
Proof.
  intros norm.
  assert (Hs : (norm ++ "s")%string <> norm)
    by (apply neq_by_length; rewrite length_snoc; simpl; lia).
  assert (Hx : (norm ++ "x")%string <> norm)
    by (apply neq_by_length; rewrite length_snoc; simpl; lia).
  assert (Hsx : (norm ++ "s")%string <> (norm ++ "x")%string)
    by (intros E; apply append_inj in E; discriminate).
  assert (Hcut : norm <> "" ->
                 dropLast norm <> norm
                 /\ dropLast norm <> (norm ++ "s")%string
                 /\ dropLast norm <> (norm ++ "x")%string).
  { intros Hne. pose proof (length_dropLast norm Hne) as Hl.
    repeat split; apply neq_by_length; rewrite ?length_snoc; simpl; lia. }
  assert (Hform :
            nameVariants norm
            = (if endsWithChar "s" norm then [norm; dropLast norm; (norm ++ "x")%string]
               else if endsWithChar "x" norm
                    then [norm; (norm ++ "s")%string; dropLast norm]
                    else [norm; (norm ++ "s")%string; (norm ++ "x")%string])).
  { unfold nameVariants.
    destruct (endsWithChar "s" norm) eqn:Es.
    - destruct (Hcut (endsWithChar_nonempty _ _ Es)) as [H1 [H2 H3]].
      destruct (endsWithChar "x" norm) eqn:Ex.
      + pose proof (endsWithChar_unique _ _ _ Es Ex). discriminate.
      + cbn [negb]. rewrite (add_fresh (dropLast norm) [norm]) by (simpl; intuition).
        rewrite add_fresh by (simpl; intuition). reflexivity.
    - rewrite (add_fresh (norm ++ "s")%string [norm]) by (simpl; intuition).
      destruct (endsWithChar "x" norm) eqn:Ex; cbn [negb].
      + destruct (Hcut (endsWithChar_nonempty _ _ Ex)) as [H1 [H2 H3]].
        rewrite add_fresh by (simpl; intuition). reflexivity.
      + rewrite add_fresh by (simpl; intuition). reflexivity. }
  split; [exact Hform|]. rewrite Hform.
  destruct (endsWithChar "s" norm) eqn:Es; [|destruct (endsWithChar "x" norm) eqn:Ex].
  - destruct (Hcut (endsWithChar_nonempty _ _ Es)) as [H1 [H2 H3]].
    split; [|reflexivity]. repeat constructor; simpl; intuition.
  - destruct (Hcut (endsWithChar_nonempty _ _ Ex)) as [H1 [H2 H3]].
    split; [|reflexivity]. repeat constructor; simpl; intuition.
  - split; [|reflexivity]. repeat constructor; simpl; intuition.
Qed.

(** ** wordUtils.js: punished letters *)

Lemma drawLetters_spec count :
  forall draws letters res,
    NoDup letters -> (List.length letters <= count)%nat ->
    drawLetters count letters draws = Some res ->
    List.length res = count /\ NoDup res
    /\ (forall l, In l res -> In l letters \/ exists d, In d draws /\ l = letterOfDraw d).
Proof.
  induction draws as [|d draws IH]; intros letters res Hnd Hlen Hres.
  - simpl in Hres. destruct (Nat.leb_spec count (List.length letters)); [|discriminate].
    injection Hres as <-. repeat split; [lia | assumption | auto].
  - simpl in Hres. destruct (Nat.leb_spec count (List.length letters)).
    + injection Hres as <-. repeat split; [lia | assumption | auto].
    + destruct (JsSet.has (letterOfDraw d) letters) eqn:Eh.
      * destruct (IH letters res Hnd Hlen Hres) as [Hl [Hn Hin]].
        repeat split; try assumption.
        intros l Hl'. destruct (Hin l Hl') as [?|[d' [Hd' ->]]]; [now left|].
        right. exists d'. split; [now right | reflexivity].
      * assert (Hnd' : NoDup (letters ++ [letterOfDraw d])).
        { change (letters ++ [letterOfDraw d]) with
            (if false then letters else letters ++ [letterOfDraw d]).
          rewrite <- Eh. now apply JsSetFacts.NoDup_add. }
        assert (Hlen' : (List.length (letters ++ [letterOfDraw d]) <= count)%nat)
          by (rewrite length_app; simpl; lia).
        destruct (IH _ res Hnd' Hlen' Hres) as [Hl [Hn Hin]].
        repeat split; try assumption.
        intros l Hl'. destruct (Hin l Hl') as [Ha|[d' [Hd' ->]]].
        -- apply in_app_or in Ha as [?|[<-|[]]]; [now left|].
           right. exists d. split; [now left | reflexivity].
        -- right. exists d'. split; [now right | reflexivity].
Qed.

Lemma nodup_length_incl (a b : list string) :
  incl a b -> (List.length (nodup string_dec a) <= List.length (nodup string_dec b))%nat.
Proof.
  intros Hincl. apply NoDup_incl_length; [apply NoDup_nodup|].
  intros x Hx. apply nodup_In. apply Hincl. now apply nodup_In in Hx.
Qed.

(** The loop comes to its end as soon as the draws left name enough
    letters that are not drawn yet. *)
Lemma drawLetters_total count :
  forall draws letters,
    NoDup letters ->
    (count <= List.length (nodup string_dec (letters ++ map letterOfDraw draws)))%nat ->
    exists res, drawLetters count letters draws = Some res.
Proof.
  induction draws as [|d draws IH]; intros letters Hnd Hlen; simpl.
  - simpl in Hlen. rewrite app_nil_r, (nodup_fixed_point string_dec Hnd) in Hlen.
    apply Nat.leb_le in Hlen. rewrite Hlen. eauto.
  - destruct (count <=? List.length letters)%nat; [eauto|].
    destruct (JsSet.has (letterOfDraw d) letters) eqn:Eh.
    + apply IH; [exact Hnd|].
      etransitivity; [exact Hlen|]. apply nodup_length_incl.
      intros x Hx. simpl in Hx. apply in_app_or in Hx. apply in_or_app.
      destruct Hx as [Hx|[<-|Hx]]; [now left | | now right].
      left. now apply JsSetFacts.mem_In.
    + apply IH.
      * change (letters ++ [letterOfDraw d]) with
          (if false then letters else letters ++ [letterOfDraw d]).
        rewrite <- Eh. now apply JsSetFacts.NoDup_add.
      * simpl in Hlen. now rewrite <- app_assoc.
Qed.

Lemma drawLetters_needs count :
  forall draws letters res,
    drawLetters count letters draws = Some res ->
    incl res (letters ++ map letterOfDraw draws) /\ (count <= List.length res)%nat.
Proof.
  induction draws as [|d draws IH]; intros letters res Hres; simpl in Hres.
  - destruct (Nat.leb_spec count (List.length letters)); [|discriminate].
    injection Hres as <-. split; [|assumption]. intros x Hx. apply in_or_app. now left.
  - destruct (Nat.leb_spec count (List.length letters)).
    + injection Hres as <-. split; [|assumption]. intros x Hx. apply in_or_app. now left.
    + destruct (JsSet.has (letterOfDraw d) letters).
      * destruct (IH _ _ Hres) as [Hincl Hlen]. split; [|exact Hlen].
        intros x Hx. specialize (Hincl x Hx). simpl. apply in_app_or in Hincl.
        apply in_or_app. destruct Hincl; [now left | right; now right].
      * destruct (IH _ _ Hres) as [Hincl Hlen]. split; [|exact Hlen].
        intros x Hx. specialize (Hincl x Hx). simpl. rewrite <- app_assoc in Hincl.
        exact Hincl.
Qed.

Lemma letterOfDraw_lowercase d : (d < 26)%nat -> isLowercaseLetter (letterOfDraw d).
Proof.
  intros Hd. exists (ascii_of_nat (97 + d)). split; [reflexivity|].
  rewrite nat_ascii_embedding by lia. lia.
Qed.

Lemma generatePunishedLetters_total level draws :
  (exists letters, generatePunishedLetters level draws = Some letters)
  <-> (punishedCount level <= List.length (distinctLetters draws))%nat.
Proof.
  unfold generatePunishedLetters, distinctLetters. split.
  - intros [letters Hres].
    destruct (drawLetters_spec _ draws [] letters (NoDup_nil _) (Nat.le_0_l _) Hres)
      as [Hl [Hn _]].
    destruct (drawLetters_needs _ _ _ _ Hres) as [Hincl _]. simpl in Hincl.
    rewrite <- Hl. apply NoDup_incl_length; [exact Hn|].
    intros x Hx. apply nodup_In. now apply Hincl.
  - intros Hlen. apply drawLetters_total; [constructor | exact Hlen].
Qed.

(** X3: the loop that draws the punished letters comes to its end exactly
    when the draws name as many different letters as the level asks for:
    none below level 10, one at levels 10-12, two at levels 13-15 and three
    from level 16 on. Its result then has exactly that many letters, all
    different, each the letter of one of the draws, and each a lowercase
    letter a-z when the draws are below 26, as [Math.floor(Math.random() *
    26)] is. Below level 10 no draw is consumed. *)
Theorem generatePunishedLetters_spec :
  (forall level draws,
      (exists letters, generatePunishedLetters level draws = Some letters)
      <-> (punishedCount level <= List.length (distinctLetters draws))%nat) /\
  (forall level,
      punishedCount level
      = (if level <? 10 then 0%nat else if level <? 13 then 1%nat
         else if level <? 16 then 2%nat else 3%nat)) /\
  (forall level draws letters,
      generatePunishedLetters level draws = Some letters ->
      NoDup letters
      /\ List.length letters = punishedCount level
      /\ (forall l, In l letters -> exists d, In d draws /\ l = letterOfDraw d)
      /\ (Forall (fun d => (d < 26)%nat) draws ->
          forall l, In l letters -> isLowercaseLetter l)) /\
  (forall level draws, level < 10 -> generatePunishedLetters level draws = Some []).
Proof.
  split; [exact generatePunishedLetters_total|]. split; [|split].
  - intros level. unfold punishedCount.
    destruct (Z.leb_spec 16 level), (Z.leb_spec 13 level), (Z.leb_spec 10 level),
      (Z.ltb_spec level 10), (Z.ltb_spec level 13), (Z.ltb_spec level 16);
      try lia; reflexivity.
  - intros level draws letters Hres. unfold generatePunishedLetters in Hres.
    destruct (drawLetters_spec _ draws [] letters (NoDup_nil _) (Nat.le_0_l _) Hres)
      as [Hl [Hn Hin]].
    assert (Hfrom : forall l, In l letters -> exists d, In d draws /\ l = letterOfDraw d).
    { intros l Hl'. destruct (Hin l Hl') as [[]|?]. assumption. }
    split; [exact Hn|]. split; [exact Hl|]. split; [exact Hfrom|].
    intros Hsmall l Hl'. destruct (Hfrom l Hl') as [d [Hd ->]].
    apply letterOfDraw_lowercase. rewrite Forall_forall in Hsmall. now apply Hsmall.
  - intros level draws Hlt. unfold generatePunishedLetters, punishedCount.
    destruct (Z.leb_spec 16 level), (Z.leb_spec 13 level), (Z.leb_spec 10 level);
      try lia.
    destruct draws; reflexivity.
Qed.

Lemma generatePunishedLetters_spec_witness :
  (exists letters, generatePunishedLetters 17 [2; 2; 0; 2; 10]%nat = Some letters)
  /\ isLowercaseLetter "k"
  /\ generatePunishedLetters 9 [7%nat] = Some [].
Proof.
  split; [|split].
  - apply (proj2 (proj1 generatePunishedLetters_spec 17 [2; 2; 0; 2; 10]%nat)).
    vm_compute. lia.
  - apply (proj1 (proj2 (proj2 generatePunishedLetters_spec)) 17 [2; 2; 0; 2; 10]%nat
             ["c"; "a"; "k"]%string eq_refl).
    + repeat constructor.
    + right. right. left. reflexivity.
  - apply (proj2 (proj2 (proj2 generatePunishedLetters_spec)) 9 [7%nat]). lia.
Defined.

(** ** timers.js: the default table *)

Section DefaultTable.
Local Open Scope Q_scope.

Lemma inject_Z_sub a b : inject_Z (a - b) == inject_Z a - inject_Z b.
Proof. unfold Z.sub. now rewrite inject_Z_plus, inject_Z_opp. Qed.

Lemma getTurnDuration_closed level :
  getTurnDuration level == inject_Z (duration45 level) / 45.
Proof.
  unfold getTurnDuration, getTurnDuration_of, levelRanges, duration45.
  cbn [getTurnDuration_loop start end_ startSec endSec last].
  destruct (Z.ltb_spec level 1); [vm_compute; reflexivity|].
  destruct (Z.leb_spec 1 level); [|lia].
  destruct (Z.leb_spec level 10); cbn [andb].
  - change (10 - 1 =? 0)%Z with false. cbn iota.
    rewrite inject_Z_mult, !inject_Z_sub, inject_Z_mult. field.
  - destruct (Z.ltb_spec level 10); [lia|].
    destruct (Z.leb_spec 10 level); [|lia].
    destruct (Z.leb_spec level 15); cbn [andb].
    + change (15 - 10 =? 0)%Z with false. cbn iota.
      destruct (Z.leb_spec level 20); [|lia].
      rewrite inject_Z_mult, !inject_Z_sub, inject_Z_mult. field.
    + destruct (Z.ltb_spec level 15); [lia|].
      destruct (Z.leb_spec 15 level); [|lia].
      destruct (Z.leb_spec level 20); cbn [andb].
      * change (20 - 15 =? 0)%Z with false. cbn iota.
        rewrite inject_Z_mult, !inject_Z_sub, inject_Z_mult. field.
      * vm_compute. reflexivity.
Qed.

Lemma duration45_bounds level : (180 <= duration45 level <= 450)%Z.
Proof.
  unfold duration45.
  destruct (Z.ltb_spec level 1); [lia|].
  destruct (Z.leb_spec level 10); [lia|].
  destruct (Z.leb_spec level 20); lia.
Qed.

Lemma duration45_mono l l' : (l <= l')%Z -> (duration45 l' <= duration45 l)%Z.
Proof.
  intros Hle. unfold duration45.
  destruct (Z.ltb_spec l 1), (Z.ltb_spec l' 1),
    (Z.leb_spec l 10), (Z.leb_spec l' 10),
    (Z.leb_spec l 20), (Z.leb_spec l' 20); lia.
Qed.

Lemma over45_le x y : (x <= y)%Z -> inject_Z x / 45 <= inject_Z y / 45.
Proof.
  intros Hle. unfold Qle, Qdiv, Qmult, Qinv, inject_Z. simpl. lia.
Qed.
End DefaultTable.

(** X4: with the default table every turn lasts between 4 s and 10 s
    (4000 to 10000 ms once rounded), whatever the level, and a higher level
    never gets a longer turn. *)
Theorem default_turn_duration_bounds :
  forall level,
    (4 <= getTurnDuration level)%Q /\ (getTurnDuration level <= 10)%Q
    /\ 4000 <= turnMs_of level <= 10000
    /\ (forall level', level <= level' ->
                       (getTurnDuration level' <= getTurnDuration level)%Q).
Proof.
  intros level.
  pose proof (duration45_bounds level) as [Hlo Hhi].
  assert (H4 : (4 <= getTurnDuration level)%Q).
  { rewrite getTurnDuration_closed.
    setoid_replace 4%Q with (inject_Z 180 / 45)%Q by (vm_compute; reflexivity).
    now apply over45_le. }
  assert (H10 : (getTurnDuration level <= 10)%Q).
  { rewrite getTurnDuration_closed.
    setoid_replace 10%Q with (inject_Z 450 / 45)%Q by (vm_compute; reflexivity).
    now apply over45_le. }
  split; [exact H4|]. split; [exact H10|]. split.
  - unfold turnMs_of, Math_round. split.
    + change 4000 with (Qfloor (4 * 1000 + (1 # 2))%Q).
      apply Qfloor_resp_le. apply Qplus_le_compat; [|apply Qle_refl].
      apply Qmult_le_compat_r; [exact H4 | discriminate].
    + change 10000 with (Qfloor (10 * 1000 + (1 # 2))%Q).
      apply Qfloor_resp_le. apply Qplus_le_compat; [|apply Qle_refl].
      apply Qmult_le_compat_r; [exact H10 | discriminate].
  - intros level' Hle. rewrite !getTurnDuration_closed.
    apply over45_le. now apply duration45_mono.
Qed.

Lemma default_turn_duration_bounds_witness :
  (getTurnDuration 14 <= getTurnDuration 7)%Q.
Proof.
  apply (proj2 (proj2 (proj2 (default_turn_duration_bounds 7))) 14). lia.
Defined.

(** ** bot.js: the bot's word and its timer *)

Section BotWord.
Import JsMapFacts.

Lemma botWordEligible_spec room w :
  botWordEligible room w = true <->
  ~ In w (usedWords room)
  /\ JsMap.has (botId room) (submissions room) = false
  /\ hasPunished room w = false
  /\ (forall k w', In (k, w') (submissions room) -> w' <> w).
Proof.
  unfold botWordEligible, hasPunished.
  rewrite !andb_true_iff, !negb_true_iff. split.
  - intros [[[Hu Hb] Hp] Hs]. repeat split; try assumption.
    + intros Hin. apply JsSetFacts.mem_In in Hin. congruence.
    + intros k w' Hin ->.
      assert (Hex : existsb (fun e : Id * string => String.eqb (snd e) w) (submissions room)
                    = true).
      { apply existsb_exists. exists (k, w). split; [assumption | apply String.eqb_refl]. }
      congruence.
  - intros [Hu [Hb [Hp Hs]]]. repeat split; try assumption.
    + destruct (JsSet.has w (usedWords room)) eqn:E; [|reflexivity].
      apply JsSetFacts.mem_In in E. contradiction.
    + destruct (existsb _ (submissions room)) eqn:E; [|reflexivity].
      apply existsb_exists in E as [[k w'] [Hin Heq]]. cbn in Heq.
      apply String.eqb_eq in Heq. exfalso. now apply (Hs k w').
Qed.

Lemma find_first {A : Type} (f : A -> bool) pre x post :
  f x = true -> (forall y, In y pre -> f y = false) -> find f (pre ++ x :: post) = Some x.
Proof.
  intros Hx. induction pre as [|a pre IH]; intros Hpre; simpl.
  - now rewrite Hx.
  - rewrite (Hpre a (or_introl eq_refl)). apply IH. intros y Hy. apply Hpre. now right.
Qed.
End BotWord.

(** X5: the word the bot picks is in the word set, is not a used word, has
    no punished letter and was submitted by nobody this turn, so it passes
    the three tests a player's word has to pass; it is the first such word
    of the word set; and the bot picks nothing once it has a submission. *)
Theorem pickBotWord_spec :
  forall room,
    (forall w,
        pickBotWord room = Some w ->
        In w (wordSet room)
        /\ alreadyUsed room w = false /\ notInBank room w = false
        /\ hasPunished room w = false
        /\ (forall k w', In (k, w') (submissions room) -> w' <> w)
        /\ JsMap.has (botId room) (submissions room) = false) /\
    (forall pre w post,
        wordSet room = pre ++ w :: post ->
        botWordEligible room w = true ->
        (forall x, In x pre -> botWordEligible room x = false) ->
        pickBotWord room = Some w) /\
    (pickBotWord room = None <->
     forall w, In w (wordSet room) -> botWordEligible room w = false) /\
    (JsMap.has (botId room) (submissions room) = true -> pickBotWord room = None).
Proof.
  intros room. split; [|split; [|split]].
  - intros w Hpick. unfold pickBotWord in Hpick.
    apply find_some in Hpick as [Hin Hel].
    apply botWordEligible_spec in Hel as [Hu [Hb [Hp Hs]]].
    split; [exact Hin|]. split; [|split; [|split; [exact Hp | split; assumption]]].
    + destruct (alreadyUsed room w) eqn:E; [|reflexivity].
      apply alreadyUsed_spec in E. contradiction.
    + destruct (notInBank room w) eqn:E; [|reflexivity].
      apply notInBank_spec in E as [_ Hn]. contradiction.
  - intros pre w post Hws Hel Hpre. unfold pickBotWord. rewrite Hws.
    now apply find_first.
  - unfold pickBotWord. split.
    + intros Hnone w Hin. now apply (find_none _ _ Hnone).
    + intros Hall. destruct (find (botWordEligible room) (wordSet room)) as [w|] eqn:E;
        [|reflexivity].
      apply find_some in E as [Hin Hel]. rewrite (Hall w Hin) in Hel. discriminate.
  - intros Hhas. unfold pickBotWord.
    destruct (find (botWordEligible room) (wordSet room)) as [w|] eqn:E; [|reflexivity].
    apply find_some in E as [_ Hel].
    apply botWordEligible_spec in Hel as [_ [Hb _]]. congruence.
Qed.

Lemma pickBotWord_spec_witness :
  pickBotWord bankRoom = Some "chat"
  /\ alreadyUsed bankRoom "chat" = false.
Proof.
  assert (Hpick : pickBotWord bankRoom = Some "chat").
  { apply (proj1 (proj2 (pickBotWord_spec bankRoom)) [] "chat" ["chien"; "loup"; "zebu"]).
    - reflexivity.
    - reflexivity.
    - intros x []. }
  split; [exact Hpick|].
  apply (proj1 (pickBotWord_spec bankRoom) "chat" Hpick).
Defined.

(** X6: when its timer fires, the bot does nothing if the turn no longer
    accepts submissions; otherwise it records the word it picked under its
    id with the instant of the call and announces the new count. Whatever
    happens, no submission already recorded is changed or removed, and the
    roster and the used words are left as they were. *)
Theorem botSubmitFire_spec :
  forall now room,
    let res := botSubmitFire now room in
    (accepting room = false -> res = (room, []))
    /\ (forall k w, JsMap.get k (submissions room) = Some w ->
                    JsMap.get k (submissions (fst res)) = Some w)
    /\ (forall w, accepting room = true -> pickBotWord room = Some w -> w <> "" ->
                  JsMap.get (botId room) (submissions (fst res)) = Some w
                  /\ JsMap.get (botId room) (submissionTimes (fst res)) = Some now
                  /\ snd res
                     = [Emit ToRoom (EvTurnProgress (JsMap.size (submissions room) + 1))])
    /\ players (fst res) = players room
    /\ usedWords (fst res) = usedWords room.
Proof.
  intros now room res. unfold res, botSubmitFire.
  split; [|split; [|split; [|split]]].
  - intros ->. reflexivity.
  - intros k w Hget. destruct (accepting room); cbn [negb]; [|exact Hget].
    destruct (pickBotWord room) as [bw|] eqn:Ep; [|exact Hget].
    destruct (String.eqb bw ""); [exact Hget|].
    destruct (JsMap.has (botId room) (submissions room)) eqn:Eh; cbn [negb fst];
      [exact Hget|].
    cbn. rewrite JsMapFacts.get_set_other; [exact Hget|].
    intros <-. unfold JsMap.has in Eh. rewrite Hget in Eh. discriminate.
  - intros w -> Hpick Hne.
    assert (Hb : JsMap.has (botId room) (submissions room) = false).
    { unfold pickBotWord in Hpick. apply find_some in Hpick as [_ Hel].
      now apply botWordEligible_spec in Hel as [_ [Hb _]]. }
    rewrite Hpick. cbn [negb].
    destruct (String.eqb_spec w ""); [contradiction|].
    rewrite Hb. cbn [negb fst snd]. cbn.
    rewrite !JsMapFacts.get_set_same. repeat split.
    do 3 f_equal. unfold JsMap.size.
    assert (Hk : JsMap.keys (JsMap.set (botId room) w (submissions room))
                 = JsMap.keys (submissions room) ++ [botId room])
      by (rewrite JsMapFacts.keys_set; now rewrite Hb).
    apply (f_equal (@List.length Id)) in Hk. unfold JsMap.keys in Hk.
    rewrite length_app, !length_map in Hk. rewrite Hk. simpl. lia.
  - destruct (accepting room); cbn [negb]; [|reflexivity].
    destruct (pickBotWord room) as [bw|]; [|reflexivity].
    destruct (String.eqb bw ""); [reflexivity|].
    destruct (JsMap.has (botId room) (submissions room)); reflexivity.
  - destruct (accepting room); cbn [negb]; [|reflexivity].
    destruct (pickBotWord room) as [bw|]; [|reflexivity].
    destruct (String.eqb bw ""); [reflexivity|].
    destruct (JsMap.has (botId room) (submissions room)); reflexivity.
Qed.

Lemma botSubmitFire_spec_witness :
  JsMap.get (Some "bot-30") (submissions (fst (botSubmitFire 6000 botRoom))) = Some "chat"
  /\ JsMap.get (Some "bot-30") (submissionTimes (fst (botSubmitFire 6000 botRoom)))
     = Some 6000
  /\ snd (botSubmitFire 6000 botRoom) = [Emit ToRoom (EvTurnProgress 1)].
Proof.
  apply (proj1 (proj2 (proj2 (botSubmitFire_spec 6000 botRoom))) "chat").
  - reflexivity.
  - reflexivity.
  - discriminate.
Defined.

Lemma scheduleBot_eq room :
  scheduleBotSubmission room
  = (let fx1 := match botSubmit (timers room) with
                | Some cb => [ClearTimeout cb]
                | None => []
                end in
     let room1 := match botSubmit (timers room) with
                  | Some _ => set_timers (set_botSubmit None (timers room)) room
                  | None => room
                  end in
     if truthy_str (botId room) && isAlive room (botId room) && accepting room
        && truthy_num (currentTurnDuration room)
     then (set_timers (set_botSubmit (Some CbBotSubmit) (timers room1)) room1,
           fx1 ++ [SetTimeout CbBotSubmit
                     (botDelay (match currentTurnDuration room with
                                | Some d => d
                                | None => 0
                                end))])
     else (room1, fx1)).
Proof.
  unfold scheduleBotSubmission, isAlive.
  destruct (botSubmit (timers room)) as [cb0|];
    cbn [botId players set_timers accepting currentTurnDuration];
    destruct (truthy_str (botId room)); cbn [negb andb]; try reflexivity;
    destruct (JsMap.get (botId room) (players room)) as [bp|]; try reflexivity;
    destruct (alive bp); cbn [negb andb]; try reflexivity;
    destruct (accepting room); cbn [negb andb orb]; try reflexivity;
    destruct (truthy_num (currentTurnDuration room)); reflexivity.
Qed.

(** X7: [scheduleBotSubmission] arms the bot timer exactly when the room has
    a bot whose roster entry is alive, the turn accepts submissions and has
    a duration; the delay is then half the duration, cut to 50 ms before the
    turn's end and never negative, hence strictly inside the turn. A timer
    armed earlier is always cancelled. Nothing of the room changes but its
    timers, and of the timers nothing but the bot's slot, which holds the
    new timer when one is armed and is empty otherwise. *)
Theorem scheduleBotSubmission_spec :
  forall room,
    let res := scheduleBotSubmission room in
    (forall d,
        In (SetTimeout CbBotSubmit d) (snd res) <->
        truthy_str (botId room) = true
        /\ isAlive room (botId room) = true
        /\ accepting room = true
        /\ exists dur, currentTurnDuration room = Some dur /\ dur <> 0
                       /\ d = botDelay dur)
    /\ (forall cb, botSubmit (timers room) = Some cb -> In (ClearTimeout cb) (snd res))
    /\ set_timers (timers room) (fst res) = room
    /\ set_botSubmit (botSubmit (timers room)) (timers (fst res)) = timers room
    /\ botSubmit (timers (fst res))
       = (if truthy_str (botId room) && isAlive room (botId room) && accepting room
             && truthy_num (currentTurnDuration room)
          then Some CbBotSubmit else None)
    /\ players (fst res) = players room
    /\ submissions (fst res) = submissions room
    /\ (forall dur, 0 <= botDelay dur
                    /\ (0 < dur -> botDelay dur < dur)
                    /\ (50 <= dur -> botDelay dur <= dur - 50)
                    /\ (100 <= dur -> botDelay dur = dur / 2)).
Proof.
  intros room res. unfold res. rewrite scheduleBot_eq. cbv zeta.
  set (fx1 := match botSubmit (timers room) with
              | Some cb => [ClearTimeout cb]
              | None => []
              end).
  assert (Hno : forall d, ~ In (SetTimeout CbBotSubmit d) fx1).
  { intros d. unfold fx1. destruct (botSubmit (timers room)); simpl; intuition discriminate. }
  assert (Hclear : forall cb, botSubmit (timers room) = Some cb -> In (ClearTimeout cb) fx1).
  { intros cb Hcb. unfold fx1. rewrite Hcb. now left. }
  assert (Hnum : truthy_num (currentTurnDuration room) = true <->
                 exists dur, currentTurnDuration room = Some dur /\ dur <> 0).
  { unfold truthy_num. destruct (currentTurnDuration room) as [dur|].
    - destruct (Z.eqb_spec dur 0) as [->|Hnz]; cbn [negb].
      + split; [discriminate | intros [d [[= <-] Hd]]; contradiction].
      + split; [intros _; now exists dur | reflexivity].
    - split; [discriminate | intros [d [Hd _]]; discriminate]. }
  split; [|split; [|split; [|split; [|split; [|split; [|split]]]]]].
  - intros d.
    destruct (truthy_str (botId room) && isAlive room (botId room) && accepting room
              && truthy_num (currentTurnDuration room)) eqn:Econd; cbn [snd].
    + apply andb_prop in Econd as [Econd Hn]. apply andb_prop in Econd as [Econd Hacc].
      apply andb_prop in Econd as [Hb Ha]. apply Hnum in Hn as [dur [Hd Hnz]].
      rewrite Hd, in_app_iff. split.
      * intros [Hin|[[= <-]|[]]]; [now apply Hno in Hin|].
        repeat split; try assumption. now exists dur.
      * intros [_ [_ [_ [dur' [[= <-] [_ ->]]]]]]. right. now left.
    + split; [intros Hin; now apply Hno in Hin|].
      intros [Hb [Ha [Hacc [dur [Hd [Hnz _]]]]]].
      assert (Hn : truthy_num (currentTurnDuration room) = true)
        by (apply Hnum; now exists dur).
      rewrite Hb, Ha, Hacc, Hn in Econd. discriminate.
  - intros cb Hcb.
    destruct (_ && _); cbn [snd]; [apply in_or_app; left|]; now apply Hclear.
  - destruct (_ && _); cbn [fst]; destruct (botSubmit (timers room));
      now destruct room.
  - destruct (_ && _); cbn [fst]; destruct (botSubmit (timers room)) eqn:Eb; cbn;
      try rewrite Eb; destruct (timers room) as [t1 t2 t3 t4 t5];
      unfold set_botSubmit; cbn in *; congruence.
  - destruct (_ && _); cbn [fst]; destruct (botSubmit (timers room)) eqn:Eb; cbn;
      try reflexivity; exact Eb.
  - destruct (_ && _); cbn [fst]; destruct (botSubmit (timers room)); reflexivity.
  - destruct (_ && _); cbn [fst]; destruct (botSubmit (timers room)); reflexivity.
  - intros dur. unfold botDelay.
    pose proof (Z.div_mod dur 2 ltac:(lia)) as Hdm.
    pose proof (Z.mod_pos_bound dur 2 ltac:(lia)) as Hmb.
    repeat split; intros; lia.
Qed.

Lemma scheduleBotSubmission_spec_witness :
  In (SetTimeout CbBotSubmit 5000) (snd (scheduleBotSubmission botRoom))
  /\ botDelay 60 = 10.
Proof.
  split.
  - apply (proj2 (proj1 (scheduleBotSubmission_spec botRoom) 5000)).
    split; [reflexivity|]. split; [reflexivity|]. split; [reflexivity|].
    exists 10000. split; [reflexivity|]. split; [discriminate | reflexivity].
  - destruct (proj2 (proj2 (proj2 (proj2 (proj2 (proj2 (proj2
               (scheduleBotSubmission_spec botRoom))))))) 60)
      as [_ [_ [Hcut _]]].
    assert (Hle : botDelay 60 <= 60 - 50) by (apply Hcut; lia).
    reflexivity.
Defined.

(** ** gameLogic.js: the end of a round *)

Section EndRound.
Import JsMapFacts.

Lemma get_map_snd (g : Player -> Player) (k : Id) (ps : list (Id * Player)) :
  JsMap.get k (map (fun e => (fst e, g (snd e))) ps) = option_map g (JsMap.get k ps).
Proof.
  induction ps as [|[k' p] ps IH]; simpl; [reflexivity|].
  destruct (eqb k' k); [reflexivity | exact IH].
Qed.

Lemma get_map_survivors (k : Id) (ps : list (Id * Player)) :
  JsMap.get k
    (map (fun e => (fst e, if alive (snd e) then add_score 1 (snd e) else snd e)) ps)
  = option_map (fun p => if alive p then add_score 1 p else p) (JsMap.get k ps).
Proof. exact (get_map_snd (fun p => if alive p then add_score 1 p else p) k ps). Qed.

Lemma aliveIds_all_dead (ps : list (Id * Player)) :
  map fst (filter (fun e => alive (snd e))
             (map (fun e => (fst e, set_alive false (snd e))) ps)) = [].
Proof. induction ps as [|[k p] ps IH]; simpl; [reflexivity | exact IH]. Qed.

Lemma get_has_true {V : Type} (k : Id) (v : V) (m : list (Id * V)) :
  JsMap.get k m = Some v -> JsMap.has k m = true.
Proof. unfold JsMap.has. now intros ->. Qed.

Lemma endRound_players now winnerId room :
  players (fst (endRound now winnerId room))
  = map (fun e => (fst e, set_alive false (snd e)))
      (map (fun e => (fst e, (fun p => if alive p then add_score 1 p else p) (snd e)))
         (if truthy_str winnerId && JsMap.has winnerId (players room)
          then JsMap.update winnerId (add_score 3) (players room)
          else players room)).
Proof.
  unfold endRound, JsMap.has.
  destruct (truthy_str winnerId); cbn [andb]; [|reflexivity].
  destruct (JsMap.get winnerId (players room)); reflexivity.
Qed.

Lemma endRound_winner now winnerId room :
  roundWinner (snd (endRound now winnerId room))
  = Some (if truthy_str winnerId
          then option_map (fun p => (winnerId, name p)) (JsMap.get winnerId (players room))
          else None).
Proof.
  unfold endRound, JsMap.has.
  destruct (truthy_str winnerId); cbn [andb]; [|reflexivity].
  destruct (JsMap.get winnerId (players room)); reflexivity.
Qed.

Lemma endRound_fields now winnerId room :
  let r := fst (endRound now winnerId room) in
  gameActive r = false /\ accepting r = false /\ submissions r = []
  /\ usedWords r = [] /\ theme r = None /\ turn r = 0
  /\ level r = level room /\ round r = round room /\ botId r = botId room
  /\ lastActivity r = now.
Proof.
  unfold endRound, JsMap.has.
  destruct (truthy_str winnerId); cbn [andb];
    [destruct (JsMap.get winnerId (players room))|]; repeat split.
Qed.
End EndRound.

(** X8: [endRound] gives three points to the winner when that id is in the
    roster, one more point to every player still alive, and leaves every
    other field of a player but [alive] as it was; afterwards nobody is
    alive, no game is active, nothing is accepted, the submissions and the
    used words are empty, the theme is unset and the turn counter is 0,
    while the level and the round number are kept. The round-end message
    names the winner iff the id is non-empty and in the roster. *)
Theorem endRound_spec :
  forall now winnerId room,
    let res := endRound now winnerId room in
    (forall k p,
        JsMap.get k (players room) = Some p ->
        JsMap.get k (players (fst res)) = Some (afterRound winnerId k p))
    /\ JsMap.keys (players (fst res)) = JsMap.keys (players room)
    /\ aliveIds (fst res) = []
    /\ (gameActive (fst res) = false /\ accepting (fst res) = false
        /\ submissions (fst res) = [] /\ usedWords (fst res) = []
        /\ theme (fst res) = None /\ turn (fst res) = 0)
    /\ (level (fst res) = level room /\ round (fst res) = round room)
    /\ roundWinner (snd res)
       = Some (if truthy_str winnerId
               then option_map (fun p => (winnerId, name p))
                      (JsMap.get winnerId (players room))
               else None).
Proof.
  intros now winnerId room res. unfold res.
  pose proof (endRound_fields now winnerId room) as Hf. cbv zeta in Hf.
  destruct Hf as [H1 [H2 [H3 [H4 [H5 [H6 [H7 [H8 _]]]]]]]].
  split; [|split; [|split; [|split; [|split]]]].
  - intros k p Hget. rewrite endRound_players. cbv beta.
    rewrite get_map_snd, get_map_survivors.
    unfold afterRound.
    destruct (truthy_str winnerId) eqn:Et; cbn [andb].
    + eqb_case k winnerId.
      * subst k. rewrite (get_has_true _ _ _ Hget). cbv iota.
        rewrite JsMapFacts.get_update_same, Hget. cbn.
        destruct (alive p); unfold set_alive, add_score; cbn; do 2 f_equal; lia.
      * assert (Hk : JsMap.get k (if JsMap.has winnerId (players room)
                                  then JsMap.update winnerId (add_score 3) (players room)
                                  else players room) = Some p).
        { destruct (JsMap.has winnerId (players room)); [|exact Hget].
          rewrite JsMapFacts.get_update_other by congruence. exact Hget. }
        rewrite Hk. cbn. destruct (alive p); unfold set_alive, add_score; cbn; do 2 f_equal; lia.
    + rewrite Hget. cbn. destruct (alive p); unfold set_alive, add_score; cbn; do 2 f_equal; lia.
  - rewrite endRound_players.
    rewrite !(JsMapFacts.keys_map_values).
    destruct (truthy_str winnerId && JsMap.has winnerId (players room));
      [apply JsMapFacts.keys_update | reflexivity].
  - unfold aliveIds. rewrite endRound_players. apply aliveIds_all_dead.
  - repeat split; assumption.
  - split; assumption.
  - apply endRound_winner.
Qed.

Lemma endRound_spec_witness :
  JsMap.get (Some "b")
    (players (fst (endRound 9000 (Some "b")
                     (roomWith [(Some "a", mkAlive "Ana" 5); (Some "b", mkAlive "Bob" 7);
                                (Some "c", mkDead "Cy" 7)]))))
  = Some (mkDead "Bob" 11).
Proof.
  apply (proj1 (endRound_spec 9000 (Some "b")
                  (roomWith [(Some "a", mkAlive "Ana" 5); (Some "b", mkAlive "Bob" 7);
                             (Some "c", mkDead "Cy" 7)]))
           (Some "b") (mkAlive "Bob" 7)).
  reflexivity.
Defined.

Section Scoreboard.
Import JsMapFacts.

Lemma insertScore_perm x l : Permutation (insertScore x l) (x :: l).
Proof.
  induction l as [|y l IH]; simpl; [apply Permutation_refl|].
  destruct (snd (fst x) <? snd (fst y)); [|apply Permutation_refl].
  eapply Permutation_trans; [apply perm_skip, IH | apply perm_swap].
Qed.

Lemma sortScores_perm l : Permutation (sortScores l) l.
Proof.
  induction l as [|x l IH]; simpl; [constructor|].
  eapply Permutation_trans; [apply insertScore_perm | now apply perm_skip].
Qed.

Lemma descending_cons a l :
  descending (a :: l) = true <->
  descending l = true /\ match l with [] => True | b :: _ => rowScore b <= rowScore a end.
Proof.
  destruct l as [|b l]; simpl.
  - tauto.
  - rewrite andb_true_iff, Z.leb_le. tauto.
Qed.

Lemma insertScore_desc x l : descending l = true -> descending (insertScore x l) = true.
Proof.
  induction l as [|y l IH]; intros Hd; [reflexivity|].
  simpl. change (snd (fst x)) with (rowScore x). change (snd (fst y)) with (rowScore y).
  destruct (Z.ltb_spec (rowScore x) (rowScore y)).
  - apply descending_cons in Hd as [Hd Hy]. apply descending_cons.
    split; [now apply IH|].
    destruct l as [|z l]; simpl.
    + lia.
    + change (snd (fst x)) with (rowScore x). change (snd (fst z)) with (rowScore z).
      destruct (Z.ltb_spec (rowScore x) (rowScore z)); [exact Hy | lia].
  - apply descending_cons. split; [exact Hd | exact H].
Qed.

Lemma sortScores_desc l : descending (sortScores l) = true.
Proof. induction l as [|x l IH]; simpl; [reflexivity | now apply insertScore_desc]. Qed.

Lemma endRound_scoreboard now winnerId room :
  scoreboardOf (snd (endRound now winnerId room))
  = Some (sortScores
            (map (fun e => (fst e, name (snd e), score (snd e), online (snd e)))
               (map (fun e => (fst e, if alive (snd e) then add_score 1 (snd e) else snd e))
                  (if truthy_str winnerId && JsMap.has winnerId (players room)
                   then JsMap.update winnerId (add_score 3) (players room)
                   else players room)))).
Proof.
  unfold endRound, JsMap.has.
  destruct (truthy_str winnerId); cbn [andb]; [|reflexivity].
  destruct (JsMap.get winnerId (players room)); reflexivity.
Qed.
End Scoreboard.

(** X9: the scoreboard [endRound] sends with [game:end] lists every roster
    entry exactly once, offline players included, in descending order of
    score, and each row carries the player's name, connection state and
    score after the round's points were added. *)
Theorem endRound_scoreboard_sorted :
  forall now winnerId room,
    exists scores,
      scoreboardOf (snd (endRound now winnerId room)) = Some scores
      /\ descending scores = true
      /\ Permutation (map rowId scores) (JsMap.keys (players room))
      /\ (JsMap.wf (players room) ->
          forall row, In row scores ->
                      exists p, JsMap.get (rowId row) (players room) = Some p
                                /\ row = (rowId row, name p,
                                          score (afterRound winnerId (rowId row) p),
                                          online p)).
Proof.
  intros now winnerId room. eexists. split; [apply endRound_scoreboard|].
  set (upd := if truthy_str winnerId && JsMap.has winnerId (players room)
              then JsMap.update winnerId (add_score 3) (players room)
              else players room).
  set (ps2 := map (fun e : Id * Player =>
                     (fst e, if alive (snd e) then add_score 1 (snd e) else snd e)) upd).
  assert (Hkeys : JsMap.keys ps2 = JsMap.keys (players room)).
  { unfold ps2. rewrite JsMapFacts.keys_map_values. unfold upd.
    destruct (_ && _); [apply JsMapFacts.keys_update | reflexivity]. }
  split; [apply sortScores_desc|]. split.
  - eapply Permutation_trans; [apply Permutation_map, sortScores_perm|].
    rewrite map_map. cbn [rowId fst]. rewrite <- Hkeys. apply Permutation_refl.
  - intros Hwf row Hin.
    apply (Permutation_in _ (sortScores_perm _)) in Hin.
    apply in_map_iff in Hin as [[k p2] [<- Hin]]. cbn [rowId fst snd].
    assert (Hwf2 : JsMap.wf ps2) by (unfold JsMap.wf; now rewrite Hkeys).
    apply (JsMapFacts.In_get _ _ _ Hwf2) in Hin.
    unfold ps2 in Hin. rewrite get_map_survivors in Hin.
    destruct (JsMap.get k (players room)) as [p|] eqn:Hget.
    + exists p. split; [reflexivity|].
      assert (Hupd : JsMap.get k upd
                     = Some (if truthy_str winnerId && eqb k winnerId
                             then add_score 3 p else p)).
      { unfold upd. destruct (truthy_str winnerId); cbn [andb]; [|exact Hget].
        eqb_case k winnerId.
        - subst k. rewrite (get_has_true _ _ _ Hget).
          now rewrite JsMapFacts.get_update_same, Hget.
        - destruct (JsMap.has winnerId (players room)); [|exact Hget].
          now rewrite JsMapFacts.get_update_other by congruence. }
      rewrite Hupd in Hin. cbn in Hin. injection Hin as <-.
      unfold afterRound. destruct p as [n s a o].
      destruct (truthy_str winnerId && eqb k winnerId), a; unfold add_score; cbn;
        do 2 f_equal; lia.
    + exfalso.
      assert (Hnone : JsMap.get k upd = None).
      { apply has_get_None. apply JsMapFacts.has_false.
        replace (JsMap.keys upd) with (JsMap.keys (players room)).
        - apply JsMapFacts.has_false. unfold JsMap.has. now rewrite Hget.
        - unfold upd. destruct (_ && _); [now rewrite JsMapFacts.keys_update | reflexivity]. }
      rewrite Hnone in Hin. discriminate.
Qed.

Lemma endRound_scoreboard_sorted_witness :
  scoreboardOf
    (snd (endRound 9000 (Some "b")
            (roomWith [(Some "a", mkAlive "Ana" 5); (Some "b", mkAlive "Bob" 7);
                       (Some "c", mkDead "Cy" 7)])))
  = Some [(Some "b", "Bob", 11, true); (Some "c", "Cy", 7, true); (Some "a", "Ana", 6, true)]
  /\ exists p,
       JsMap.get (Some "c")
         (players (roomWith [(Some "a", mkAlive "Ana" 5); (Some "b", mkAlive "Bob" 7);
                             (Some "c", mkDead "Cy" 7)])) = Some p
       /\ score (afterRound (Some "b") (Some "c") p) = 7.
Proof.
  destruct (endRound_scoreboard_sorted 9000 (Some "b")
              (roomWith [(Some "a", mkAlive "Ana" 5); (Some "b", mkAlive "Bob" 7);
                         (Some "c", mkDead "Cy" 7)]))
    as [scores [Hs [_ [_ Hrows]]]].
  assert (Hscores : scores = [(Some "b", "Bob", 11, true); (Some "c", "Cy", 7, true);
                              (Some "a", "Ana", 6, true)]).
  { vm_compute in Hs. now injection Hs as <-. }
  subst scores. split; [exact Hs|].
  destruct (Hrows ltac:(repeat constructor; simpl; intuition discriminate)
              (Some "c", "Cy", 7, true) ltac:(simpl; auto))
    as [p [Hp Hrow]].
  exists p. split; [exact Hp|].
  cbn [rowId fst] in Hrow. injection Hrow as _ Hscore _. now symmetry.
Defined.

(** ** gameLogic.js: starting a turn *)

Lemma scheduleBot_fields room :
  let r := fst (scheduleBotSubmission room) in
  level r = level room /\ turn r = turn room /\ round r = round room
  /\ accepting r = accepting room /\ submissions r = submissions room
  /\ submissionTimes r = submissionTimes room
  /\ turnStartedAt r = turnStartedAt room
  /\ currentTurnDuration r = currentTurnDuration room
  /\ punishedLetters r = punishedLetters room
  /\ players r = players room /\ usedWords r = usedWords room
  /\ gameActive r = gameActive room /\ votingActive r = votingActive room.
Proof.
  cbv zeta. rewrite scheduleBot_eq. cbv zeta.
  destruct (_ && _); cbn [fst]; destruct (botSubmit (timers room)); repeat split.
Qed.

(** X10: [startNextTurn] ends the round at once when at most one player is
    alive, with that player (or nobody) as winner. Otherwise it opens a
    turn: the level and the turn counter go up by exactly one, submissions
    and their instants are cleared and accepted again, the turn starts at
    the instant of the call and lasts the duration of the new level, the
    punished letters are those of the new level (none below level 10), the
    end-of-turn timer is armed for that duration, and the roster and the
    used words are untouched. With two players alive or more the turn is
    opened exactly when the draws name as many different letters as the new
    level punishes; below level 10 that is none, so no draw is awaited. *)
Theorem startNextTurn_spec :
  forall now draws room,
    (aliveIds room = [] -> startNextTurn now draws room = Some (endRound now None room))
    /\ (forall a, aliveIds room = [a] ->
                  startNextTurn now draws room
                  = Some (endRound now (if truthy_str a then a else None) room))
    /\ (forall room' fx,
           (2 <= List.length (aliveIds room))%nat ->
           startNextTurn now draws room = Some (room', fx) ->
           level room' = level room + 1 /\ turn room' = turn room + 1
           /\ round room' = round room
           /\ accepting room' = true /\ submissions room' = []
           /\ submissionTimes room' = []
           /\ turnStartedAt room' = Some now
           /\ currentTurnDuration room' = Some (turnMs_of (level room + 1))
           /\ Some (punishedLetters room')
              = (if 10 <=? level room + 1
                 then generatePunishedLetters (level room + 1) draws else Some [])
           /\ players room' = players room /\ usedWords room' = usedWords room
           /\ In (SetTimeout CbEndTurn (turnMs_of (level room + 1))) fx)
    /\ ((2 <= List.length (aliveIds room))%nat ->
        ((exists room' fx, startNextTurn now draws room = Some (room', fx))
         <-> (punishedCount (level room + 1) <= List.length (distinctLetters draws))%nat))
    /\ ((2 <= List.length (aliveIds room))%nat -> level room + 1 < 10 ->
        exists room' fx, startNextTurn now draws room = Some (room', fx)).
Proof.
  intros now draws room. split; [|split; [|split; [|split]]].
  - intros Ha. unfold startNextTurn. now rewrite Ha.
  - intros a Ha. unfold startNextTurn. now rewrite Ha.
  - intros room' fx Hlen Hstep. unfold startNextTurn in Hstep.
    destruct (Nat.leb_spec (List.length (aliveIds room)) 1); [lia|].
    destruct (if 10 <=? level room + 1
              then generatePunishedLetters (level room + 1) draws else Some [])
      as [letters|] eqn:El; [|discriminate].
    match type of Hstep with
    | context [scheduleBotSubmission ?r] =>
        pose proof (scheduleBot_fields r) as Hf;
        destruct (scheduleBotSubmission r) as [r3 fx3]
    end.
    cbv zeta in Hf. cbn [fst] in Hf.
    destruct Hf as [H1 [H2 [H3 [H4 [H5 [H6 [H7 [H8 [H9 [H10 [H11 _]]]]]]]]]]].
    injection Hstep as <- <-.
    change (level (touchRoom now r3)) with (level r3).
    change (turn (touchRoom now r3)) with (turn r3).
    change (round (touchRoom now r3)) with (round r3).
    change (accepting (touchRoom now r3)) with (accepting r3).
    change (submissions (touchRoom now r3)) with (submissions r3).
    change (submissionTimes (touchRoom now r3)) with (submissionTimes r3).
    change (turnStartedAt (touchRoom now r3)) with (turnStartedAt r3).
    change (currentTurnDuration (touchRoom now r3)) with (currentTurnDuration r3).
    change (punishedLetters (touchRoom now r3)) with (punishedLetters r3).
    change (players (touchRoom now r3)) with (players r3).
    change (usedWords (touchRoom now r3)) with (usedWords r3).
    rewrite H1, H2, H3, H4, H5, H6, H7, H8, H9, H10, H11.
    repeat split. simpl. auto.
  - intros Hlen. unfold startNextTurn.
    destruct (Nat.leb_spec (List.length (aliveIds room)) 1); [lia|].
    destruct (Z.leb_spec 10 (level room + 1)) as [Hhigh|Hlow].
    + rewrite <- generatePunishedLetters_total. split.
      * intros [room' [fx Hstep]].
        destruct (generatePunishedLetters (level room + 1) draws) as [letters|];
          [now exists letters | discriminate].
      * intros [letters ->].
        destruct (scheduleBotSubmission _) as [r3 fx3]. eexists. eexists. reflexivity.
    + split.
      * intros _. unfold punishedCount.
        destruct (Z.leb_spec 16 (level room + 1)), (Z.leb_spec 13 (level room + 1)),
          (Z.leb_spec 10 (level room + 1)); try lia.
      * intros _. destruct (scheduleBotSubmission _) as [r3 fx3].
        eexists. eexists. reflexivity.
  - intros Hlen Hlvl. unfold startNextTurn.
    destruct (Nat.leb_spec (List.length (aliveIds room)) 1); [lia|].
    destruct (Z.leb_spec 10 (level room + 1)); [lia|].
    destruct (scheduleBotSubmission _) as [r3 fx3]. eexists. eexists. reflexivity.
Qed.

Lemma startNextTurn_spec_witness :
  (exists room' fx,
      startNextTurn 640 [] (votingRoom []) = Some (room', fx)
      /\ level room' = 2 /\ currentTurnDuration room' = Some 9778)
  /\ startNextTurn 640 []
       (roomWith [(Some "a", mkAlive "Ana" 5); (Some "b", mkDead "Bob" 7)])
     = Some (endRound 640 (Some "a")
               (roomWith [(Some "a", mkAlive "Ana" 5); (Some "b", mkDead "Bob" 7)])).
Proof.
  pose proof (startNextTurn_spec 640 [] (votingRoom [])) as [_ [_ [Hturn [_ Hruns]]]].
  assert (Hlen : (2 <= List.length (aliveIds (votingRoom [])))%nat) by (simpl; lia).
  split.
  - destruct (Hruns Hlen ltac:(simpl; lia)) as [room' [fx Hstep]].
    exists room', fx. split; [exact Hstep|].
    destruct (Hturn room' fx Hlen Hstep) as [Hl [_ [_ [_ [_ [_ [_ [Hd _]]]]]]]].
    split; [exact Hl | exact Hd].
  - apply (proj1 (proj2 (startNextTurn_spec 640 []
                           (roomWith [(Some "a", mkAlive "Ana" 5);
                                      (Some "b", mkDead "Bob" 7)])))
             (Some "a")).
    reflexivity.
Defined.

(** ** The counters across transitions *)

Section Counters.

Lemma sameCounters_refl r : sameCounters r r.
Proof. split; reflexivity. Qed.

Lemma sameCounters_trans r1 r2 r3 :
  sameCounters r1 r2 -> sameCounters r2 r3 -> sameCounters r1 r3.
Proof. intros [L1 R1] [L2 R2]. split; congruence. Qed.

Lemma sameCounters_if (c : bool) r a b :
  sameCounters r a -> sameCounters r b -> sameCounters r (if c then a else b).
Proof. now destruct c. Qed.

Lemma sameCounters_voteOff room sid : sameCounters room (voteOff room sid).
Proof.
  unfold voteOff. cbn.
  destruct (JsMap.get sid (submissions room)) as [w|];
    [destruct (String.eqb w "")|]; split; reflexivity.
Qed.

Lemma sameCounters_fold_voteOff l room : sameCounters room (fold_left voteOff l room).
Proof.
  revert room. induction l as [|a l IH]; intros room; simpl.
  - apply sameCounters_refl.
  - eapply sameCounters_trans; [apply sameCounters_voteOff | apply IH].
Qed.

Lemma sameCounters_addBot now room : sameCounters room (addBot now room).
Proof. unfold addBot. destruct (truthy_str (botId room)); split; reflexivity. Qed.

Lemma sameCounters_removeBot room : sameCounters room (removeBot room).
Proof. unfold removeBot. destruct (truthy_str (botId room)); split; reflexivity. Qed.

Lemma sameCounters_endRound now w room : sameCounters room (fst (endRound now w room)).
Proof.
  pose proof (endRound_fields now w room) as Hf. cbv zeta in Hf.
  destruct Hf as [_ [_ [_ [_ [_ [_ [Hl [Hr _]]]]]]]]. now split.
Qed.

Lemma sameCounters_scheduleBot room :
  sameCounters room (fst (scheduleBotSubmission room)).
Proof.
  pose proof (scheduleBot_fields room) as Hf. cbv zeta in Hf.
  destruct Hf as [Hl [_ [Hr _]]]. now split.
Qed.

Lemma sameCounters_finalizeTurn now elim room :
  sameCounters room (fst (finalizeTurn now elim room)).
Proof. split; reflexivity. Qed.

Lemma sameCounters_proceed elim room :
  sameCounters room (fst (proceedAfterPopup elim room)).
Proof.
  unfold proceedAfterPopup.
  match goal with |- context [if ?c then _ else _] => destruct c end;
    cbn [fst]; (eapply sameCounters_trans; [apply (sameCounters_fold_voteOff elim)|]);
    split; reflexivity.
Qed.

Lemma sameCounters_finalizeVote room : sameCounters room (fst (finalizeVote room)).
Proof.
  unfold finalizeVote. destruct (votingActive room); cbn [negb fst];
    [|apply sameCounters_refl].
  destruct (voteEnd (timers (set_votingActive false room)));
    match goal with
    | |- context [match ?l with [] => _ | _ :: _ => _ end] => destruct l
    end;
    try (split; reflexivity);
    match goal with
    | |- context [proceedAfterPopup ?e ?r] =>
        pose proof (sameCounters_proceed e r) as Hp;
        destruct (proceedAfterPopup e r) as [r2 fx2]; cbn [fst] in *;
        destruct Hp as [Hk Hb]; split; [rewrite Hk | rewrite Hb]; reflexivity
    end.
Qed.

Lemma sameCounters_endTurn now room : sameCounters room (fst (endTurn now room)).
Proof.
  unfold endTurn.
  match goal with
  | |- context [match ?l with [] => _ | _ :: _ => _ end] => destruct l
  end.
  - match goal with
    | |- context [finalizeTurn ?n ?e ?r] =>
        pose proof (sameCounters_finalizeTurn n e r) as Hp;
        destruct (finalizeTurn n e r) as [r2 fx2]; cbn [fst] in *;
        destruct Hp as [Hk Hb]; split; [rewrite Hk | rewrite Hb]; reflexivity
    end.
  - split; reflexivity.
Qed.

Lemma sameCounters_botSubmit now room : sameCounters room (fst (botSubmitFire now room)).
Proof.
  unfold botSubmitFire. destruct (accepting room); cbn [negb]; [|apply sameCounters_refl].
  destruct (pickBotWord room) as [w|]; [|apply sameCounters_refl].
  destruct (String.eqb w ""); [apply sameCounters_refl|].
  destruct (JsMap.has (botId room) (submissions room)); split; reflexivity.
Qed.

Lemma sameCounters_vote sid target now room :
  sameCounters room (fst (handleTurnVote sid target now room)).
Proof.
  unfold handleTurnVote.
  repeat match goal with
         | |- context [if ?c then (room, []) else _] =>
             destruct c; [apply sameCounters_refl|]
         end.
  match goal with
  | |- context [if ?c then _ else _] => destruct c; [split; reflexivity|]
  end.
  match goal with
  | |- context [if ?c then _ else _] => destruct c; [|split; reflexivity]
  end.
  cbn [fst].
  match goal with
  | |- context [voteOff ?r ?t] =>
      destruct (sameCounters_voteOff r t) as [Hk Hb];
      split;
      [ change (level (touchRoom now (voteOff r t))) with (level (voteOff r t));
        now rewrite Hk
      | change (round (touchRoom now (voteOff r t))) with (round (voteOff r t));
        now rewrite Hb ]
  end.
Qed.

Lemma sameCounters_disconnect sid now room :
  sameCounters room (fst (handleDisconnect sid now room)).
Proof.
  unfold handleDisconnect.
  match goal with
  | |- sameCounters room (fst (if _ then killRoom _ ?r3 else _)) =>
      assert (H3 : sameCounters room r3); [|destruct (onlineCount r3 =? 0); [|exact H3]]
  end.
  - apply sameCounters_if;
      [apply sameCounters_if;
       [eapply sameCounters_trans; [|apply sameCounters_addBot]|]|];
      (apply sameCounters_if; split; reflexivity).
  - unfold killRoom, clearRoomTimers. cbn [fst]. destruct H3 as [Hl Hr]. now split.
Qed.
End Counters.

Section CountersMachine.
Context `{StringBuiltins}.

Lemma sameCounters_join sid nm hasAck now room :
  sameCounters room (fst (handlePlayerJoin sid nm hasAck now room)).
Proof.
  unfold handlePlayerJoin. cbn [fst].
  match goal with
  | |- sameCounters room (touchRoom now ?r3) =>
      assert (H3 : sameCounters room r3); [|destruct H3 as [Hl Hr]; now split]
  end.
  apply sameCounters_if;
    [eapply sameCounters_trans; [|apply sameCounters_removeBot]|];
    (apply sameCounters_if; split; reflexivity).
Qed.

(** X11: the level only moves in two ways: a start or restart that goes
    through sets it to 0, and the start-of-turn callback adds exactly one
    when it opens a turn. The round number only moves by one, on a start or
    restart that goes through. No other action or timer changes either. *)
Theorem level_and_round_steps :
  forall now i room room' fx,
    step now i room = Some (room', fx) ->
    match i with
    | InStart _ _ | InRestart _ _ =>
        sameCounters room room'
        \/ (level room' = 0 /\ round room' = round room + 1 /\ gameActive room' = true)
    | InTimer CbStartNextTurn _ =>
        round room' = round room
        /\ (level room' = level room \/ level room' = level room + 1)
    | _ => sameCounters room room'
    end.
Proof.
  intros now i room room' fx Hstep.
  destruct i as [sid nm hasAck|sid rnd|sid|sid rnd|sid word|sid target|sid|ws|rs|cb draws];
    [..|destruct cb as [| |elim| |elim| |]]; cbn [step] in Hstep;
    try (apply some_pair_fst in Hstep; subst room').
  - destruct nm as [nm|]; [apply sameCounters_join | apply sameCounters_refl].
  - unfold handleGameStart.
    destruct (negb _); [left; apply sameCounters_refl|].
    destruct (gameActive room); [left; apply sameCounters_refl|].
    destruct (onlineCount _ <? 2); cbn [fst].
    + left. apply sameCounters_if; [apply sameCounters_addBot | apply sameCounters_refl].
    + right. repeat split. cbn.
      destruct (humanOnline room <? 2); [|reflexivity].
      now destruct (sameCounters_addBot now room) as [_ ->].
  - unfold handleGameMenu. destruct (negb _); split; reflexivity.
  - unfold handleGameRestart.
    destruct (negb _); [left; apply sameCounters_refl|].
    destruct (gameActive room); [left; apply sameCounters_refl|].
    destruct (onlineCount _ <? 2); cbn [fst].
    + left. apply sameCounters_if; [apply sameCounters_addBot | apply sameCounters_refl].
    + right. repeat split. cbn.
      destruct (humanOnline room <? 2); [|reflexivity].
      now destruct (sameCounters_addBot now room) as [_ ->].
  - unfold handleTurnSubmit.
    destruct (negb (accepting room)); [apply sameCounters_refl|].
    destruct (JsMap.get (Some sid) (players room)) as [p|]; [|apply sameCounters_refl].
    destruct (negb (alive p)); [apply sameCounters_refl|].
    destruct (String.eqb _ ""); [apply sameCounters_refl|].
    destruct (_ || _); [apply sameCounters_refl|].
    destruct (negb _); split; reflexivity.
  - destruct target as [target|]; [apply sameCounters_vote | apply sameCounters_refl].
  - apply sameCounters_disconnect.
  - split; reflexivity.
  - unfold killRoom, clearRoomTimers. split; reflexivity.
  - unfold startNextTurn in Hstep.
    destruct (List.length (aliveIds room) <=? 1)%nat.
    + apply some_pair_fst in Hstep. subst room'.
      destruct (sameCounters_endRound now
                  match aliveIds room with
                  | [] => None
                  | a :: _ => if truthy_str a then a else None
                  end room) as [Hl Hr].
      split; [exact Hr | left; exact Hl].
    + match type of Hstep with
      | context [match ?o with Some _ => _ | None => _ end] => destruct o as [letters|]
      end; [|discriminate].
      match type of Hstep with
      | context [scheduleBotSubmission ?r] =>
          destruct (sameCounters_scheduleBot r) as [Hl Hr];
          destruct (scheduleBotSubmission r) as [r3 fx3]
      end.
      apply some_pair_fst in Hstep. subst room'. cbn [fst] in *.
      split; [exact Hr | right; exact Hl].
  - apply sameCounters_endTurn.
  - apply sameCounters_finalizeTurn.
  - apply sameCounters_finalizeVote.
  - apply sameCounters_proceed.
  - apply sameCounters_endRound.
  - apply sameCounters_botSubmit.
Qed.
End CountersMachine.

Lemma level_and_round_steps_witness :
  level soloStarted = 0 /\ round soloStarted = 1.
Proof.
  pose (joined := fst (handlePlayerJoin "a" (JsString "Ana") true 10 (createRoom 0))).
  destruct (level_and_round_steps 1000 (InStart "a" 2) joined soloStarted
              (snd (handleGameStart "a" 1000 2 joined)) ltac:(vm_compute; reflexivity))
    as [[Hl Hr]|[Hl [Hr _]]].
  - exfalso. vm_compute in Hr. discriminate.
  - split; [exact Hl | exact Hr].
Defined.

(** ** Scores across transitions *)

Section Scores.
Import JsMapFacts.

Lemma scoresGrow_refl ps : scoresGrow ps ps.
Proof. intros k p Hget. exists p. split; [assumption | lia]. Qed.

Lemma scoresGrow_trans ps1 ps2 ps3 :
  scoresGrow ps1 ps2 -> scoresGrow ps2 ps3 -> scoresGrow ps1 ps3.
Proof.
  intros H12 H23 k p Hget.
  destruct (H12 k p Hget) as [p2 [Hg2 Hs2]].
  destruct (H23 k p2 Hg2) as [p3 [Hg3 Hs3]].
  exists p3. split; [assumption | lia].
Qed.

Lemma scoresGrow_update k f ps :
  (forall p, score p <= score (f p)) -> scoresGrow ps (JsMap.update k f ps).
Proof.
  intros Hf k' p Hget. eqb_case k k'.
  - subst. rewrite get_update_same, Hget. cbn. eexists. split; [reflexivity | apply Hf].
  - rewrite get_update_other by assumption. exists p. split; [assumption | lia].
Qed.

Lemma scoresGrow_map (g : Player -> Player) ps :
  (forall p, score p <= score (g p)) ->
  scoresGrow ps (map (fun e => (fst e, g (snd e))) ps).
Proof.
  intros Hg k p Hget. rewrite get_map_snd, Hget. cbn.
  eexists. split; [reflexivity | apply Hg].
Qed.

Lemma scoresGrow_fold {A : Type} (step : list (Id * Player) -> A -> list (Id * Player))
  (l : list A) ps :
  (forall acc a, scoresGrow acc (step acc a)) -> scoresGrow ps (fold_left step l ps).
Proof.
  intros Hstep. revert ps. induction l as [|a l IH]; intros ps; simpl.
  - apply scoresGrow_refl.
  - eapply scoresGrow_trans; [apply Hstep | apply IH].
Qed.

Lemma score_set_alive b p : score p <= score (set_alive b p).
Proof. cbn. lia. Qed.

Lemma speedScore_pos elapsed dur : 1 <= speedScore elapsed dur.
Proof. rewrite speedScore_clamp. apply clampScore_range. Qed.

Lemma scoresGrow_markDead ids ps : scoresGrow ps (markDead ids ps).
Proof.
  unfold markDead. apply scoresGrow_fold. intros acc a.
  apply scoresGrow_update. apply score_set_alive.
Qed.

Lemma scoresGrow_award room elim : scoresGrow (players room) (awardScores room elim).
Proof.
  unfold awardScores.
  destruct (turnStartedAt room) as [t0|]; [|apply scoresGrow_refl].
  destruct (currentTurnDuration room) as [dur|]; [|apply scoresGrow_refl].
  destruct (negb (t0 =? 0) && negb (dur =? 0)); [|apply scoresGrow_refl].
  apply scoresGrow_fold. intros acc sid. unfold awardOne.
  destruct (JsSet.has sid elim); [apply scoresGrow_refl|].
  destruct (JsMap.get sid (submissionTimes room)) as [ts|]; [|apply scoresGrow_refl].
  destruct (ts =? 0); [apply scoresGrow_refl|].
  apply scoresGrow_update. intros p. cbn.
  pose proof (speedScore_pos (ts - t0) dur). lia.
Qed.

Lemma scoresGrow_voteOff room sid : scoresGrow (players room) (players (voteOff room sid)).
Proof.
  assert (Hp : players (voteOff room sid)
               = JsMap.update sid (set_alive false) (players room)).
  { unfold voteOff. cbn. destruct (JsMap.get sid (submissions room)) as [w|]; [|reflexivity].
    now destruct (String.eqb w ""). }
  rewrite Hp. apply scoresGrow_update, score_set_alive.
Qed.

Lemma scoresGrow_fold_voteOff l room :
  scoresGrow (players room) (players (fold_left voteOff l room)).
Proof.
  revert room. induction l as [|a l IH]; intros room; simpl.
  - apply scoresGrow_refl.
  - eapply scoresGrow_trans; [apply scoresGrow_voteOff | apply IH].
Qed.

Lemma scoresGrow_endRound now w room :
  scoresGrow (players room) (players (fst (endRound now w room))).
Proof.
  rewrite endRound_players.
  eapply scoresGrow_trans; [|apply scoresGrow_map, score_set_alive].
  eapply scoresGrow_trans;
    [|apply (scoresGrow_map (fun p => if alive p then add_score 1 p else p));
      intros p; destruct (alive p); cbn; lia].
  destruct (_ && _); [|apply scoresGrow_refl].
  apply scoresGrow_update. intros p. cbn. lia.
Qed.

Lemma scoresGrow_finalizeTurn now elim room :
  scoresGrow (players room) (players (fst (finalizeTurn now elim room))).
Proof. apply scoresGrow_award. Qed.

Lemma scoresGrow_proceed elim room :
  scoresGrow (players room) (players (fst (proceedAfterPopup elim room))).
Proof.
  unfold proceedAfterPopup.
  match goal with |- context [if ?c then _ else _] => destruct c end;
    cbn [fst]; apply (scoresGrow_fold_voteOff elim room).
Qed.

Lemma scoresGrow_finalizeVote room :
  scoresGrow (players room) (players (fst (finalizeVote room))).
Proof.
  unfold finalizeVote. destruct (votingActive room); cbn [negb fst];
    [|apply scoresGrow_refl].
  destruct (voteEnd (timers (set_votingActive false room)));
    match goal with
    | |- context [match ?l with [] => _ | _ :: _ => _ end] => destruct l
    end;
    try apply scoresGrow_refl;
    match goal with
    | |- context [proceedAfterPopup ?e ?r] =>
        pose proof (scoresGrow_proceed e r) as Hp;
        destruct (proceedAfterPopup e r) as [r2 fx2]; exact Hp
    end.
Qed.

Lemma scoresGrow_endTurn now room :
  scoresGrow (players room) (players (fst (endTurn now room))).
Proof.
  unfold endTurn.
  match goal with
  | |- context [match ?l with [] => _ | _ :: _ => _ end] => destruct l
  end.
  - match goal with
    | |- context [finalizeTurn ?n ?e ?r] =>
        pose proof (scoresGrow_finalizeTurn n e r) as Hp;
        destruct (finalizeTurn n e r) as [r2 fx2]; cbn [fst] in *
    end.
    eapply scoresGrow_trans; [|exact Hp]. apply scoresGrow_markDead.
  - cbn [fst]. apply scoresGrow_markDead.
Qed.

Lemma scoresGrow_vote sid target now room :
  scoresGrow (players room) (players (fst (handleTurnVote sid target now room))).
Proof.
  unfold handleTurnVote.
  repeat match goal with
         | |- context [if ?c then (room, []) else _] =>
             destruct c; [apply scoresGrow_refl|]
         end.
  match goal with
  | |- context [if ?c then _ else _] => destruct c; [apply scoresGrow_refl|]
  end.
  match goal with
  | |- context [if ?c then _ else _] => destruct c; [|apply scoresGrow_refl]
  end.
  cbn [fst].
  match goal with
  | |- context [voteOff ?r ?t] => exact (scoresGrow_voteOff r t)
  end.
Qed.
End Scores.

Section ScoresMachine.
Context `{StringBuiltins}.

Lemma step_scoresGrow now i room room' fx :
  rosterInput i = false ->
  step now i room = Some (room', fx) ->
  scoresGrow (players room) (players room').
Proof.
  intros Hin Hstep.
  destruct i as [sid nm hasAck|sid rnd|sid|sid rnd|sid word|sid target|sid|ws|rs|cb draws];
    try discriminate;
    [..|destruct cb as [| |elim| |elim| |]]; cbn [step] in Hstep;
    try (apply some_pair_fst in Hstep; subst room').
  - unfold handleGameMenu. destruct (negb _); apply scoresGrow_refl.
  - unfold handleTurnSubmit.
    destruct (negb (accepting room)); [apply scoresGrow_refl|].
    destruct (JsMap.get (Some sid) (players room)) as [p|]; [|apply scoresGrow_refl].
    destruct (negb (alive p)); [apply scoresGrow_refl|].
    destruct (String.eqb _ ""); [apply scoresGrow_refl|].
    destruct (_ || _); [apply scoresGrow_refl|].
    destruct (negb _); apply scoresGrow_refl.
  - destruct target as [target|]; [apply scoresGrow_vote | apply scoresGrow_refl].
  - unfold startNewRound_resume. cbn [fst].
    change (players (touchRoom now ?r)) with (players r).
    cbn [players set_players set_timers].
    apply (scoresGrow_map (fun p => if online p then set_alive true p else p)).
    intros p. destruct (online p); cbn; lia.
  - unfold killRoom, clearRoomTimers. apply scoresGrow_refl.
  - unfold startNextTurn in Hstep.
    destruct (List.length (aliveIds room) <=? 1)%nat.
    + apply some_pair_fst in Hstep. subst room'. apply scoresGrow_endRound.
    + match type of Hstep with
      | context [match ?o with Some _ => _ | None => _ end] => destruct o as [letters|]
      end; [|discriminate].
      match type of Hstep with
      | context [scheduleBotSubmission ?r] =>
          pose proof (scheduleBot_fields r) as Hf;
          destruct (scheduleBotSubmission r) as [r3 fx3]
      end.
      cbv zeta in Hf. cbn [fst] in Hf.
      destruct Hf as [_ [_ [_ [_ [_ [_ [_ [_ [_ [Hp _]]]]]]]]]].
      apply some_pair_fst in Hstep. subst room'. cbn [fst].
      change (players (touchRoom now r3)) with (players r3). rewrite Hp.
      apply scoresGrow_refl.
  - apply scoresGrow_endTurn.
  - apply scoresGrow_finalizeTurn.
  - apply scoresGrow_finalizeVote.
  - apply scoresGrow_proceed.
  - apply scoresGrow_endRound.
  - unfold botSubmitFire. destruct (negb (accepting room)); [apply scoresGrow_refl|].
    destruct (pickBotWord room) as [w|]; [|apply scoresGrow_refl].
    destruct (String.eqb w ""); [apply scoresGrow_refl|].
    destruct (negb _); apply scoresGrow_refl.
Qed.

Lemma step_sameKeys now i room room' fx :
  rosterInput i = false ->
  step now i room = Some (room', fx) ->
  JsMap.keys (players room') = JsMap.keys (players room).
Proof.
  intros Hin Hstep.
  destruct i as [sid nm hasAck|sid rnd|sid|sid rnd|sid word|sid target|sid|ws|rs|cb draws];
    try discriminate;
    [..|destruct cb as [| |elim| |elim| |]]; cbn [step] in Hstep;
    try (apply some_pair_fst in Hstep; subst room').
  - unfold handleGameMenu. destruct (negb _); reflexivity.
  - unfold handleTurnSubmit.
    destruct (negb (accepting room)); [reflexivity|].
    destruct (JsMap.get (Some sid) (players room)) as [p|]; [|reflexivity].
    destruct (negb (alive p)); [reflexivity|].
    destruct (String.eqb _ ""); [reflexivity|].
    destruct (_ || _); [reflexivity|].
    destruct (negb _); reflexivity.
  - destruct target as [target|]; [apply sameRoster_vote | reflexivity].
  - unfold startNewRound_resume. cbn [fst].
    change (players (touchRoom now ?r)) with (players r).
    cbn [players set_players set_timers]. apply JsMapFacts.keys_map_values.
  - reflexivity.
  - eapply sameRoster_startNextTurn; eassumption.
  - apply sameRoster_endTurn.
  - apply sameRoster_finalizeTurn.
  - apply sameRoster_finalizeVote.
  - apply sameRoster_proceed.
  - apply sameRoster_endRound.
  - apply sameRoster_botSubmit.
Qed.

(** X12: a submission, a ballot, the word bank's answer, the janitor and
    every timer callback keep every roster entry and never lower a score:
    points are only ever added. (Joining, starting and disconnecting can
    add or replace entries and are left out.) *)
Theorem scores_never_decrease :
  forall now i room room' fx,
    rosterInput i = false ->
    step now i room = Some (room', fx) ->
    forall k p,
      JsMap.get k (players room) = Some p ->
      exists p', JsMap.get k (players room') = Some p' /\ score p <= score p'.
Proof.
  intros now i room room' fx Hin Hstep.
  exact (step_scoresGrow now i room room' fx Hin Hstep).
Qed.
End ScoresMachine.

Lemma scores_never_decrease_witness :
  exists p',
    JsMap.get (Some "a") (players (fst (endTurn 11000 chatChienRoom))) = Some p'
    /\ 0 <= score p'.
Proof.
  apply (scores_never_decrease 11000 (InTimer CbEndTurn []) chatChienRoom
           (fst (endTurn 11000 chatChienRoom)) (snd (endTurn 11000 chatChienRoom))
           eq_refl ltac:(vm_compute; reflexivity) (Some "a") (mkAlive "Ana" 0)).
  reflexivity.
Defined.

(** ** Actions that arrive too late *)

Lemma accepting_endTurn now room : accepting (fst (endTurn now room)) = false.
Proof.
  unfold endTurn.
  match goal with
  | |- context [match ?l with [] => _ | _ :: _ => _ end] => destruct l
  end; reflexivity.
Qed.

Lemma votingActive_proceed elim room :
  votingActive (fst (proceedAfterPopup elim room)) = votingActive room.
Proof.
  unfold proceedAfterPopup.
  match goal with |- context [if ?c then _ else _] => destruct c end; cbn [fst]; cbn;
    clear; revert room; (induction elim as [|a l IH]; intros room; simpl;
                         [reflexivity | now rewrite IH, voteOff_votingActive]).
Qed.

Lemma votingActive_finalizeVote room : votingActive (fst (finalizeVote room)) = false.
Proof.
  unfold finalizeVote. destruct (votingActive room) eqn:Ev; cbn [negb fst]; [|exact Ev].
  destruct (voteEnd (timers (set_votingActive false room)));
    match goal with
    | |- context [match ?l with [] => _ | _ :: _ => _ end] => destruct l
    end;
    try reflexivity;
    match goal with
    | |- context [proceedAfterPopup ?e ?r] =>
        pose proof (votingActive_proceed e r) as Hp;
        destruct (proceedAfterPopup e r) as [r2 fx2]; cbn [fst] in *;
        rewrite Hp; reflexivity
    end.
Qed.

Section LateActions.
Context `{StringBuiltins}.

(** X13: what arrives after a phase is over is a silent no-op. Once
    [endTurn] ran, a word from a player and the bot's own timer change
    nothing and emit nothing; once [finalizeVote] ran, a ballot and a second
    vote-timeout do the same; and after [endRound] neither a word nor a
    ballot is taken. *)
Theorem late_actions_are_silent :
  forall now room,
    (forall sid word now',
        handleTurnSubmit sid word now' (fst (endTurn now room))
        = (fst (endTurn now room), []))
    /\ (forall now', botSubmitFire now' (fst (endTurn now room))
                     = (fst (endTurn now room), []))
    /\ (forall sid target now',
           handleTurnVote sid target now' (fst (finalizeVote room))
           = (fst (finalizeVote room), []))
    /\ finalizeVote (fst (finalizeVote room)) = (fst (finalizeVote room), [])
    /\ (forall w sid word now',
           handleTurnSubmit sid word now' (fst (endRound now w room))
           = (fst (endRound now w room), []))
    /\ (forall w sid target now',
           votingActive room = false ->
           handleTurnVote sid target now' (fst (endRound now w room))
           = (fst (endRound now w room), [])).
Proof.
  intros now room. split; [|split; [|split; [|split; [|split]]]].
  - intros sid word now'. unfold handleTurnSubmit. now rewrite accepting_endTurn.
  - intros now'. unfold botSubmitFire. now rewrite accepting_endTurn.
  - intros sid target now'. unfold handleTurnVote.
    now rewrite votingActive_finalizeVote.
  - unfold finalizeVote at 1. now rewrite votingActive_finalizeVote.
  - intros w sid word now'. unfold handleTurnSubmit.
    pose proof (endRound_fields now w room) as Hf. cbv zeta in Hf.
    destruct Hf as [_ [Ha _]]. now rewrite Ha.
  - intros w sid target now' Hv. unfold handleTurnVote.
    assert (Hva : votingActive (fst (endRound now w room)) = false).
    { unfold endRound, JsMap.has.
      destruct (truthy_str w); cbn [andb];
        [destruct (JsMap.get w (players room))|]; exact Hv. }
    now rewrite Hva.
Qed.
End LateActions.

Lemma late_actions_are_silent_witness :
  handleTurnVote "a" (Some "b") 9500
    (fst (endRound 9000 (Some "b")
            (roomWith [(Some "a", mkAlive "Ana" 5); (Some "b", mkAlive "Bob" 7)])))
  = (fst (endRound 9000 (Some "b")
            (roomWith [(Some "a", mkAlive "Ana" 5); (Some "b", mkAlive "Bob" 7)])), []).
Proof.
  apply (proj2 (proj2 (proj2 (proj2 (proj2
           (late_actions_are_silent 9000
              (roomWith [(Some "a", mkAlive "Ana" 5); (Some "b", mkAlive "Bob" 7)]))))))).
  reflexivity.
Defined.

(** ** handlers.js: who may start, and when *)

(** X14: start-game, restart-game and return-to-menu from anyone but the
    host change nothing and emit nothing; from the host, start and restart
    on a room whose game is running only send the lobby error to the host,
    and return-to-menu only stamps the activity time and tells the room. *)
Theorem host_only_actions :
  forall sid now rnd room,
    (hostId room <> Some sid ->
     handleGameStart sid now rnd room = (room, [])
     /\ handleGameRestart sid now rnd room = (room, [])
     /\ handleGameMenu sid now room = (room, []))
    /\ (hostId room = Some sid ->
        (gameActive room = true ->
         handleGameStart sid now rnd room
         = (room, [Emit (ToSocket sid) (EvGameError MSG_lobbyError)])
         /\ handleGameRestart sid now rnd room
            = (room, [Emit (ToSocket sid) (EvGameError MSG_lobbyError)]))
        /\ handleGameMenu sid now room = (touchRoom now room, [Emit ToRoom EvGameMenu])).
Proof.
  intros sid now rnd room. split.
  - intros Hne.
    assert (E : eqb (Some sid) (hostId room) = false)
      by (apply eqb_false_iff; congruence).
    unfold handleGameStart, handleGameRestart, handleGameMenu. rewrite E.
    repeat split.
  - intros Hhost.
    unfold handleGameStart, handleGameRestart, handleGameMenu.
    rewrite Hhost, eqb_refl. cbn [negb]. split; [|reflexivity].
    intros ->. split; reflexivity.
Qed.

Lemma host_only_actions_witness :
  handleGameStart "b" 1000 0 soloLobby = (soloLobby, [])
  /\ handleGameMenu "a" 1000 soloLobby = (touchRoom 1000 soloLobby, [Emit ToRoom EvGameMenu]).
Proof.
  split.
  - apply (proj1 (host_only_actions "b" 1000 0 soloLobby)). discriminate.
  - apply (proj2 (host_only_actions "a" 1000 0 soloLobby)). reflexivity.
Defined.

(** ** handlers.js: joining a room *)

Section MapDelete.
Context {K V : Type} `{EqbSpec K}.

End MapDelete.


Section Join.
Context `{StringBuiltins}.


End Join.




(** ** handlers.js: ballots *)

Lemma mem_add_same (x : Id) (s : list Id) : JsSet.has x (JsSet.add x s) = true.
Proof.
  unfold JsSet.add. destruct (JsSet.has x s) eqn:E; [exact E|].
  unfold JsSet.has. rewrite existsb_app. simpl. rewrite eqb_refl.
  now rewrite orb_true_r.
Qed.

Lemma has_set_same {V : Type} (k : Id) (v : V) (m : list (Id * V)) :
  JsMap.has k (JsMap.set k v m) = true.
Proof. unfold JsMap.has. now rewrite JsMapFacts.get_set_same. Qed.

Lemma handleTurnVote_closed sid target now room :
  votingActive room = false \/ isAlive room (Some sid) = false
  \/ isAlive room target = false \/ target = Some sid
  \/ JsMap.has target (submissions room) = false ->
  handleTurnVote sid target now room = (room, []).
Proof.
  intros Hg. unfold handleTurnVote.
  destruct (votingActive room); cbn [negb]; [|reflexivity].
  destruct (isAlive room (Some sid)); cbn [negb]; [|reflexivity].
  destruct (isAlive room target); cbn [negb]; [|reflexivity].
  eqb_case target (Some sid); [reflexivity|].
  destruct (JsMap.has target (submissions room)); cbn [negb]; [|reflexivity].
  destruct Hg as [Hg|[Hg|[Hg|[Hg|Hg]]]]; congruence.
Qed.

Lemma handleTurnVote_repeat :
  forall sid target now room,
    (votingActive room = false \/ isAlive room (Some sid) = false
     \/ isAlive room target = false \/ target = Some sid
     \/ JsMap.has target (submissions room) = false ->
     handleTurnVote sid target now room = (room, []))
    /\ (forall now2,
          let r1 := fst (handleTurnVote sid target now room) in
          let res2 := handleTurnVote sid target now2 r1 in
          snd res2 = []
          /\ players (fst res2) = players r1
          /\ votes (fst res2) = votes r1
          /\ usedWords (fst res2) = usedWords r1
          /\ lastActivity (fst res2) = lastActivity r1).
Proof.
  intros sid target now room. split; [apply handleTurnVote_closed|].
  intros now2 r1 res2. subst res2.
  assert (Hsame : forall r, handleTurnVote sid target now2 r = (r, []) ->
            snd (handleTurnVote sid target now2 r) = []
            /\ players (fst (handleTurnVote sid target now2 r)) = players r
            /\ votes (fst (handleTurnVote sid target now2 r)) = votes r
            /\ usedWords (fst (handleTurnVote sid target now2 r)) = usedWords r
            /\ lastActivity (fst (handleTurnVote sid target now2 r)) = lastActivity r).
  { intros r ->. repeat split. }
  unfold r1. clear r1.
  remember (handleTurnVote sid target now room) as first eqn:Hdef.
  unfold handleTurnVote in Hdef.
  destruct (votingActive room) eqn:Eva; cbn [negb] in Hdef;
    [|subst first; apply Hsame, handleTurnVote_closed; now left].
  destruct (isAlive room (Some sid)) eqn:Eas; cbn [negb] in Hdef;
    [|subst first; apply Hsame, handleTurnVote_closed; right; now left].
  destruct (isAlive room target) eqn:Eat; cbn [negb] in Hdef;
    [|subst first; apply Hsame, handleTurnVote_closed; right; right; now left].
  destruct (eqb target (Some sid)) eqn:Et;
    [subst first; apply Hsame, handleTurnVote_closed; right; right; right; left;
     now apply eqb_iff in Et|].
  destruct (JsMap.has target (submissions room)) eqn:Ehs; cbn [negb] in Hdef;
    [|subst first; apply Hsame, handleTurnVote_closed; right; right; right; now right].
  set (votes1 := if negb (JsMap.has target (votes room))
                 then JsMap.set target [] (votes room) else votes room) in Hdef.
  assert (Hh1 : JsMap.has target votes1 = true).
  { unfold votes1. destruct (JsMap.has target (votes room)) eqn:Eh; cbn [negb];
      [exact Eh | apply has_set_same]. }
  set (votersSet := match JsMap.get target votes1 with Some v => v | None => [] end)
    in Hdef.
  (* the second ballot on a room that holds the ballots [vs], same players *)
  assert (Hagain : forall r vs,
            votingActive r = true -> players r = players room ->
            submissions r = submissions room -> votes r = vs ->
            JsMap.has target vs = true ->
            (forall v, JsMap.get target vs = Some v -> JsSet.has (Some sid) v = true) ->
            snd (handleTurnVote sid target now2 r) = []
            /\ players (fst (handleTurnVote sid target now2 r)) = players r
            /\ votes (fst (handleTurnVote sid target now2 r)) = votes r
            /\ usedWords (fst (handleTurnVote sid target now2 r)) = usedWords r
            /\ lastActivity (fst (handleTurnVote sid target now2 r)) = lastActivity r).
  { intros r vs Hva Hp Hs Hv Hh Hin.
    unfold handleTurnVote. rewrite Hva. cbn [negb].
    rewrite (isAlive_ext r room (Some sid) Hp), Eas. cbn [negb].
    rewrite (isAlive_ext r room target Hp), Eat. cbn [negb].
    rewrite Et, Hs, Ehs, Hv, Hh. cbn [negb].
    unfold JsMap.has in Hh. destruct (JsMap.get target vs) as [v|] eqn:Eg; [|discriminate].
    rewrite (Hin v eq_refl). cbn. repeat split. }
  destruct (JsSet.has (Some sid) votersSet) eqn:Evoted.
  - subst first. cbn [fst].
    apply (Hagain (set_votes votes1 room) votes1); try reflexivity;
      [exact Eva | exact Hh1 |].
    intros v Hv. unfold votersSet in Evoted. now rewrite Hv in Evoted.
  - match type of Hdef with context [if ?c then _ else _] => destruct c end;
      subst first; cbn [fst].
    + apply Hsame, handleTurnVote_closed. right. right. left.
      match goal with
      | |- isAlive (touchRoom _ (voteOff ?r ?t)) _ = false =>
          change (isAlive (voteOff r t) t = false); rewrite isAlive_voteOff
      end.
      rewrite eqb_refl. now rewrite andb_false_r.
    + apply (Hagain _ (JsMap.set target (JsSet.add (Some sid) votersSet) votes1));
        try reflexivity; [exact Eva | apply has_set_same |].
      intros v Hv. rewrite JsMapFacts.get_set_same in Hv. injection Hv as <-.
      apply mem_add_same.
Qed.

(** X16: a vote event without payload throws a TypeError before any guard
    is read and leaves the room as it is. A ballot that comes with a
    payload is dropped without any effect when no vote is open, when the
    voter or the target is not alive, when the voter targets themselves,
    or when the target submitted nothing this turn. And a ballot counts
    once: sending the same ballot again emits nothing and leaves players,
    ballots, used words and the activity time as the first one left
    them. *)
Theorem ballots_count_once :
  (forall sid now room, onTurnVote sid None now room = (room, [Throw TypeError])) /\
  (forall sid target now room,
      votingActive room = false \/ isAlive room (Some sid) = false
      \/ isAlive room target = false \/ target = Some sid
      \/ JsMap.has target (submissions room) = false ->
      onTurnVote sid (Some target) now room = (room, [])) /\
  (forall sid target now room now2,
      let r1 := fst (onTurnVote sid (Some target) now room) in
      let res2 := onTurnVote sid (Some target) now2 r1 in
      snd res2 = []
      /\ players (fst res2) = players r1
      /\ votes (fst res2) = votes r1
      /\ usedWords (fst res2) = usedWords r1
      /\ lastActivity (fst res2) = lastActivity r1).
Proof.
  split; [reflexivity|]. split.
  - intros sid target now room Hg. cbn [onTurnVote].
    now apply (proj1 (handleTurnVote_repeat sid target now room)).
  - intros sid target now room now2. cbn [onTurnVote].
    exact (proj2 (handleTurnVote_repeat sid target now room) now2).
Qed.

Lemma ballots_count_once_witness :
  onTurnVote "a" (Some (Some "a")) 9500 (votingRoom []) = (votingRoom [], []).
Proof.
  apply (proj1 (proj2 ballots_count_once) "a" (Some "a") 9500 (votingRoom [])).
  right. right. right. left. reflexivity.
Defined.

(** ** handlers.js: leaving a room *)

Lemma firstOnline_spec room :
  firstOnline room = None
  \/ exists p, JsMap.get (firstOnline room) (players room) = Some p /\ online p = true.
Proof.
  unfold firstOnline.
  destruct (find _ (JsMap.keys (players room))) as [id|] eqn:Ef; [|now left].
  destruct (truthy_str id); [|now left].
  apply find_some in Ef. destruct Ef as [_ Hon].
  destruct (JsMap.get id (players room)) as [p|]; [|discriminate].
  right. now exists p.
Qed.

Lemma online_entry_counts room k p :
  JsMap.get k (players room) = Some p -> online p = true -> 1 <= onlineCount room.
Proof.
  intros Hget Hon. apply JsMapFacts.get_Some_In in Hget.
  assert (Hin : In (k, p) (filter (fun e => online (snd e)) (players room)))
    by (apply filter_In; split; [exact Hget | exact Hon]).
  unfold onlineCount.
  destruct (filter (fun e => online (snd e)) (players room)); [destruct Hin|].
  simpl List.length. lia.
Qed.

Lemma humanOnline_le_onlineCount room : humanOnline room <= onlineCount room.
Proof.
  unfold humanOnline, onlineCount. apply Nat2Z.inj_le.
  induction (players room) as [|[k p] ps IH]; simpl; [lia|].
  destruct (negb (eqb k (botId room))); destruct (online p); simpl; lia.
Qed.

Lemma onlineCount_clear room :
  onlineCount (fst (clearRoomTimers room)) = onlineCount room.
Proof. reflexivity. Qed.

Lemma verdict_empty now room :
  janitorVerdict now room = Some "empty"%string -> onlineCount room = 0.
Proof.
  unfold janitorVerdict.
  destruct (ROOM_MAX_AGE_MS <? now - createdAt room);
    [rewrite orb_true_r; discriminate|].
  destruct (ROOM_IDLE_MS <? now - lastActivity room);
    [rewrite orb_true_r; discriminate|].
  rewrite !orb_false_r. destruct (onlineCount room =? 0) eqn:E; [|discriminate].
  intros _. now apply Z.eqb_eq.
Qed.

Section Disconnect.
Variables (sid : string) (now : Z) (room : Room).

Local Abbreviation gone := (leaverMarked sid room).
Local Abbreviation rehosted := (hostReassigned sid room).
Local Abbreviation helped := (botCalledIn sid now room).

Lemma handleDisconnect_eq :
  handleDisconnect sid now room
  = if onlineCount helped =? 0 then killRoom "empty" helped
    else (helped, [Emit ToRoom (EvLobbyUpdate (serializeRoom helped))]).
Proof. reflexivity. Qed.

Lemma disconnect_fields :
  players (fst (handleDisconnect sid now room)) = players helped
  /\ hostId (fst (handleDisconnect sid now room)) = hostId helped
  /\ botId (fst (handleDisconnect sid now room)) = botId helped
  /\ gameActive (fst (handleDisconnect sid now room)) = gameActive helped.
Proof.
  rewrite handleDisconnect_eq. destruct (onlineCount helped =? 0); repeat split.
Qed.

Lemma rehosted_fields :
  players rehosted = players gone /\ botId rehosted = botId room
  /\ gameActive rehosted = gameActive room.
Proof.
  unfold hostReassigned. destruct (eqb (Some sid) (hostId room)); repeat split.
Qed.

Lemma helped_hostId : hostId helped = hostId rehosted.
Proof.
  unfold botCalledIn. destruct (gameActive rehosted); [|reflexivity].
  destruct (humanOnline rehosted <? 2); [|reflexivity].
  unfold addBot. now destruct (truthy_str (botId rehosted)).
Qed.

Lemma helped_players :
  players helped = players gone
  \/ (truthy_str (botId room) = false
      /\ players helped
         = JsMap.set (Some ("bot-" ++ string_of_Z now)%string) newBot (players gone)).
Proof.
  destruct rehosted_fields as [Hp [Hb _]].
  unfold botCalledIn. destruct (gameActive rehosted); [|now left].
  destruct (humanOnline rehosted <? 2); [|now left].
  unfold addBot. rewrite Hb. destruct (truthy_str (botId room)); [now left|].
  right. split; [reflexivity|]. cbn. now rewrite Hp.
Qed.

Lemma helped_get k :
  JsMap.has (Some ("bot-" ++ string_of_Z now)%string) (players room) = false ->
  JsMap.has k (players gone) = true ->
  JsMap.get k (players helped) = JsMap.get k (players gone).
Proof.
  intros Hfresh Hk. destruct helped_players as [->|[_ ->]]; [reflexivity|].
  apply JsMapFacts.get_set_other. intros <-.
  unfold leaverMarked in Hk.
  rewrite players_set_players, JsMapFacts.has_update in Hk. congruence.
Qed.

(** X17: when a socket disconnects, its player goes offline and is no
    longer alive, and no other player's entry changes. The host seat moves
    only when the host left: then it goes to a player who is online, or
    becomes vacant, and never stays with the leaver. The room is closed as
    empty exactly when nobody is online afterwards; and after a disconnect
    during a game the room has a bot or at least two humans online. The id
    a bot created now would get is assumed to be free. *)
Theorem handleDisconnect_spec :
  JsMap.has (Some ("bot-" ++ string_of_Z now)%string) (players room) = false ->
  let res := handleDisconnect sid now room in
  (forall p, JsMap.get (Some sid) (players room) = Some p ->
             JsMap.get (Some sid) (players (fst res))
             = Some (set_alive false (set_online false p)))
  /\ (forall k p, k <> Some sid -> JsMap.get k (players room) = Some p ->
                  JsMap.get k (players (fst res)) = Some p)
  /\ (hostId room <> Some sid -> hostId (fst res) = hostId room)
  /\ (hostId room = Some sid ->
      hostId (fst res) <> Some sid
      /\ (hostId (fst res) = None
          \/ exists p, JsMap.get (hostId (fst res)) (players (fst res)) = Some p
                       /\ online p = true))
  /\ (In (KillRoom "empty") (snd res) <-> onlineCount (fst res) = 0)
  /\ (gameActive room = true ->
      truthy_str (botId (fst res)) = true \/ 2 <= humanOnline (fst res)).
Proof.
  intros Hfresh res.
  destruct disconnect_fields as [Hp [Hh [Hb Hg]]]. fold res in Hp, Hh, Hb, Hg.
  assert (Hgone_sid : JsMap.get (Some sid) (players gone)
                      = option_map (fun p => set_alive false (set_online false p))
                          (JsMap.get (Some sid) (players room)))
    by (unfold leaverMarked; cbn; apply JsMapFacts.get_update_same).
  assert (Hgone_other : forall k, k <> Some sid ->
            JsMap.get k (players gone) = JsMap.get k (players room)).
  { intros k Hk. unfold leaverMarked. cbn. apply JsMapFacts.get_update_other. congruence. }
  assert (Hhas : forall k v, JsMap.get k (players gone) = Some v ->
                             JsMap.has k (players gone) = true)
    by (intros k v Hv; unfold JsMap.has; now rewrite Hv).
  split; [|split; [|split; [|split; [|split]]]].
  - intros p Hget. rewrite Hp.
    assert (Hg1 : JsMap.get (Some sid) (players gone)
                  = Some (set_alive false (set_online false p)))
      by (rewrite Hgone_sid, Hget; reflexivity).
    rewrite helped_get; [exact Hg1 | exact Hfresh | now apply Hhas in Hg1].
  - intros k p Hk Hget. rewrite Hp.
    assert (Hg1 : JsMap.get k (players gone) = Some p)
      by (rewrite Hgone_other by exact Hk; exact Hget).
    rewrite helped_get; [exact Hg1 | exact Hfresh | now apply Hhas in Hg1].
  - intros Hne. rewrite Hh, helped_hostId. unfold hostReassigned.
    assert (E : eqb (Some sid) (hostId room) = false)
      by (apply eqb_false_iff; congruence).
    now rewrite E.
  - intros Hhost. rewrite Hh, helped_hostId, Hp. unfold hostReassigned.
    rewrite Hhost, eqb_refl. cbn [hostId set_hostId].
    destruct (firstOnline_spec gone) as [Hnone|[p [Hget Hon]]].
    + rewrite Hnone. split; [discriminate | now left].
    + split.
      * intros Heq. rewrite Heq, Hgone_sid in Hget.
        destruct (JsMap.get (Some sid) (players room)) as [q|]; [|discriminate].
        cbn in Hget. injection Hget as <-. discriminate.
      * right. exists p. split; [|exact Hon].
        rewrite helped_get; [exact Hget | exact Hfresh | now apply Hhas in Hget].
  - unfold res. rewrite handleDisconnect_eq.
    destruct (onlineCount helped =? 0) eqn:E.
    + apply Z.eqb_eq in E. split; [intros _; exact E|]. intros _.
      unfold killRoom, clearRoomTimers. cbn [snd]. apply in_or_app. right. right. now left.
    + apply Z.eqb_neq in E. cbn [fst snd]. split; [|intros E0; contradiction].
      intros [Hin|[]]. discriminate.
  - intros Hact. unfold humanOnline. rewrite Hb, Hp. fold (humanOnline helped).
    destruct rehosted_fields as [_ [_ Hga]].
    unfold botCalledIn. rewrite Hga, Hact.
    destruct (humanOnline rehosted <? 2) eqn:E.
    + left. apply addBot_present.
    + right. now apply Z.ltb_ge in E.
Qed.

(** X18: a disconnect during a game never closes the room: when fewer than
    two humans stay online the bot is there (it is added if the room had
    none), and the bot counts as online; so the janitor never finds that
    room empty either. The room's bot, when it has one, is assumed to be an
    online roster entry other than the leaver. *)
Theorem disconnect_keeps_running_game :
  gameActive room = true ->
  (truthy_str (botId room) = true ->
   botId room <> Some sid
   /\ exists b, JsMap.get (botId room) (players room) = Some b /\ online b = true) ->
  1 <= onlineCount (fst (handleDisconnect sid now room))
  /\ ~ In (KillRoom "empty") (snd (handleDisconnect sid now room))
  /\ In (Emit ToRoom (EvLobbyUpdate (serializeRoom (fst (handleDisconnect sid now room)))))
        (snd (handleDisconnect sid now room))
  /\ (forall later,
        janitorVerdict later (fst (handleDisconnect sid now room)) <> Some "empty"%string).
Proof.
  intros Hact Hbot.
  assert (Hone : 1 <= onlineCount helped).
  { destruct rehosted_fields as [Hp [Hb Hga]].
    unfold botCalledIn. rewrite Hga, Hact.
    destruct (humanOnline rehosted <? 2) eqn:E.
    - destruct (truthy_str (botId room)) eqn:Et.
      + destruct (Hbot eq_refl) as [Hne [b [Hget Hon]]].
        unfold addBot. rewrite Hb, Et.
        apply (online_entry_counts rehosted (botId room) b); [|exact Hon].
        rewrite Hp. unfold leaverMarked. cbn.
        rewrite JsMapFacts.get_update_other by congruence. exact Hget.
      + destruct (addBot_present now rehosted) as [_ Hnew].
        rewrite Hb in Hnew. destruct (Hnew Et) as [_ Hget].
        now apply (online_entry_counts _ _ newBot Hget).
    - apply Z.ltb_ge in E. pose proof (humanOnline_le_onlineCount rehosted). lia. }
  rewrite handleDisconnect_eq.
  destruct (onlineCount helped =? 0) eqn:E; [apply Z.eqb_eq in E; lia|].
  cbn [fst snd]. split; [exact Hone|]. split; [|split].
  - intros [Hin|[]]. discriminate.
  - now left.
  - intros later Hv. apply verdict_empty in Hv. lia.
Qed.
End Disconnect.

Lemma handleDisconnect_spec_witness :
  hostId (fst (handleDisconnect "a" 3000
                 (roomWith [(Some "a", mkAlive "Ana" 5); (Some "b", mkAlive "Bob" 7)])))
  = None.
Proof.
  pose proof (handleDisconnect_spec "a" 3000
                (roomWith [(Some "a", mkAlive "Ana" 5); (Some "b", mkAlive "Bob" 7)])) as Hs.
  cbv zeta in Hs.
  assert (Hfresh : JsMap.has (Some ("bot-" ++ string_of_Z 3000)%string)
                     (players (roomWith [(Some "a", mkAlive "Ana" 5);
                                         (Some "b", mkAlive "Bob" 7)])) = false)
    by (vm_compute; reflexivity).
  destruct (Hs Hfresh) as [_ [_ [Hkeep _]]].
  rewrite Hkeep; [vm_compute; reflexivity | vm_compute; discriminate].
Defined.

Lemma disconnect_keeps_running_game_witness :
  1 <= onlineCount (fst (handleDisconnect "a" 3000 soloStarted)).
Proof.
  refine (proj1 (disconnect_keeps_running_game "a" 3000 soloStarted _ _)).
  - vm_compute. reflexivity.
  - intros _. split; [vm_compute; discriminate|].
    exists newBot. split; vm_compute; reflexivity.
Defined.

(** ** roomManager.js: closing a room *)

Lemma In_clear (o : option Callback) fx :
  In fx (match o with Some cb => [ClearTimeout cb] | None => [] end)
  <-> exists cb, fx = ClearTimeout cb /\ o = Some cb.
Proof.
  destruct o as [cb|]; simpl; split.
  - intros [<-|[]]. now exists cb.
  - intros [cb' [-> [= ->]]]. now left.
  - intros [].
  - intros [cb' [_ Hc]]. discriminate.
Qed.

Lemma In_timerEffects t fx :
  In fx (timerEffects t) <-> exists cb, fx = ClearTimeout cb /\ In (Some cb) (timerSlots t).
Proof.
  unfold timerEffects, timerSlots. cbv beta zeta.
  rewrite !in_app_iff, !In_clear. simpl. split.
  - intros [H|[H|[H|[H|H]]]]; destruct H as [cb [-> Hs]]; exists cb;
      (split; [reflexivity|]); rewrite Hs; tauto.
  - intros [cb [-> [Hs|[Hs|[Hs|[Hs|[Hs|[]]]]]]]];
      [left | right; left | right; right; left | right; right; right; left
       | right; right; right; right]; now exists cb.
Qed.

(** X19: [killRoom] cancels exactly the timers held in the five named slots
    and arms none, empties the slots, then tells the room it is closed with
    the given reason and drops it, touching nothing else of the room;
    clearing the timers of a room whose slots are empty does nothing. *)
Theorem killRoom_spec :
  forall reason room,
    let res := killRoom reason room in
    timers (fst res) = noTimers
    /\ set_timers (timers room) (fst res) = room
    /\ (forall cb, In (ClearTimeout cb) (snd res) <-> In (Some cb) (timerSlots (timers room)))
    /\ (forall cb ms, ~ In (SetTimeout cb ms) (snd res))
    /\ (exists cleared,
           snd res = cleared ++ [Emit ToRoom (EvRoomClosed reason); KillRoom reason]
           /\ (List.length cleared <= 5)%nat)
    /\ clearRoomTimers (fst res) = (fst res, []).
Proof.
  intros reason room res. unfold res, killRoom, clearRoomTimers. cbn [fst snd].
  split; [reflexivity|]. split; [now destruct room|]. split; [|split; [|split]].
  - intros cb. rewrite in_app_iff, In_timerEffects. split.
    + intros [[cb' [[= <-] Hin]]|[Hin|[Hin|[]]]]; [exact Hin | discriminate..].
    + intros Hin. left. now exists cb.
  - intros cb ms Hin. apply in_app_or in Hin. destruct Hin as [Hin|[Hin|[Hin|[]]]];
      [|discriminate..].
    apply In_timerEffects in Hin. destruct Hin as [cb' [Heq _]]. discriminate.
  - exists (timerEffects (timers room)). split; [reflexivity|].
    unfold timerEffects.
    destruct (timers room) as [[a|] [b|] [c|] [d|] [e|]]; cbn; lia.
  - reflexivity.
Qed.

(** X20: the two-second timer [endTurn] arms for the elimination popup is
    held in none of the named slots: [endTurn] leaves the slots as they
    were, so closing the room right after does not cancel that timer. The
    slots are assumed not to hold such a callback beforehand (nothing
    stores one). *)
Theorem popup_timer_is_untracked :
  forall now room reason e ms,
    In (SetTimeout (CbFinalizeTurn e) ms) (snd (endTurn now room)) ->
    ~ In (Some (CbFinalizeTurn e)) (timerSlots (timers room)) ->
    ms = 2000
    /\ timers (fst (endTurn now room)) = timers room
    /\ ~ In (ClearTimeout (CbFinalizeTurn e))
            (snd (killRoom reason (fst (endTurn now room)))).
Proof.
  intros now room reason e ms Hin Hslots.
  unfold endTurn in Hin |- *.
  match goal with
  | |- context [match ?l with [] => _ | _ :: _ => _ end] => destruct l eqn:El
  end.
  - exfalso. unfold finalizeTurn in Hin. cbn [snd] in Hin.
    apply in_app_or in Hin. destruct Hin as [Hin|[Hin|[Hin|[]]]];
      [|discriminate..].
    apply in_map_iff in Hin. destruct Hin as [m [Hm _]]. discriminate.
  - cbn [fst snd] in Hin |- *.
    apply in_app_or in Hin. destruct Hin as [Hin|[Hin|[Hin|[]]]].
    + apply in_map_iff in Hin. destruct Hin as [m [Hm _]]. discriminate.
    + discriminate.
    + injection Hin as _ <-. split; [reflexivity|]. split; [reflexivity|].
      unfold killRoom, clearRoomTimers. cbn [fst snd].
      intros Hc. apply in_app_or in Hc. destruct Hc as [Hc|[Hc|[Hc|[]]]];
        [|discriminate..].
      apply In_timerEffects in Hc. destruct Hc as [cb [[= <-] Hc]].
      apply Hslots. exact Hc.
Qed.

Lemma popup_timer_is_untracked_witness :
  ~ In (ClearTimeout (CbFinalizeTurn [Some "a"; Some "b"]))
       (snd (killRoom "empty" (fst (endTurn 11000 chatChienRoom)))).
Proof.
  apply (popup_timer_is_untracked 11000 chatChienRoom "empty" [Some "a"; Some "b"] 2000).
  - vm_compute. right. right. left. reflexivity.
  - vm_compute. intuition discriminate.
Defined.

(** ** handlers.js: a start that cannot fail *)

Lemma two_online room k1 p1 k2 p2 :
  JsMap.get k1 (players room) = Some p1 -> online p1 = true ->
  JsMap.get k2 (players room) = Some p2 -> online p2 = true ->
  k1 <> k2 -> 2 <= onlineCount room.
Proof.
  intros H1 O1 H2 O2 Hne. unfold onlineCount.
  apply JsMapFacts.get_Some_In in H1. apply JsMapFacts.get_Some_In in H2.
  assert (Hl : (2 <= List.length (filter (fun e => online (snd e)) (players room)))%nat).
  { apply (length_of_two (k1, p1) (k2, p2)).
    - apply filter_In. now split.
    - apply filter_In. now split.
    - congruence. }
  lia.
Qed.

(** X21: a host who is online can always start: on a room with no game
    running the start never answers with the lobby error, because the bot
    fills the second seat when the host is alone. The room's bot, when it
    has one, is assumed to be an online roster entry other than the host,
    and the id a bot created now would get to be free. *)
Theorem start_by_online_host_succeeds :
  forall sid now rnd room p,
    hostId room = Some sid ->
    gameActive room = false ->
    JsMap.get (Some sid) (players room) = Some p ->
    online p = true ->
    (truthy_str (botId room) = true ->
     botId room <> Some sid
     /\ exists b, JsMap.get (botId room) (players room) = Some b /\ online b = true) ->
    JsMap.has (Some ("bot-" ++ string_of_Z now)%string) (players room) = false ->
    let res := handleGameStart sid now rnd room in
    gameActive (fst res) = true
    /\ level (fst res) = 0
    /\ (forall d msg, ~ In (Emit d (EvGameError msg)) (snd res)).
Proof.
  intros sid now rnd room p Hhost Hinactive Hget Hon Hbot Hfresh res.
  set (room1 := if humanOnline room <? 2 then addBot now room else room).
  assert (Hres : res = if onlineCount room1 <? 2
                       then (room1, [Emit (ToSocket sid) (EvGameError MSG_lobbyError)])
                       else startNewRound_begin rnd
                              (set_punishedLetters []
                                 (set_level 0 (set_gameActive true room1)))).
  { unfold res, handleGameStart. rewrite Hhost, eqb_refl, Hinactive. reflexivity. }
  assert (Hnot : Some ("bot-" ++ string_of_Z now)%string <> Some sid).
  { intros Heq. rewrite Heq in Hfresh. unfold JsMap.has in Hfresh.
    now rewrite Hget in Hfresh. }
  assert (Htwo : 2 <= onlineCount room1).
  { unfold room1. destruct (humanOnline room <? 2) eqn:E.
    - unfold addBot. destruct (truthy_str (botId room)) eqn:Et.
      + destruct (Hbot eq_refl) as [Hne [b [Hb Hob]]].
        apply (two_online room (Some sid) p (botId room) b); auto.
      + apply (two_online _ (Some sid) p (Some ("bot-" ++ string_of_Z now)%string) newBot).
        * cbn. rewrite JsMapFacts.get_set_other; [exact Hget|].
          intros Heq. apply Hnot. exact Heq.
        * exact Hon.
        * cbn. apply JsMapFacts.get_set_same.
        * reflexivity.
        * intros Heq. apply Hnot. symmetry. exact Heq.
    - apply Z.ltb_ge in E. pose proof (humanOnline_le_onlineCount room). lia. }
  apply Z.ltb_ge in Htwo. rewrite Hres, Htwo.
  split; [reflexivity|]. split; [reflexivity|].
  intros d msg [Hin|[]]. discriminate.
Qed.

Lemma start_by_online_host_succeeds_witness :
  gameActive (fst (handleGameStart "a" 1000 2 soloLobby)) = true.
Proof.
  apply (start_by_online_host_succeeds "a" 1000 2 soloLobby
           {| name := "Ana"; score := 0; alive := false; online := true |}).
  - vm_compute. reflexivity.
  - vm_compute. reflexivity.
  - vm_compute. reflexivity.
  - reflexivity.
  - vm_compute. discriminate.
  - vm_compute. reflexivity.
Defined.

(** ** server.js: the janitor *)

Lemma onlineCount_nonneg room : 0 <= onlineCount room.
Proof. unfold onlineCount. lia. Qed.

(** X22: the janitor closes a room as too old when it was created more
    than six hours ago, whatever else holds; as idle when it is not too old
    and nothing touched it for more than twenty minutes; as empty when it
    is neither and nobody is online; and it leaves the room alone exactly
    when somebody is online, the room is at most six hours old and was
    touched within the last twenty minutes. *)
Theorem janitor_verdicts :
  forall now room,
    (janitorVerdict now room = Some "max_age"%string
     <-> 21600000 < now - createdAt room)
    /\ (janitorVerdict now room = Some "idle"%string
        <-> now - createdAt room <= 21600000 /\ 1200000 < now - lastActivity room)
    /\ (janitorVerdict now room = Some "empty"%string
        <-> now - createdAt room <= 21600000 /\ now - lastActivity room <= 1200000
            /\ onlineCount room = 0)
    /\ (janitorVerdict now room = None
        <-> now - createdAt room <= 21600000 /\ now - lastActivity room <= 1200000
            /\ 1 <= onlineCount room).
Proof.
  intros now room. pose proof (onlineCount_nonneg room) as Hnn.
  unfold janitorVerdict.
  change ROOM_MAX_AGE_MS with 21600000. change ROOM_IDLE_MS with 1200000.
  destruct (21600000 <? now - createdAt room) eqn:Eold;
    [apply Z.ltb_lt in Eold | apply Z.ltb_ge in Eold];
    (destruct (1200000 <? now - lastActivity room) eqn:Eidle;
     [apply Z.ltb_lt in Eidle | apply Z.ltb_ge in Eidle]);
    (destruct (onlineCount room =? 0) eqn:Eon;
     [apply Z.eqb_eq in Eon | apply Z.eqb_neq in Eon]);
    cbn [orb];
    repeat split; intros; try discriminate; try lia; try reflexivity;
      try (exfalso; lia).
Qed.

Section Sweep.
Context {V : Type}.

Lemma delete_app_notin (k : string) (v : V) (pre post : list (string * V)) :
  ~ In k (JsMap.keys pre) ->
  JsMap.delete k (pre ++ (k, v) :: post) = pre ++ post.
Proof.
  induction pre as [|[k0 v0] pre IH]; simpl; intros Hnot.
  - now rewrite eqb_refl.
  - eqb_case k0 k; [exfalso; apply Hnot; now left|].
    f_equal. apply IH. tauto.
Qed.
End Sweep.

Lemma janitor_fold now (l pre : list (string * Room)) fx :
  JsMap.wf (pre ++ l) ->
  fold_left
    (fun acc e =>
       match janitorVerdict now (snd e) with
       | Some reason =>
           (JsMap.delete (fst e) (fst acc),
            snd acc ++ [(fst e, snd (killRoom reason (snd e)))])
       | None => acc
       end)
    l (pre ++ l, fx)
  = (pre ++ filter (stays now) l, fx ++ flat_map (closing now) l).
Proof.
  revert pre fx. induction l as [|[code room] l IH]; intros pre fx Hwf.
  - simpl. now rewrite !app_nil_r.
  - cbn [fold_left filter flat_map fst snd]. unfold stays at 1, closing at 1. cbn [fst snd].
    destruct (janitorVerdict now room) as [reason|] eqn:Ev.
    + rewrite delete_app_notin.
      * rewrite IH; [now rewrite <- app_assoc|].
        unfold JsMap.wf, JsMap.keys in *. rewrite map_app in *. simpl in Hwf.
        now apply NoDup_remove_1 in Hwf.
      * unfold JsMap.wf, JsMap.keys in *. rewrite map_app in Hwf. simpl in Hwf.
        apply NoDup_remove_2 in Hwf. intros Hin. apply Hwf. apply in_or_app. now left.
    + replace (pre ++ (code, room) :: l) with ((pre ++ [(code, room)]) ++ l)
        by now rewrite <- app_assoc.
      rewrite IH; [now rewrite <- app_assoc|].
      now rewrite <- app_assoc.
Qed.

(** X23: one run of the janitor over a registry keeps exactly the rooms it
    has no reason to close, in their order, and closes each of the others
    once, in registry order, with the reason of its verdict. *)
Theorem janitor_sweep :
  forall now rooms,
    JsMap.wf rooms ->
    fst (janitor now rooms) = filter (stays now) rooms
    /\ snd (janitor now rooms) = flat_map (closing now) rooms
    /\ (forall code room,
          In (code, room) (fst (janitor now rooms))
          <-> In (code, room) rooms /\ janitorVerdict now room = None).
Proof.
  intros now rooms Hwf. unfold janitor.
  pose proof (janitor_fold now rooms [] [] Hwf) as Hf. cbn [app] in Hf.
  rewrite Hf. cbn [fst snd].
  split; [reflexivity|]. split; [reflexivity|].
  intros code room. rewrite filter_In. unfold stays. cbn [snd].
  destruct (janitorVerdict now room); split; intros [Hin Hv]; split;
    auto; discriminate.
Qed.

Lemma janitor_sweep_witness :
  fst (janitor 2000000 [("AAAA"%string, soloLobby); ("BBBB"%string, createRoom 1500000)])
  = filter (stays 2000000)
      [("AAAA"%string, soloLobby); ("BBBB"%string, createRoom 1500000)].
Proof.
  apply (janitor_sweep 2000000
           [("AAAA"%string, soloLobby); ("BBBB"%string, createRoom 1500000)]).
  repeat constructor; simpl; intuition discriminate.
Defined.

(** ** wordBank.js *)

Lemma prefix_refl (s : string) : String.prefix s s = true.
Proof.
  induction s as [|a s IH]; simpl; [reflexivity|].
  destruct (ascii_dec a a); [exact IH | congruence].
Qed.

Lemma nameVariants_self (norm : string) : In norm (nameVariants norm).
Proof.
  unfold nameVariants.
  destruct (endsWithChar "s" norm); destruct (endsWithChar "x" norm); cbn [negb];
    repeat match goal with
           | |- In _ (JsSet.add _ _) => apply JsSetFacts.In_add; right
           end;
    now left.
Qed.

Section Bank.
Context `{StringBuiltins}.

Lemma exact_is_partial variants f :
  exactMatch variants f = true -> partialMatch variants f = true.
Proof.
  unfold exactMatch, partialMatch. rewrite !existsb_exists.
  intros [v [Hin Heq]]. apply String.eqb_eq in Heq. exists v. split; [exact Hin|].
  rewrite Heq, prefix_refl. reflexivity.
Qed.

(** X24: the file [resolveDatasetPath] answers is an entry of the
    directory listing whose name ends in .txt (in any case) and whose key
    matches a variant of the theme's key at least partially. A .txt file
    whose key is one of the variants wins over any file that matches only
    partially, wherever it stands in the listing. The answer is null exactly
    when the directory cannot be read or no .txt file matches partially; in
    particular a theme whose key is empty matches every .txt file. *)
Theorem resolveDatasetPath_spec :
  forall listing theme,
    let variants := nameVariants (normalizeKey theme) in
    (forall f, resolveDatasetPath listing theme = Some f ->
       exists files, listing = Some files /\ In f files /\ isTxt f = true
                     /\ partialMatch variants f = true)
    /\ (forall files f,
          listing = Some files -> In f files -> isTxt f = true ->
          exactMatch variants f = true ->
          exists g, resolveDatasetPath listing theme = Some g
                    /\ exactMatch variants g = true)
    /\ (resolveDatasetPath listing theme = None
        <-> listing = None
            \/ exists files, listing = Some files
                 /\ forall f, In f files -> isTxt f = true ->
                              partialMatch variants f = false)
    /\ (normalizeKey theme = ""%string ->
        forall files f, listing = Some files -> In f files -> isTxt f = true ->
                        resolveDatasetPath listing theme <> None).
Proof.
  intros listing theme variants.
  assert (Hnone : resolveDatasetPath listing theme = None
                  <-> listing = None
                      \/ exists files, listing = Some files
                           /\ forall f, In f files -> isTxt f = true ->
                                        partialMatch variants f = false).
  { unfold resolveDatasetPath. fold variants. destruct listing as [files|].
    - destruct (find (exactMatch variants) (filter isTxt files)) as [g|] eqn:Ee.
      + split; [discriminate|]. intros [Hl|[files' [[= <-] Hall]]]; [discriminate|].
        apply find_some in Ee. destruct Ee as [Hin Hex].
        apply filter_In in Hin. destruct Hin as [Hin Htxt].
        apply exact_is_partial in Hex. rewrite (Hall g Hin Htxt) in Hex. discriminate.
      + split.
        * intros Hp. right. exists files. split; [reflexivity|].
          intros f Hin Htxt.
          apply (find_none _ _ Hp f). apply filter_In. now split.
        * intros [Hl|[files' [[= <-] Hall]]]; [discriminate|].
          destruct (find (partialMatch variants) (filter isTxt files)) as [g|] eqn:Ep;
            [|reflexivity].
          apply find_some in Ep. destruct Ep as [Hin Hpm].
          apply filter_In in Hin. destruct Hin as [Hin Htxt].
          rewrite (Hall g Hin Htxt) in Hpm. discriminate.
    - split; [now left | reflexivity]. }
  split; [|split; [|split]].
  - intros f. unfold resolveDatasetPath. fold variants.
    destruct listing as [files|]; [|discriminate].
    destruct (find (exactMatch variants) (filter isTxt files)) as [g|] eqn:Ee.
    + intros [= <-]. apply find_some in Ee. destruct Ee as [Hin Hex].
      apply filter_In in Hin. destruct Hin as [Hin Htxt].
      exists files. repeat split; auto. now apply exact_is_partial.
    + intros Hp. apply find_some in Hp. destruct Hp as [Hin Hpm].
      apply filter_In in Hin. destruct Hin as [Hin Htxt].
      exists files. repeat split; auto.
  - intros files f -> Hin Htxt Hex. unfold resolveDatasetPath. fold variants.
    destruct (find (exactMatch variants) (filter isTxt files)) as [g|] eqn:Ee.
    + exists g. split; [reflexivity|]. now apply find_some in Ee.
    + exfalso. assert (Hf : In f (filter isTxt files)) by (apply filter_In; now split).
      rewrite (find_none _ _ Ee f Hf) in Hex. discriminate.
  - exact Hnone.
  - intros Hkey files f -> Hin Htxt Hres. apply Hnone in Hres.
    destruct Hres as [Hl|[files' [[= <-] Hall]]]; [discriminate|].
    specialize (Hall f Hin Htxt). unfold partialMatch in Hall.
    assert (Hex : existsb
                    (fun v => String.prefix v (normalizeKey (JsString (stripExt f)))
                              || String.prefix (normalizeKey (JsString (stripExt f))) v)
                    variants = true).
    { apply existsb_exists. exists ""%string. split.
      - unfold variants. rewrite Hkey. apply nameVariants_self.
      - now destruct (normalizeKey (JsString (stripExt f))). }
    rewrite Hex in Hall. discriminate.
Qed.

Lemma In_fold_addLine (lines : list string) : forall (set : list string) (w : string),
  In w (fold_left addLine lines set)
  <-> In w set
      \/ exists raw, In raw lines /\ js_trim (beforeHash raw) <> ""%string
                     /\ w = normalizeWord (JsString (js_trim (beforeHash raw))).
Proof.
  induction lines as [|raw lines IH]; intros set w; simpl.
  - split; [auto | intros [Hw|[r [[] _]]]; exact Hw].
  - rewrite IH. unfold addLine at 1.
    destruct (String.eqb_spec (js_trim (beforeHash raw)) "") as [E|E].
    + split.
      * intros [Hw|[r [Hin Hr]]]; [now left|]. right. exists r. split; [now right | exact Hr].
      * intros [Hw|[r [[<-|Hin] [Hne Hr]]]]; [now left | contradiction |].
        right. now exists r.
    + rewrite JsSetFacts.In_add. split.
      * intros [[Hw|Hw]|[r [Hin Hr]]].
        -- right. exists raw. split; [now left|]. now split.
        -- now left.
        -- right. exists r. split; [now right | exact Hr].
      * intros [Hw|[r [[<-|Hin] [Hne Hr]]]].
        -- left. now right.
        -- left. now left.
        -- right. now exists r.
Qed.

Lemma NoDup_fold_addLine (lines : list string) : forall set : list string,
  NoDup set -> NoDup (fold_left addLine lines set).
Proof.
  induction lines as [|raw lines IH]; intros set Hnd; simpl; [exact Hnd|].
  apply IH. unfold addLine.
  destruct (String.eqb (js_trim (beforeHash raw)) ""); [exact Hnd|].
  now apply JsSetFacts.NoDup_add.
Qed.

(** X25: the word bank read from a text holds no word twice, and holds
    exactly the normalised forms of the lines that are not empty once the
    comment (from the first [#] on) is cut and the rest is trimmed; an empty
    text gives the empty bank. *)
Theorem parseBank_spec :
  forall text w,
    NoDup (parseBank text)
    /\ (In w (parseBank text)
        <-> text <> ""%string
            /\ exists raw, In raw (splitLines text)
                 /\ js_trim (beforeHash raw) <> ""%string
                 /\ w = normalizeWord (JsString (js_trim (beforeHash raw)))).
Proof.
  intros text w. unfold parseBank.
  destruct (String.eqb_spec text "") as [E|E].
  - split; [constructor|]. split; [intros [] | intros [Hne _]; contradiction].
  - split; [apply NoDup_fold_addLine; constructor|].
    rewrite In_fold_addLine. split.
    + intros [[]|Hex]. now split.
    + intros [_ Hex]. now right.
Qed.

(** X26: a theme is read from disk once. After a load, loading any theme
    with the same key again answers the same bank and leaves the cache as
    it is, whatever the disk holds by then; the bank sits in the cache
    under the theme's key and no other entry of the cache changes. When
    the directory cannot be read and there is no global file, the bank is
    empty, it is cached all the same, and a round played on it rejects no
    word as off-bank. *)
Theorem word_bank_is_cached :
  forall fs fs' cache theme theme',
    normalizeKey theme' = normalizeKey theme ->
    let res := loadWordSetForTheme fs cache theme in
    loadWordSetForTheme fs' (fst res) theme' = res
    /\ JsMap.get (normalizeKey theme) (fst res) = Some (snd res)
    /\ (forall k, k <> normalizeKey theme ->
                  JsMap.get k (fst res) = JsMap.get k cache)
    /\ (JsMap.get (normalizeKey theme) cache = None ->
        readdir fs = None -> access_global fs = false ->
        snd res = []
        /\ forall now room word,
             notInBank (fst (startNewRound_resume now (snd res) room)) word = false).
Proof.
  intros fs fs' cache theme theme' Hkey res.
  unfold res, loadWordSetForTheme. rewrite Hkey.
  destruct (JsMap.get (normalizeKey theme) cache) as [set|] eqn:Eg; cbn [fst snd].
  - rewrite Eg. split; [reflexivity|]. split; [reflexivity|]. split; [reflexivity|].
    discriminate.
  - rewrite JsMapFacts.get_set_same. split; [reflexivity|].
    split; [reflexivity|]. split.
    + intros k Hk. apply JsMapFacts.get_set_other. congruence.
    + intros _ Hdir Hglob. rewrite Hdir, Hglob. cbn. split; reflexivity.
Qed.
End Bank.

Lemma resolveDatasetPath_spec_witness :
  exists g, @resolveDatasetPath asciiBuiltins (readdir sampleDisk) (JsString "Couleur")
            = Some g
            /\ @exactMatch asciiBuiltins
                 (nameVariants (@normalizeKey asciiBuiltins (JsString "Couleur"))) g = true.
Proof.
  pose proof (@resolveDatasetPath_spec asciiBuiltins (readdir sampleDisk)
                (JsString "Couleur")) as Hs.
  cbv zeta in Hs. destruct Hs as [_ [Hexact _]].
  apply (Hexact ["README.md"; "couleurs.TXT"; "pays.txt"]%string "couleurs.TXT"%string).
  - reflexivity.
  - right. left. reflexivity.
  - vm_compute. reflexivity.
  - vm_compute. reflexivity.
Defined.

Lemma parseBank_spec_witness :
  In "bleu"%string
     (@parseBank asciiBuiltins
        ("Rouge # primaire" ++ String CR (String LF "bleu"))%string).
Proof.
  apply (proj2 (@parseBank_spec asciiBuiltins
                  ("Rouge # primaire" ++ String CR (String LF "bleu"))%string
                  "bleu"%string)).
  split; [vm_compute; discriminate|].
  exists "bleu"%string. split; [vm_compute; right; left; reflexivity|].
  split; [vm_compute; discriminate | vm_compute; reflexivity].
Defined.

Lemma word_bank_is_cached_witness :
  @loadWordSetForTheme asciiBuiltins (mkFileSystem None false (fun _ => None))
    (fst (@loadWordSetForTheme asciiBuiltins sampleDisk [] (JsString "Couleurs")))
    (JsString "couleurs!")
  = @loadWordSetForTheme asciiBuiltins sampleDisk [] (JsString "Couleurs").
Proof.
  apply (@word_bank_is_cached asciiBuiltins sampleDisk
           (mkFileSystem None false (fun _ => None)) [] (JsString "Couleurs")
           (JsString "couleurs!")).
  vm_compute. reflexivity.
Defined.

Lemma Forall_consLine (P : string -> Prop) (c : ascii) (ls : list string) :
  (forall x, P x -> P (String c x)) -> P (String c EmptyString) ->
  Forall P ls -> Forall P (consLine c ls).
Proof.
  intros Hstep Hone Hall. destruct ls as [|x xs]; simpl.
  - constructor; [exact Hone | constructor].
  - inversion Hall; subst. constructor; auto.
Qed.

Lemma splitLines_lack_LF (n : nat) : forall s,
  (String.length s <= n)%nat -> Forall (fun l => lacks LF l = true) (splitLines s).
Proof.
  induction n as [|n IH]; intros [|c s'] Hlen; simpl in Hlen; try lia;
    try (constructor; [reflexivity | constructor]).
  cbn [splitLines]. destruct (Ascii.eqb c LF) eqn:Ec.
  - constructor; [reflexivity | apply IH; lia].
  - assert (Hcons : Forall (fun l => lacks LF l = true) (consLine c (splitLines s'))).
    { apply Forall_consLine.
      - intros x Hx. unfold lacks in *. simpl. now rewrite Ec, Hx.
      - unfold lacks. simpl. now rewrite Ec.
      - apply IH. lia. }
    destruct s' as [|c' s'']; [exact Hcons|].
    destruct (Ascii.eqb c CR && Ascii.eqb c' LF); [|exact Hcons].
    constructor; [reflexivity | apply IH; simpl in Hlen; lia].
Qed.

Lemma splitLines_nonempty (s : string) : splitLines s <> [].
Proof.
  destruct s as [|c s']; [discriminate|]. cbn [splitLines].
  assert (Hc : forall ls, consLine c ls <> []) by (intros [|x xs]; discriminate).
  destruct (Ascii.eqb c LF); [discriminate|].
  destruct s' as [|c' s'']; [apply Hc|].
  destruct (Ascii.eqb c CR && Ascii.eqb c' LF); [discriminate | apply Hc].
Qed.

Lemma joinLines_consLine (c : ascii) (ls : list string) :
  ls <> [] -> joinLines (consLine c ls) = String c (joinLines ls).
Proof.
  destruct ls as [|x [|y ys]]; [congruence | reflexivity | reflexivity].
Qed.

Lemma joinLines_empty_first (ls : list string) :
  ls <> [] -> joinLines (EmptyString :: ls) = String LF (joinLines ls).
Proof. destruct ls as [|x xs]; [congruence | reflexivity]. Qed.

Lemma joinLines_splitLines (s : string) :
  lacks CR s = true -> joinLines (splitLines s) = s.
Proof.
  induction s as [|c s' IH]; [reflexivity|].
  unfold lacks. simpl allChars. intros Hl. apply andb_prop in Hl. destruct Hl as [Hc Hs].
  apply negb_true_iff in Hc.
  assert (Hcons : Ascii.eqb c LF = false ->
                  joinLines (consLine c (splitLines s')) = String c s').
  { intros _. rewrite joinLines_consLine by apply splitLines_nonempty.
    now rewrite (IH Hs). }
  cbn [splitLines]. destruct (Ascii.eqb c LF) eqn:Ec.
  - apply Ascii.eqb_eq in Ec. subst c.
    rewrite joinLines_empty_first by apply splitLines_nonempty. now rewrite (IH Hs).
  - destruct s' as [|c' s'']; [now apply Hcons|].
    rewrite Hc. cbn [andb]. now apply Hcons.
Qed.

(** X27: the lines a text is cut into contain no line feed and are never
    no lines at all; on a text without carriage return, putting them back
    together with line feeds gives the text again. What is kept of a line
    is the part before its first [#]: a prefix of the line that contains no
    [#], the whole line when the line has none. *)
Theorem bank_lines_spec :
  forall text,
    splitLines text <> []
    /\ (forall l, In l (splitLines text) -> lacks LF l = true)
    /\ (lacks CR text = true -> joinLines (splitLines text) = text)
    /\ String.prefix (beforeHash text) text = true
    /\ lacks hash (beforeHash text) = true
    /\ (lacks hash text = true -> beforeHash text = text).
Proof.
  intros text. split; [apply splitLines_nonempty|].
  split; [|split; [apply joinLines_splitLines|]].
  - intros l Hin.
    pose proof (splitLines_lack_LF (String.length text) text (Nat.le_refl _)) as Hall.
    rewrite Forall_forall in Hall. now apply Hall.
  - unfold lacks. induction text as [|c s IH]; simpl; [repeat split; reflexivity|].
    destruct IH as [Hp [Hl Hid]].
    destruct (Ascii.eqb c hash) eqn:Ec; simpl.
    + repeat split. discriminate.
    + rewrite Ec. simpl. destruct (ascii_dec c c); [|congruence].
      split; [exact Hp|]. split; [exact Hl|]. intros Hs. now rewrite (Hid Hs).
Qed.

Lemma bank_lines_spec_witness :
  joinLines (splitLines ("rouge" ++ String LF ("bleu # ciel" ++ String LF ""))%string)
  = ("rouge" ++ String LF ("bleu # ciel" ++ String LF ""))%string.
Proof.
  apply (bank_lines_spec ("rouge" ++ String LF ("bleu # ciel" ++ String LF ""))%string).
  vm_compute. reflexivity.
Defined.

(** ** From the lobby to the first turn *)

Lemma resume_revives now ws room :
  onlineCount room
  <= Z.of_nat (List.length (aliveIds (fst (startNewRound_resume now ws room)))).
Proof.
  unfold startNewRound_resume, onlineCount, aliveIds. cbn [fst]. cbn.
  rewrite length_map. apply Nat2Z.inj_le.
  induction (players room) as [|[k p] ps IH]; simpl; [lia|].
  destruct (online p); simpl.
  - lia.
  - destruct (alive p); simpl; lia.
Qed.

Lemma turnMs_of_1 : turnMs_of 1 = 10000.
Proof. vm_compute. reflexivity. Qed.

(** X28: a game that starts opens on turn 1 of level 1. After a start that
    went through, once the word bank has answered every online player is
    alive and the word set is the bank's answer; the first turn then always
    begins, without any random draw: level 1, turn 1, ten seconds on the
    clock from the instant of the call, no punished letter, submissions
    open and empty, and the end-of-turn timer armed for ten seconds. *)
Theorem game_opening :
  forall sid now1 now2 now3 rnd ws draws room r1 fx1,
    hostId room = Some sid ->
    gameActive room = false ->
    handleGameStart sid now1 rnd room = (r1, fx1) ->
    gameActive r1 = true ->
    let r2 := fst (startNewRound_resume now2 ws r1) in
    wordSet r2 = ws
    /\ (forall k p, JsMap.get k (players r1) = Some p -> online p = true ->
                    isAlive r2 k = true)
    /\ exists r3 fx3,
         startNextTurn now3 draws r2 = Some (r3, fx3)
         /\ level r3 = 1 /\ turn r3 = 1 /\ round r3 = round room + 1
         /\ gameActive r3 = true
         /\ accepting r3 = true /\ submissions r3 = []
         /\ turnStartedAt r3 = Some now3
         /\ currentTurnDuration r3 = Some 10000
         /\ punishedLetters r3 = []
         /\ In (SetTimeout CbEndTurn 10000) fx3.
Proof.
  intros sid now1 now2 now3 rnd ws draws room r1 fx1 Hhost Hinactive Hstart Hact r2.
  set (room1 := if humanOnline room <? 2 then addBot now1 room else room).
  assert (Hres : handleGameStart sid now1 rnd room
                 = if onlineCount room1 <? 2
                   then (room1, [Emit (ToSocket sid) (EvGameError MSG_lobbyError)])
                   else startNewRound_begin rnd
                          (set_punishedLetters []
                             (set_level 0 (set_gameActive true room1)))).
  { unfold handleGameStart. rewrite Hhost, eqb_refl, Hinactive. reflexivity. }
  rewrite Hres in Hstart.
  destruct (onlineCount room1 <? 2) eqn:E.
  { exfalso. injection Hstart as <- _.
    assert (Hg : gameActive room1 = gameActive room)
      by (unfold room1; destruct (humanOnline room <? 2);
          [apply addBot_gameActive | reflexivity]).
    congruence. }
  apply Z.ltb_ge in E. unfold startNewRound_begin in Hstart.
  injection Hstart as <- _.
  match goal with
  | r2 := fst (startNewRound_resume _ _ ?r) |- _ => set (started := r) in *
  end.
  assert (Hon : 2 <= onlineCount started) by exact E.
  assert (Hl2 : level r2 = 0) by reflexivity.
  assert (Ht2 : turn r2 = 0) by reflexivity.
  assert (Hr2 : round r2 = round room + 1).
  { change (round r2) with (round room1 + 1). unfold room1.
    destruct (humanOnline room <? 2); [|reflexivity].
    unfold addBot. now destruct (truthy_str (botId room)). }
  assert (Hg2 : gameActive r2 = true) by reflexivity.
  split; [reflexivity|]. split.
  - intros k p Hget Hp. unfold isAlive, r2, startNewRound_resume. cbn [fst]. cbn.
    rewrite (get_map_snd (fun q => if online q then set_alive true q else q)).
    change (JsMap.get k (players room1)) with (JsMap.get k (players started)).
    rewrite Hget. cbn. now rewrite Hp.
  - pose proof (resume_revives now2 ws started) as Hrev. fold r2 in Hrev.
    unfold startNextTurn.
    destruct (Nat.leb_spec (List.length (aliveIds r2)) 1) as [Hle|Hgt]; [lia|].
    rewrite Hl2. change (10 <=? 0 + 1) with false. cbv iota. change (0 + 1) with 1.
    rewrite turnMs_of_1.
    match goal with
    | |- context [scheduleBotSubmission ?r] =>
        pose proof (scheduleBot_fields r) as Hf;
        destruct (scheduleBotSubmission r) as [r3 fx3]
    end.
    cbv zeta in Hf. cbn [fst] in Hf.
    destruct Hf as [H1 [H2 [H3 [H4 [H5 [H6 [H7 [H8 [H9 [H10 [H11 [H12 _]]]]]]]]]]]].
    exists (touchRoom now3 r3), ([Emit ToRoom (EvTurnStart (turn r2 + 1) 10000 []);
                                  SetTimeout CbEndTurn 10000] ++ fx3).
    split; [reflexivity|].
    change (level (touchRoom now3 r3)) with (level r3).
    change (turn (touchRoom now3 r3)) with (turn r3).
    change (round (touchRoom now3 r3)) with (round r3).
    change (gameActive (touchRoom now3 r3)) with (gameActive r3).
    change (accepting (touchRoom now3 r3)) with (accepting r3).
    change (submissions (touchRoom now3 r3)) with (submissions r3).
    change (turnStartedAt (touchRoom now3 r3)) with (turnStartedAt r3).
    change (currentTurnDuration (touchRoom now3 r3)) with (currentTurnDuration r3).
    change (punishedLetters (touchRoom now3 r3)) with (punishedLetters r3).
    rewrite H1, H2, H3, H4, H5, H7, H8, H9, H12. cbn.
    do 2 (split; [reflexivity|]). split; [exact Hr2|].
    do 6 (split; [reflexivity|]). right. now left.
Qed.

Lemma game_opening_witness :
  exists r3 fx3,
    startNextTurn 1700 []
      (fst (@startNewRound_resume 1100 ["mario"; "zelda"]%string
              (fst (handleGameStart "a" 1000 2 soloLobby))))
    = Some (r3, fx3)
    /\ level r3 = 1 /\ currentTurnDuration r3 = Some 10000.
Proof.
  destruct (game_opening "a" 1000 1100 1700 2 ["mario"; "zelda"]%string [] soloLobby
              (fst (handleGameStart "a" 1000 2 soloLobby))
              (snd (handleGameStart "a" 1000 2 soloLobby)))
    as [_ [_ [r3 [fx3 [Hs [Hl [_ [_ [_ [_ [_ [_ [Hd _]]]]]]]]]]]]].
  - vm_compute. reflexivity.
  - vm_compute. reflexivity.
  - vm_compute. reflexivity.
  - vm_compute. reflexivity.
  - exists r3, fx3. split; [exact Hs|]. split; [exact Hl | exact Hd].
Defined.

(** ** messages.js, gameLogic.js: what a turn's end reports *)

Lemma endTurn_logs now room :
  exists rest,
    snd (endTurn now room)
    = map (fun msg => Emit ToRoom (EvLogMessage msg))
          (filter (fun msg => negb (String.eqb msg "")) (turnMessages room))
      ++ rest
    /\ forall msg, ~ In (Emit ToRoom (EvLogMessage msg)) rest.
Proof.
  unfold endTurn.
  change (eliminatedAtTurnEnd (set_accepting false room))
    with (eliminatedAtTurnEnd room).
  destruct (eliminatedAtTurnEnd room) as [|e es]; cbn [map].
  - unfold finalizeTurn. cbn [snd]. eexists. split; [reflexivity|].
    intros msg [Hin|[Hin|[]]]; discriminate.
  - cbn [snd]. eexists. split; [reflexivity|].
    intros msg [Hin|[Hin|[]]]; discriminate.
Qed.

Lemma MSG_duplicate_nonempty names : names <> [] -> MSG_duplicate names <> ""%string.
Proof.
  destruct names as [|a [|b [|c l]]]; [congruence | discriminate..].
Qed.

Lemma dedup_nonempty (l : list string) : l <> [] -> dedup l <> [].
Proof.
  destruct l as [|x l]; [congruence|]. intros _ Hd.
  assert (Hin : In x (dedup (x :: l))).
  { unfold dedup. apply JsSetFacts.In_fold_add. left. now left. }
  rewrite Hd in Hin. destruct Hin.
Qed.

(** X29: at the end of a turn the room is told that nobody submitted when
    the submissions are empty, and is told who doubled a word whenever some
    word was submitted twice; no empty message is ever logged. The
    duplicate message is empty only for no name at all, and from two names
    on it is the names but the last, quoted and separated by commas, then
    the last one after the word for and. *)
Theorem turn_end_messages :
  forall now room,
    (JsMap.size (submissions room) = 0 ->
     In (Emit ToRoom (EvLogMessage MSG_noSubmission)) (snd (endTurn now room)))
    /\ (duplicateIds room <> [] ->
        In (Emit ToRoom
              (EvLogMessage
                 (MSG_duplicate (dedup (map (nameOf room) (duplicateIds room))))))
           (snd (endTurn now room)))
    /\ (forall msg, In (Emit ToRoom (EvLogMessage msg)) (snd (endTurn now room)) ->
                    msg <> ""%string /\ In msg (turnMessages room))
    /\ (forall names, MSG_duplicate names = ""%string <-> names = [])
    /\ (forall names, (2 <= List.length names)%nat ->
          MSG_duplicate names
          = (join ", " (map quoted (removelast names)) ++ " et "
             ++ quoted (last names "") ++ " ont fait chips!")%string).
Proof.
  intros now room. destruct (endTurn_logs now room) as [rest [Hfx Hrest]].
  rewrite Hfx.
  assert (Hlog : forall msg, In msg (turnMessages room) -> msg <> ""%string ->
            In (Emit ToRoom (EvLogMessage msg))
               (map (fun msg => Emit ToRoom (EvLogMessage msg))
                    (filter (fun msg => negb (String.eqb msg "")) (turnMessages room))
                ++ rest)).
  { intros msg Hin Hne. apply in_or_app. left.
    apply (in_map (fun m => Emit ToRoom (EvLogMessage m))).
    apply filter_In. split; [exact Hin|].
    apply negb_true_iff. now apply String.eqb_neq. }
  split; [|split; [|split; [|split]]].
  - intros Hsize. apply Hlog; [|discriminate].
    unfold turnMessages. rewrite Hsize. now left.
  - intros Hd. apply Hlog.
    + unfold turnMessages. apply in_or_app. right.
      destruct (duplicateIds room); [congruence | now left].
    + apply MSG_duplicate_nonempty, dedup_nonempty.
      destruct (duplicateIds room); [congruence | discriminate].
  - intros msg Hin. apply in_app_or in Hin. destruct Hin as [Hin|Hin].
    + apply in_map_iff in Hin. destruct Hin as [m [[= ->] Hm]].
      apply filter_In in Hm. destruct Hm as [Hm Hne].
      apply negb_true_iff, String.eqb_neq in Hne. now split.
    + exfalso. exact (Hrest msg Hin).
  - intros names. split.
    + intros Hm. destruct names as [|a l]; [reflexivity|].
      exfalso. now apply (MSG_duplicate_nonempty (a :: l)).
    + now intros ->.
  - intros names Hlen. destruct names as [|a [|b [|c l]]]; simpl in Hlen; try lia;
      reflexivity.
Qed.

Lemma turn_end_messages_witness :
  In (Emit ToRoom (EvLogMessage MSG_noSubmission)) (snd (endTurn 11000 (turnRoom [] []))).
Proof.
  apply (turn_end_messages 11000 (turnRoom [] [])). reflexivity.
Defined.

(** ** Scores in every reachable room *)

Lemma scoresOK_set k v ps : scoresOK ps -> 0 <= score v -> scoresOK (JsMap.set k v ps).
Proof.
  intros Hok Hv. induction ps as [|[k0 v0] ps IH]; simpl.
  - intros k' p [[= <- <-]|[]]. exact Hv.
  - assert (Hps : scoresOK ps) by (intros k' p Hin; apply (Hok k' p); now right).
    destruct (eqb k0 k).
    + intros k' p [[= <- <-]|Hin]; [exact Hv | now apply (Hps k' p)].
    + intros k' p [[= <- <-]|Hin]; [apply (Hok k0 v0); now left | now apply (IH Hps k' p)].
Qed.

Lemma scoresOK_delete k ps : scoresOK ps -> scoresOK (JsMap.delete k ps).
Proof.
  intros Hok. induction ps as [|[k0 v0] ps IH]; simpl; [exact Hok|].
  assert (Hps : scoresOK ps) by (intros k' p Hin; apply (Hok k' p); now right).
  destruct (eqb k0 k); [exact Hps|].
  intros k' p [[= <- <-]|Hin]; [apply (Hok k0 v0); now left | now apply (IH Hps k' p)].
Qed.

Lemma scoresOK_update k f ps :
  (forall p, score (f p) = score p) -> scoresOK ps -> scoresOK (JsMap.update k f ps).
Proof.
  intros Hf Hok. induction ps as [|[k0 v0] ps IH]; simpl; [exact Hok|].
  assert (Hps : scoresOK ps) by (intros k' p Hin; apply (Hok k' p); now right).
  assert (H0 : 0 <= score v0) by (apply (Hok k0 v0); now left).
  destruct (eqb k0 k).
  + intros k' p [[= <- <-]|Hin]; [now rewrite Hf | now apply (Hps k' p)].
  + intros k' p [[= <- <-]|Hin]; [exact H0 | now apply (IH Hps k' p)].
Qed.

Lemma scoresOK_addBot now room :
  scoresOK (players room) -> scoresOK (players (addBot now room)).
Proof.
  intros Hok. unfold addBot. destruct (truthy_str (botId room)); [exact Hok|].
  cbn. apply scoresOK_set; [exact Hok | cbn; lia].
Qed.

Lemma scoresOK_removeBot room :
  scoresOK (players room) -> scoresOK (players (removeBot room)).
Proof.
  intros Hok. unfold removeBot. destruct (truthy_str (botId room)); [|exact Hok].
  cbn. now apply scoresOK_delete.
Qed.

Lemma scoresOK_start sid now rnd room :
  scoresOK (players room) -> scoresOK (players (fst (handleGameStart sid now rnd room))).
Proof.
  intros Hok. unfold handleGameStart.
  destruct (negb (eqb (Some sid) (hostId room))); [exact Hok|].
  destruct (gameActive room); [exact Hok|].
  assert (H1 : scoresOK (players (if humanOnline room <? 2 then addBot now room else room)))
    by (destruct (humanOnline room <? 2); [now apply scoresOK_addBot | exact Hok]).
  destruct (onlineCount _ <? 2); exact H1.
Qed.

Section ScoreInvariant.
Context `{StringBuiltins}.

Lemma scoresOK_join sid nm hasAck now room :
  scoresOK (players room) ->
  scoresOK (players (fst (handlePlayerJoin sid nm hasAck now room))).
Proof.
  intros Hok. unfold handlePlayerJoin. cbn [fst].
  change (players (touchRoom now ?r)) with (players r).
  match goal with
  | |- scoresOK (players (if ?c then removeBot ?r else _)) =>
      assert (H2 : scoresOK (players r));
      [|destruct c; [now apply scoresOK_removeBot | exact H2]]
  end.
  destruct (negb (truthy_str _)); cbn; (apply scoresOK_set; [exact Hok | cbn; lia]).
Qed.

Lemma scoresOK_disconnect sid now room :
  scoresOK (players room) ->
  scoresOK (players (fst (handleDisconnect sid now room))).
Proof.
  intros Hok. destruct (disconnect_fields sid now room) as [-> _].
  destruct (helped_players sid now room) as [->|[_ ->]].
  - unfold leaverMarked. cbn. now apply scoresOK_update.
  - apply scoresOK_set; [|cbn; lia].
    unfold leaverMarked. cbn. now apply scoresOK_update.
Qed.

Lemma reachable_scoresOK room : reachable room -> scoresOK (players room).
Proof.
  induction 1 as [now|room now i room' fx Hreach IH Hstep].
  - intros k p [].
  - destruct (rosterInput i) eqn:Er.
    + destruct i as [sid nm hasAck|sid rnd|sid|sid rnd|sid word|sid target|sid|ws|rs|cb draws];
        try discriminate; cbn [step] in Hstep;
        apply some_pair_fst in Hstep; subst room'.
      * destruct nm as [nm|]; [now apply scoresOK_join | exact IH].
      * now apply scoresOK_start.
      * now apply (scoresOK_start sid now rnd room).
      * now apply scoresOK_disconnect.
    + intros k p' Hin.
      destruct (reachable_botInv room' (reachable_step room now i room' fx Hreach Hstep))
        as [Hwf' _].
      apply (JsMapFacts.In_get k p' _ Hwf') in Hin.
      assert (Hhas : JsMap.has k (players room) = true).
      { apply JsMapFacts.has_In.
        rewrite <- (step_sameKeys now i room room' fx Er Hstep).
        apply JsMapFacts.has_In. unfold JsMap.has. now rewrite Hin. }
      unfold JsMap.has in Hhas.
      destruct (JsMap.get k (players room)) as [p|] eqn:Eg; [|discriminate].
      destruct (step_scoresGrow now i room room' fx Er Hstep k p Eg) as [p'' [Hg Hle]].
      rewrite Hin in Hg. injection Hg as <-.
      apply JsMapFacts.get_Some_In in Eg. specialize (IH k p Eg). lia.
Qed.

(** X30: in every room the handlers and timers can reach, no player has a
    negative score. *)
Theorem scores_are_never_negative :
  forall room,
    reachable room ->
    forall k p, JsMap.get k (players room) = Some p -> 0 <= score p.
Proof.
  intros room Hreach k p Hget.
  apply (reachable_scoresOK room Hreach k p). now apply JsMapFacts.get_Some_In.
Qed.
End ScoreInvariant.

Lemma scores_are_never_negative_witness :
  exists p, JsMap.get (Some "a"%string) (players soloStarted) = Some p /\ 0 <= score p.
Proof.
  eexists. split; [vm_compute; reflexivity|].
  apply (@scores_are_never_negative asciiBuiltins soloStarted reachable_soloStarted
           (Some "a"%string)).
  vm_compute. reflexivity.
Defined.
